(** * Colour-space conversion library ([color.c], [color.h])

    A shallow embedding of the conversion edges, of the routing tables
    [g_descriptors] and of the driver [color_convert], followed by the
    properties of the routing engine and of selected edges.

    Modelling conventions.
    - A C [double] is modelled by a rational number ([Q]).  The
      closed-form formulas are kept as written and evaluated exactly, with
      one exception: the index computation of [finish_HSL_to_RGB], whose
      result an assertion constrains, rounds every operation to [binary64]
      ([b64]: nearest, ties to even), because there the rounding decides
      whether the code returns.  Infinities and NaN are not modelled.
      Equality of computed values is rational equality ([==]) unless both
      sides are the same term.
    - [uint8_t] fields are integers ([Z]); stores that can wrap are
      written with [mod 256].
    - The functions of [<math.h>] that have no closed form over the
      rationals ([pow], [sqrt], [atan2], [cos], [sin]) are the interface
      [MathLib]; [fabs] and [floor] are exact and defined.
    - [assert] is modelled by an error result that records which assertion
      failed; the [while] loop of [color_convert] is driven by fuel and
      counts its iterations. *)

From Stdlib Require Import ZArith QArith Qround Qabs Qpower Lia Lqa List Bool String Morphisms.
Import ListNotations.

(** ** Results of fallible code *)

Inductive assertion : Type :=
| A_type              (* assert(c->type == COLOR_...) at the head of an edge *)
| A_YUV_to_YUV_pre    (* assert(c->extra != extra) in color_YUV_to_YUV *)
| A_YUV_to_YUV_post   (* assert(c->extra == extra) in color_YUV_to_YUV *)
| A_YCbCr_to_YCbCr_pre
| A_YCbCr_to_YCbCr_post
| A_idx               (* assert(idx >= 0 && idx <= 5) in finish_HSL_to_RGB *)
| A_new_type          (* assert(new_type > COLOR_NONE && new_type < COLOR_DUMMY_END) *)
| A_cur_type          (* assert(c->type > COLOR_NONE && c->type < COLOR_DUMMY_END) *)
| A_tmp_type          (* assert(tmp_type > COLOR_NONE && tmp_type < COLOR_DUMMY_END) *)
| A_func              (* assert(func != NULL) *)
| A_reached.          (* assert(c->type == tmp_type) *)

Inductive error : Type :=
| AssertionFailed (a : assertion)
| UnionMisread      (* a union member read under the other storage kind *)
| OutOfBounds       (* a table indexed outside its extent *)
| OutOfFuel.        (* the loop did not finish within the given fuel *)

Inductive result (A : Type) : Type :=
| Ok (a : A)
| Err (e : error).

Arguments Ok {A} a.
Arguments Err {A} e.

Definition bind {A B : Type} (r : result A) (k : A -> result B) : result B :=
  match r with
  | Ok a => k a
  | Err e => Err e
  end.

Definition assert (b : bool) (a : assertion) : result unit :=
  if b then Ok tt else Err (AssertionFailed a).

Declare Scope result_scope.
Delimit Scope result_scope with result.
Notation "x <- e ;; k" := (bind e (fun x => k))
  (at level 61, e at next level, right associativity) : result_scope.
Notation "' p <- e ;; k" := (bind e (fun x => match x with p => k end))
  (at level 61, p pattern, e at next level, right associativity) : result_scope.
Notation "e ;; k" := (bind e (fun _ => k))
  (at level 61, right associativity) : result_scope.
Open Scope result_scope.

(** ** Numbers *)

Definition double : Type := Q.

Definition dlt (a b : double) : bool := negb (Qle_bool b a).
Definition dle (a b : double) : bool := Qle_bool a b.
Definition deq (a b : double) : bool := Qeq_bool a b.

Declare Scope double_scope.
Delimit Scope double_scope with double.
Infix "<?" := dlt (at level 70, no associativity) : double_scope.
Infix "<=?" := dle (at level 70, no associativity) : double_scope.
Notation "a >? b" := (dlt b a) (at level 70, no associativity) : double_scope.
Notation "a >=? b" := (dle b a) (at level 70, no associativity) : double_scope.
Infix "==?" := deq (at level 70, no associativity) : double_scope.

Definition fabs (x : double) : double := Qabs x.
Definition floor (x : double) : double := inject_Z (Qfloor x).

(** Conversion of a [double] to an integer type truncates toward zero. *)
Definition trunc (x : double) : Z := Z.quot (Qnum x) (Zpos (Qden x)).

Definition to_uint8 (z : Z) : Z := z mod 256.

(** The nearest integer, ties to the even one. *)
Definition round_half_even (x : Q) : Z :=
  let f := Qfloor x in
  match Qcompare (x - inject_Z f) (1 # 2) with
  | Lt => f
  | Gt => (f + 1)%Z
  | Eq => if Z.even f then f else (f + 1)%Z
  end.

(** The binary exponent of a nonzero rational: the [e] with
    [2^e <= |x| < 2^(e+1)]. *)
Definition ilog2 (x : Q) : Z :=
  let a := Qabs x in
  if Qle_bool 1 a then Z.log2 (Qfloor a) else (- Z.log2_up (Qceiling (/ a)))%Z.

(** The [binary64] value an arithmetic operation returns for the exact
    result [x]: 53 significant bits, round to nearest, ties to even, gradual
    underflow below [2^-1022]; overflow to infinity is not modelled. *)
Definition b64 (x : Q) : double :=
  if Qeq_bool x 0 then 0
  else
    let e := Z.max (ilog2 x) (-1022) in
    let q := 2 ^ (e - 52) in
    inject_Z (round_half_even (x / q)) * q.

(** The interface of [<math.h>] used by the edges. *)
Class MathLib : Type := {
  pow : double -> double -> double;
  sqrt : double -> double;
  atan2 : double -> double -> double;
  cos : double -> double;
  sin : double -> double;
  pow_proper : Proper (Qeq ==> Qeq ==> Qeq) pow
}.

(** ** [color.h] *)

(** [enum color_type] *)
Definition COLOR_NONE : Z := 0.
Definition COLOR_RGB8 : Z := 1.
Definition COLOR_RGB : Z := 2.
Definition COLOR_LINEAR_RGB : Z := 3.
Definition COLOR_HSL : Z := 4.
Definition COLOR_HSV : Z := 5.
Definition COLOR_YUV : Z := 6.
Definition COLOR_YCBCR : Z := 7.
Definition COLOR_YDBDR : Z := 8.
Definition COLOR_YIQ : Z := 9.
Definition COLOR_XYZ : Z := 10.
Definition COLOR_XYY : Z := 11.
Definition COLOR_LAB : Z := 12.
Definition COLOR_LUV : Z := 13.
Definition COLOR_LCHAB : Z := 14.
Definition COLOR_LCHUV : Z := 15.
Definition COLOR_LSHUV : Z := 16.
Definition COLOR_DUMMY_END : Z := 17.

(** [enum color_extra] *)
Definition COLOR_YUV_MAT_REC601 : Z := 0.
Definition COLOR_YUV_MAT_REC709 : Z := 1.
Definition COLOR_YUV_MAT_SMPTE240M : Z := 2.
Definition COLOR_YUV_MAT_FCC : Z := 3.
Definition COLOR_YUV_MAT_MASK : Z := 3.
Definition COLOR_YCBCR_FULL_RANGE : Z := 4.

(** The anonymous union of [struct color]: every member is either three
    [double]s at the same offsets or three [uint8_t]s. *)
Inductive payload : Type :=
| Doubles (d0 d1 d2 : double)
| Bytes (b0 b1 b2 : Z).

Record color : Type := mkColor {
  type : Z;
  extra : Z;
  data : payload
}.

Definition set_type (c : color) (t : Z) : color :=
  {| type := t; extra := extra c; data := data c |}.
Definition set_extra (c : color) (e : Z) : color :=
  {| type := type c; extra := e; data := data c |}.
Definition set_data (c : color) (p : payload) : color :=
  {| type := type c; extra := extra c; data := p |}.

Definition get_doubles (c : color) : result (double * double * double) :=
  match data c with
  | Doubles a b d => Ok (a, b, d)
  | Bytes _ _ _ => Err UnionMisread
  end.

Definition get_bytes (c : color) : result (Z * Z * Z) :=
  match data c with
  | Bytes a b d => Ok (a, b, d)
  | Doubles _ _ _ => Err UnionMisread
  end.

Definition assert_type (c : color) (t : Z) : result unit :=
  assert (type c =? t)%Z A_type.

Open Scope Q_scope.
Open Scope double_scope.

(** ** [color.c]: constants and matrices *)

Definition COLOR_REF_X : double := 31271.0 / 32902.0.
Definition COLOR_REF_Xr : double := 32902.0 / 31271.0.
Definition COLOR_REF_Z : double := 35827.0 / 32902.0.
Definition COLOR_REF_Zr : double := 32902.0 / 35827.0.
Definition COLOR_REF_U13 : double := 813046.0 / 316141.0.
Definition COLOR_REF_V13 : double := 1924767.0 / 316141.0.

Definition rgb_to_yuv : list (list double) :=
  [ (* Rec. 601 *)
    [ 0.299; 0.587; 0.114; -32591.0/221500.0; -63983.0/221500.0; -72201.0/140200.0; -7011.0/70100.0 ];
    (* Rec. 709 *)
    [ 0.2126; 0.7152; 0.0722; -115867.0/1159750.0; -194892.0/579875.0; -54981.0/98425.0; -44403.0/787400.0 ];
    (* SMPTE 240M *)
    [ 0.212; 0.701; 0.087; -11554.0/114125.0; -76409.0/228250.0; -86223.0/157600.0; -10701.0/157600.0 ];
    (* FCC *)
    [ 0.3; 0.59; 0.11; -327.0/2225.0; -6431.0/22250.0; -7257.0/14000.0; -1353.0/14000.0 ] ].

Definition yuv_to_rgb : list (list double) :=
  [ (* Rec. 601 *)
    [ 701.0/615.0; -25251.0/63983.0; -209599.0/361005.0; 443.0/218.0 ];
    (* Rec. 709 *)
    [ 3937.0/3075.0; -1674679.0/7795680.0; -4185031.0/10996200.0; 4639.0/2180.0 ];
    (* SMPTE 240M *)
    [ 788.0/615.0; -79431.0/305636.0; -167056.0/431115.0; 913.0/436.0 ];
    (* FCC *)
    [ 140.0/123.0; -4895.0/12862.0; -1400.0/2419.0; 445.0/218.0 ] ].

(** [tbl[i]] for a table of rows and [mat[j]] for a row. *)
Definition row (tbl : list (list double)) (i : Z) : list double :=
  nth (Z.to_nat i) tbl [].
Definition at_ (mat : list double) (j : nat) : double := nth j mat 0.

Section Edges.

Context {M : MathLib}.

(** ** RGB8 *)

Definition color_RGB8_extract (src : color) : result (double * double * double) :=
  assert_type src COLOR_RGB8 ;;
  '(r, g, b) <- get_bytes src ;;
  Ok (inject_Z r, inject_Z g, inject_Z b).

Definition color_RGB8_to_RGB (c : color) (ex : Z) : result color :=
  assert_type c COLOR_RGB8 ;;
  '(r, g, b) <- get_bytes c ;;
  let R := inject_Z r * (1.0 / 255.0) in
  let G := inject_Z g * (1.0 / 255.0) in
  let B := inject_Z b * (1.0 / 255.0) in
  Ok {| type := COLOR_RGB; extra := extra c; data := Doubles R G B |}.

Definition rgb8_to_linear (c : Z) : double :=
  if (c >=? 11)%Z
  then pow (inject_Z c * (40.0 / 10761.0) + (11.0 / 211.0)) 2.4
  else inject_Z c * (5.0 / 16473.0).

Definition color_RGB8_to_LinearRGB (c : color) (ex : Z) : result color :=
  assert_type c COLOR_RGB8 ;;
  '(r, g, b) <- get_bytes c ;;
  let R := rgb8_to_linear r in
  let G := rgb8_to_linear g in
  let B := rgb8_to_linear b in
  Ok {| type := COLOR_LINEAR_RGB; extra := extra c; data := Doubles R G B |}.

(** ** RGB *)

Definition color_RGB_extract (src : color) : result (double * double * double) :=
  assert_type src COLOR_RGB ;;
  get_doubles src.

(** [x < 0.0 ? 0 : x > 255.0 ? 255 : (uint8_t)x] *)
Definition clamp_uint8 (x : double) : Z :=
  if x <? 0.0 then 0%Z else if x >? 255.0 then 255%Z else to_uint8 (trunc x).

Definition color_RGB_to_RGB8 (c : color) (ex : Z) : result color :=
  assert_type c COLOR_RGB ;;
  '(r, g, b) <- get_doubles c ;;
  let R := r * 255.0 + 0.5 in
  let G := g * 255.0 + 0.5 in
  let B := b * 255.0 + 0.5 in
  Ok {| type := COLOR_RGB8; extra := extra c;
        data := Bytes (clamp_uint8 R) (clamp_uint8 G) (clamp_uint8 B) |}.

Definition rgb_to_linear (c : double) : double :=
  if c >? (0.0031308 * 12.92)
  then pow (c * (1.0 / 1.055) + (0.055 / 1.055)) 2.4
  else c * (1.0 / 12.92).

Definition color_RGB_to_LinearRGB (c : color) (ex : Z) : result color :=
  assert_type c COLOR_RGB ;;
  '(r, g, b) <- get_doubles c ;;
  let R := rgb_to_linear r in
  let G := rgb_to_linear g in
  let B := rgb_to_linear b in
  Ok {| type := COLOR_LINEAR_RGB; extra := extra c; data := Doubles R G B |}.

Definition color_RGB_to_HSL (c : color) (ex : Z) : result color :=
  assert_type c COLOR_RGB ;;
  '(R, G, B) <- get_doubles c ;;
  let min := if R <? G then R else G in
  let min := if B <? min then B else min in
  let max := if R >? G then R else G in
  let max := if B >? max then B else max in
  let delta := max - min in
  let L := (max + min) * 0.5 in
  if fabs delta >? 0.0 then
    let S := if L <? 0.5 then delta / (max + min) else delta / (2.0 - max - min) in
    let H :=
      if max ==? R then (G - B) / delta
      else if max ==? G then (B - R) / delta + 2.0
      else (R - G) / delta + 4.0 in
    Ok {| type := COLOR_HSL; extra := extra c; data := Doubles H S L |}
  else
    Ok {| type := COLOR_HSL; extra := extra c; data := Doubles 0.0 0.0 L |}.

Definition color_RGB_to_HSV (c : color) (ex : Z) : result color :=
  assert_type c COLOR_RGB ;;
  '(R, G, B) <- get_doubles c ;;
  let min := if R <? G then R else G in
  let min := if B <? min then B else min in
  let max := if R >? G then R else G in
  let max := if B >? max then B else max in
  let delta := max - min in
  if fabs delta >? 0.0 then
    let S := delta / max in
    let H :=
      if max ==? R then (G - B) / delta
      else if max ==? G then (B - R) / delta + 2.0
      else (R - G) / delta + 4.0 in
    Ok {| type := COLOR_HSV; extra := extra c; data := Doubles H S max |}
  else
    Ok {| type := COLOR_HSV; extra := extra c; data := Doubles 0.0 0.0 max |}.

Definition color_RGB_to_YUV (c : color) (ex : Z) : result color :=
  assert_type c COLOR_RGB ;;
  '(R, G, B) <- get_doubles c ;;
  let mat := row rgb_to_yuv (Z.land ex COLOR_YUV_MAT_MASK) in
  let Y := R * at_ mat 0 + G * at_ mat 1 + B * at_ mat 2 in
  let U := R * at_ mat 3 + G * at_ mat 4 + B * 0.436 in
  let V := R * 0.615 + G * at_ mat 5 + B * at_ mat 6 in
  Ok {| type := COLOR_YUV; extra := ex; data := Doubles Y U V |}.

Definition color_RGB_to_YDbDr (c : color) (ex : Z) : result color :=
  assert_type c COLOR_RGB ;;
  '(R, G, B) <- get_doubles c ;;
  let Y  := R * (299.0/1000.0) + G * (587.0/1000.0) + B * (57.0/500.0) in
  let Db := R * (-398567.0/886000.0) + G * (-782471.0/886000.0) + B * (1333.0/1000.0) in
  let Dr := R * (1333.0/1000.0) + G * (-782471.0/701000.0) + B * (-75981.0/350500.0) in
  Ok {| type := COLOR_YDBDR; extra := extra c; data := Doubles Y Db Dr |}.

Definition color_RGB_to_YIQ (c : color) (ex : Z) : result color :=
  assert_type c COLOR_RGB ;;
  '(R, G, B) <- get_doubles c ;;
  let Y := R * 0.299 + G * 0.587 + B * 0.114 in
  let I := R * 0.5957 + G * -0.2744766323826577035751015648
           + B * -0.3212233676173422964248984352 in
  let Q := R * -0.2114956266791979792324116478 + G * 0.5226
           + B * -0.3111043733208020207675883522 in
  Ok {| type := COLOR_YIQ; extra := extra c; data := Doubles Y I Q |}.

(** ** Linear RGB *)

Definition linear_to_rgb8 (c : double) : Z :=
  if c <=? 0.0 then 0%Z
  else if c <=? 0.0031308 then to_uint8 (trunc (c * 3294.6 + 0.5))
  else if c <? 1.0 then to_uint8 (trunc (pow c (1.0 / 2.4) * 269.025 - (14.025 - 0.5)))
  else 255%Z.

Definition color_LinearRGB_extract (src : color) : result (double * double * double) :=
  assert_type src COLOR_LINEAR_RGB ;;
  get_doubles src.

Definition color_LinearRGB_to_RGB8 (c : color) (ex : Z) : result color :=
  assert_type c COLOR_LINEAR_RGB ;;
  '(r, g, b) <- get_doubles c ;;
  let R := linear_to_rgb8 r in
  let G := linear_to_rgb8 g in
  let B := linear_to_rgb8 b in
  Ok {| type := COLOR_RGB8; extra := extra c; data := Bytes R G B |}.

Definition linear_to_rgb (c : double) : double :=
  if c >? 0.0031308 then pow c (1.0 / 2.4) * 1.055 - 0.055 else c * 12.92.

Definition color_LinearRGB_to_RGB (c : color) (ex : Z) : result color :=
  assert_type c COLOR_LINEAR_RGB ;;
  '(r, g, b) <- get_doubles c ;;
  let R := linear_to_rgb r in
  let G := linear_to_rgb g in
  let B := linear_to_rgb b in
  Ok {| type := COLOR_RGB; extra := extra c; data := Doubles R G B |}.

Definition color_LinearRGB_to_XYZ (c : color) (ex : Z) : result color :=
  assert_type c COLOR_LINEAR_RGB ;;
  '(R, G, B) <- get_doubles c ;;
  let X := R * (5067776.0/12288897.0) + G * (4394405.0/12288897.0) + B * (4435075.0/24577794.0) in
  let Y := R * (871024.0/4096299.0) + G * (8788810.0/12288897.0) + B * (887015.0/12288897.0) in
  let Z := R * (79184.0/4096299.0) + G * (4394405.0/36866691.0) + B * (70074185.0/73733382.0) in
  Ok {| type := COLOR_XYZ; extra := extra c; data := Doubles X Y Z |}.

Definition xyz_to_lab (c : double) : double :=
  if c >? 216.0 / 24389.0 then pow c (1.0 / 3.0) else c * (841.0/108.0) + (4.0/29.0).

Definition color_LinearRGB_to_Lab (c : color) (ex : Z) : result color :=
  assert_type c COLOR_LINEAR_RGB ;;
  '(R, G, B) <- get_doubles c ;;
  (* linear sRGB -> normalized XYZ *)
  let X := xyz_to_lab (R * (10135552.0/23359437.0) + G * (8788810.0/23359437.0) + B * (4435075.0/23359437.0)) in
  let Y := xyz_to_lab (R * (871024.0/4096299.0) + G * (8788810.0/12288897.0) + B * (887015.0/12288897.0)) in
  let Z := xyz_to_lab (R * (158368.0/8920923.0) + G * (8788810.0/80288307.0) + B * (70074185.0/80288307.0)) in
  (* normalized XYZ -> Lab *)
  Ok {| type := COLOR_LAB; extra := extra c;
        data := Doubles (Y * 116.0 - 16.0) ((X - Y) * 500.0) ((Y - Z) * 200.0) |}.

(** ** HSL and HSV *)

Definition color_HSL_extract (src : color) : result (double * double * double) :=
  assert_type src COLOR_HSL ;;
  get_doubles src.

Definition rgb_tbl : list (list nat) :=
  [ [0; 2; 1];
    [2; 0; 1];
    [1; 0; 2];
    [1; 2; 0];
    [2; 1; 0];
    [0; 1; 2] ]%nat.

(** The value converted to [int] to index [rgb_tbl]:
    [(int)(absh >= 6.0 ? floor(h * (1.0 / 6.0)) * -6.0 + h
           : h < 0.0 ? h + 6.0 : h)],
    each product and sum rounded to [binary64] (no fused multiply-add).  The
    rounding matters: a sum that rounds up to 6.0 gives the index 6. *)
Definition hue_sector (h : double) : Z :=
  let absh := fabs h in
  trunc (if absh >=? 6.0
         then b64 (b64 (floor (b64 (h * b64 (1.0 / 6.0))) * -6.0) + h)
         else if h <? 0.0 then b64 (h + 6.0)
         else h).

Definition finish_HSL_to_RGB (c : color) (h C m : double) : result color :=
  let absh := fabs h in
  (* clamps hue to [0, 2), and returns (1.0 - fabs(hue - 1.0)) *)
  let h2 :=
    if absh >=? 2.0 then floor (h * 0.5) * -2.0 + h - 1.0
    else if h <? 0.0 then h + 1.0
    else h - 1.0 in
  let h2 := 1.0 - fabs h2 in
  (* clamps hue to [0, 6), for indexing into rgb_tbl. *)
  let idx := hue_sector h in
  assert ((idx >=? 0)%Z && (idx <=? 5)%Z) A_idx ;;
  (* finish HSL->RGB. *)
  let vars := [C + m; m; C * h2 + m] in
  let sel := nth (Z.to_nat idx) rgb_tbl [] in
  Ok (set_data c (Doubles (at_ vars (nth 0 sel 0%nat))
                          (at_ vars (nth 1 sel 0%nat))
                          (at_ vars (nth 2 sel 0%nat)))).

Definition color_HSL_to_RGB (c : color) (ex : Z) : result color :=
  assert_type c COLOR_HSL ;;
  '(H, S_, L) <- get_doubles c ;;
  let c := set_type c COLOR_RGB in
  if fabs S_ >? 0.0 then
    let C := (1.0 - fabs (L * 2.0 - 1.0)) * S_ in
    let m := C * -0.5 + L in
    finish_HSL_to_RGB c H C m
  else
    Ok (set_data c (Doubles L L L)).

Definition color_HSV_extract (src : color) : result (double * double * double) :=
  assert_type src COLOR_HSV ;;
  get_doubles src.

Definition color_HSV_to_RGB (c : color) (ex : Z) : result color :=
  assert_type c COLOR_HSV ;;
  '(H, S_, V) <- get_doubles c ;;
  let c := set_type c COLOR_RGB in
  if fabs S_ >? 0.0 then
    let C := V * S_ in
    let m := V - C in
    finish_HSL_to_RGB c H C m
  else
    Ok (set_data c (Doubles V V V)).

(** ** YUV and YCbCr *)

Definition color_YUV_extract (src : color) : result (double * double * double) :=
  assert_type src COLOR_YUV ;;
  get_doubles src.

Definition color_YUV_to_RGB (c : color) (ex : Z) : result color :=
  assert_type c COLOR_YUV ;;
  '(Y, U, V) <- get_doubles c ;;
  let mat := row yuv_to_rgb (Z.land (extra c) COLOR_YUV_MAT_MASK) in
  let R := Y + V * at_ mat 0 in
  let G := Y + U * at_ mat 1 + V * at_ mat 2 in
  let B := Y + U * at_ mat 3 in
  Ok {| type := COLOR_RGB; extra := 0%Z; data := Doubles R G B |}.

Definition color_YUV_to_YUV (c : color) (ex : Z) : result color :=
  assert_type c COLOR_YUV ;;
  assert (negb (extra c =? ex)%Z) A_YUV_to_YUV_pre ;;
  c <- color_YUV_to_RGB c ex ;;
  c <- color_RGB_to_YUV c ex ;;
  assert (extra c =? ex)%Z A_YUV_to_YUV_post ;;
  Ok c.

(** [x < 0.0 ? 0 : x > 255.0 ? 255 : (int)x], stored in a [uint8_t]. *)
Definition clamp_int (x : double) : Z :=
  if x <? 0.0 then 0%Z else if x >? 255.0 then 255%Z else to_uint8 (trunc x).

Definition color_YUV_to_YCbCr (c : color) (ex : Z) : result color :=
  assert_type c COLOR_YUV ;;
  c <- (if negb (Z.land (extra c) COLOR_YUV_MAT_MASK =? Z.land ex COLOR_YUV_MAT_MASK)%Z
        then color_YUV_to_YUV c ex
        else Ok c) ;;
  '(Y, U, V) <- get_doubles c ;;
  let '(Y, U, V) :=
    if negb (Z.land ex COLOR_YCBCR_FULL_RANGE =? 0)%Z
    then (Y * 255.0 + 0.5, U * (31875.0/109.0) + 128, V * (8500.0/41.0) + 128)
    else (Y * 219.0 + 16.5, U * (28000.0/109.0) + 144, V * (22400.0/123.0) + 144) in
  Ok {| type := COLOR_YCBCR; extra := ex;
        data := Bytes (clamp_int Y) (clamp_int U) (clamp_int V) |}.

Definition color_YCbCr_extract (src : color) : result (double * double * double) :=
  assert_type src COLOR_YCBCR ;;
  '(y, cb, cr) <- get_bytes src ;;
  Ok (inject_Z y, inject_Z cb, inject_Z cr).

Definition color_YCbCr_to_YUV (c : color) (ex : Z) : result color :=
  assert_type c COLOR_YCBCR ;;
  '(y, cb, cr) <- get_bytes c ;;
  let Y := inject_Z y in
  let U := inject_Z cb in
  let V := inject_Z cr in
  let '(Y, U, V) :=
    if negb (Z.land (extra c) COLOR_YCBCR_FULL_RANGE =? 0)%Z
    then (Y * (1.0 / 255.0), U * (109.0/31875.0) - 0.436, V * (41.0/8500.0) - 0.615)
    else (Y * (1.0/219.0) - (16.0/219.0), U * (109.0/28000.0) - 0.558625,
          V * (123.0/22400.0) - 0.78796875) in
  let c := {| type := COLOR_YUV;
              extra := to_uint8 (Z.land (extra c) (Z.lnot COLOR_YCBCR_FULL_RANGE));
              data := Doubles Y U V |} in
  if negb (Z.land (extra c) COLOR_YUV_MAT_MASK =? Z.land ex COLOR_YUV_MAT_MASK)%Z
  then color_YUV_to_YUV c ex
  else Ok c.

Definition color_YCbCr_to_YCbCr (c : color) (ex : Z) : result color :=
  assert_type c COLOR_YCBCR ;;
  assert (negb (extra c =? ex)%Z) A_YCbCr_to_YCbCr_pre ;;
  c <- color_YCbCr_to_YUV c ex ;;
  c <- color_YUV_to_YCbCr c ex ;;
  assert (extra c =? ex)%Z A_YCbCr_to_YCbCr_post ;;
  Ok c.

(** ** YDbDr and YIQ *)

Definition color_YDbDr_extract (src : color) : result (double * double * double) :=
  assert_type src COLOR_YDBDR ;;
  get_doubles src.

Definition color_YDbDr_to_RGB (c : color) (ex : Z) : result color :=
  assert_type c COLOR_YDBDR ;;
  '(Y, Db, Dr) <- get_doubles c ;;
  let R := Y + Dr * (701.0/1333.0) in
  let G := Y + Db * (-101004.0/782471.0) + Dr * (-209599.0/782471.0) in
  let B := Y + Db * (886.0/1333.0) in
  Ok {| type := COLOR_RGB; extra := extra c; data := Doubles R G B |}.

Definition color_YDbDr_to_YIQ (c : color) (ex : Z) : result color :=
  assert_type c COLOR_YDBDR ;;
  '(Y, Db, Dr) <- get_doubles c ;;
  let Y' := Y in
  let U := Db * -1.780759334211551067290090872e-1 + Dr * 3.867911188667345780375729105e-1 in
  let V := Y * 3.155443620884047221646914261e-30 + Db * -2.742395246410785275938007739e-1
           + Dr * -2.512094867865302853146089398e-1 in
  Ok {| type := COLOR_YIQ; extra := extra c; data := Doubles Y' U V |}.

Definition color_YIQ_extract (src : color) : result (double * double * double) :=
  assert_type src COLOR_YIQ ;;
  get_doubles src.

Definition color_YIQ_to_RGB (c : color) (ex : Z) : result color :=
  assert_type c COLOR_YIQ ;;
  '(Y, I_, Q_) <- get_doubles c ;;
  let R := Y + I_ * 9.563000521420394701478042310e-1 + Q_ * -6.209682015704038246103012680e-1 in
  let G := Y + I_ * -2.720883840788609953919979558e-1 + Q_ * 6.473748500336683799608873068e-1 in
  let B := Y + I_ * -1.107173983650687695430619869e0 + Q_ * -1.704732848247478907706673421e0 in
  Ok {| type := COLOR_RGB; extra := extra c; data := Doubles R G B |}.

Definition color_YIQ_to_YDbDr (c : color) (ex : Z) : result color :=
  assert_type c COLOR_YIQ ;;
  '(Y, I_, Q_) <- get_doubles c ;;
  let Y' := Y + I_ * 6.310887241768094443293828522e-30 in
  let Db := I_ * -1.665759503618924038384894227e0 + Q_ * -2.564795583198520749405186986e0 in
  let Dr := Y * 1.009741958682895110927012564e-28 + I_ * 1.818470712561110718554954408e0
            + Q_ * -1.180813998136017543802470171e0 in
  Ok {| type := COLOR_YDBDR; extra := extra c; data := Doubles Y' Db Dr |}.

(** ** XYZ and xyY *)

Definition color_XYZ_extract (src : color) : result (double * double * double) :=
  assert_type src COLOR_XYZ ;;
  get_doubles src.

Definition color_XYZ_to_LinearRGB (c : color) (ex : Z) : result color :=
  assert_type c COLOR_XYZ ;;
  '(X, Y, Z) <- get_doubles c ;;
  let R := X * (641589.0/197960.0) + Y * (-608687.0/395920.0) + Z * (-49353.0/98980.0) in
  let G := X * (-42591639.0/43944050.0) + Y * (82435961.0/43944050.0) + Z * (1826061.0/43944050.0) in
  let B := X * (49353.0/887015.0) + Y * (-180961.0/887015.0) + Z * (49353.0/46685.0) in
  Ok {| type := COLOR_LINEAR_RGB; extra := extra c; data := Doubles R G B |}.

Definition color_XYZ_to_xyY (c : color) (ex : Z) : result color :=
  assert_type c COLOR_XYZ ;;
  '(X, Y, Z) <- get_doubles c ;;
  let div := X + Y + Z in
  if fabs div >? 0.0 then
    Ok {| type := COLOR_XYY; extra := extra c; data := Doubles (X / div) (Y / div) Y |}
  else
    Ok {| type := COLOR_XYY; extra := extra c; data := Doubles X Y Y |}.

Definition color_XYZ_to_Lab (c : color) (ex : Z) : result color :=
  assert_type c COLOR_XYZ ;;
  '(X, Y, Z) <- get_doubles c ;;
  let X := if X >? 3377268.0/401223439.0 then pow (X * COLOR_REF_Xr) (1.0/3.0)
           else X * (13835291.0/1688634.0) + (4.0/29.0) in
  let Y := if Y >? 216.0/24389.0 then pow Y (1.0/3.0)
           else Y * (841.0/108.0) + (4.0/29.0) in
  let Z := if Z >? 3869316.0/401223439.0 then pow (Z * COLOR_REF_Zr) (1.0/3.0)
           else Z * (13835291.0/1934658.0) + (4.0/29.0) in
  Ok {| type := COLOR_LAB; extra := extra c;
        data := Doubles (Y * 116.0 - 16.0) ((X - Y) * 500.0) ((Y - Z) * 200.0) |}.

Definition color_XYZ_to_Luv (c : color) (ex : Z) : result color :=
  assert_type c COLOR_XYZ ;;
  '(X, Y, Z) <- get_doubles c ;;
  let div := X + Y * 15.0 + Z * 3.0 in
  let L := if Y >? 216.0/24389.0 then pow Y (1.0 / 3.0) * 116.0 - 16.0
           else Y * (24389.0/27.0) in
  let '(X, Y) :=
    if fabs div >? 0.0 then (X * (1.0 / div), Y * (1.0 / div)) else (X, Y) in
  Ok {| type := COLOR_LUV; extra := extra c;
        data := Doubles L ((X * 52.0 - COLOR_REF_U13) * L) ((Y * 117.0 - COLOR_REF_V13) * L) |}.

Definition color_xyY_extract (src : color) : result (double * double * double) :=
  assert_type src COLOR_XYY ;;
  get_doubles src.

Definition color_xyY_to_XYZ (c : color) (ex : Z) : result color :=
  assert_type c COLOR_XYY ;;
  '(x, y, Y) <- get_doubles c ;;
  if fabs y >? 0.0 then
    let mul := Y / y in
    Ok {| type := COLOR_XYZ; extra := extra c;
          data := Doubles (x * mul) Y ((1.0 - x - y) * mul) |}
  else
    Ok {| type := COLOR_XYZ; extra := extra c; data := Doubles 0.0 0.0 0.0 |}.

(** ** Lab and LCHab *)

Definition color_Lab_extract (src : color) : result (double * double * double) :=
  assert_type src COLOR_LAB ;;
  get_doubles src.

Definition color_Lab_to_LinearRGB (c : color) (ex : Z) : result color :=
  assert_type c COLOR_LAB ;;
  '(L, a, b) <- get_doubles c ;;
  (* Lab -> normalized XYZ *)
  let Y := L * (1.0/116.0) + 16.0/116.0 in
  let X := a * (1.0/500.0) + Y in
  let Z := b * (-1.0/200.0) + Y in
  let X := if X >? 6.0/29.0 then X * X * X else X * (108.0/841.0) - 432.0/24389.0 in
  let Y := if L >? 8.0 then Y * Y * Y else L * (27.0/24389.0) in
  let Z := if Z >? 6.0/29.0 then Z * Z * Z else Z * (108.0/841.0) - 432.0/24389.0 in
  (* normalized XYZ -> linear sRGB *)
  let R := X * (1219569.0/395920.0) + Y * (-608687.0/395920.0) + Z * (-107481.0/197960.0) in
  let G := X * (-80960619.0/87888100.0) + Y * (82435961.0/43944050.0) + Z * (3976797.0/87888100.0) in
  let B := X * (93813.0/1774030.0) + Y * (-180961.0/887015.0) + Z * (107481.0/93370.0) in
  Ok {| type := COLOR_LINEAR_RGB; extra := extra c; data := Doubles R G B |}.

Definition color_Lab_to_XYZ (c : color) (ex : Z) : result color :=
  assert_type c COLOR_LAB ;;
  '(L, a, b) <- get_doubles c ;;
  let Y := L * (1.0/116.0) + 16.0/116.0 in
  let X := a * (1.0/500.0) + Y in
  let Z := b * (-1.0/200.0) + Y in
  let X' := if X >? 6.0/29.0 then X * X * X * COLOR_REF_X
            else X * (1688634.0/13835291.0) - 6754536.0/401223439.0 in
  let Y' := if L >? 8.0 then Y * Y * Y else L * (27.0/24389.0) in
  let Z' := if Z >? 6.0/29.0 then Z * Z * Z * COLOR_REF_Z
            else Z * (1934658.0/13835291.0) - 7738632.0/401223439.0 in
  Ok {| type := COLOR_XYZ; extra := extra c; data := Doubles X' Y' Z' |}.

Definition color_Lab_to_LCHab (c : color) (ex : Z) : result color :=
  assert_type c COLOR_LAB ;;
  '(L, a, b) <- get_doubles c ;;
  Ok {| type := COLOR_LCHAB; extra := extra c;
        data := Doubles L (sqrt (a * a + b * b)) (atan2 b a) |}.

Definition color_LCHab_extract (src : color) : result (double * double * double) :=
  assert_type src COLOR_LCHAB ;;
  get_doubles src.

Definition color_LCHab_to_Lab (c : color) (ex : Z) : result color :=
  assert_type c COLOR_LCHAB ;;
  '(L, C, h) <- get_doubles c ;;
  Ok {| type := COLOR_LAB; extra := extra c; data := Doubles L (cos h * C) (sin h * C) |}.

(** ** Luv, LCHuv and LSHuv *)

Definition color_Luv_extract (src : color) : result (double * double * double) :=
  assert_type src COLOR_LUV ;;
  get_doubles src.

Definition color_Luv_to_XYZ (c : color) (ex : Z) : result color :=
  assert_type c COLOR_LUV ;;
  '(L, u, v) <- get_doubles c ;;
  let y := if L >? 8.0
           then (let y := L * (1.0 / 116.0) + 16.0 / 116.0 in y * y * y)
           else L * (27.0 / 24389.0) in
  let a := L / (L * COLOR_REF_U13 + u) * (52.0 / 3.0) - 1.0 / 3.0 in
  let b := 5.0 * y in
  let cc := (L / (L * COLOR_REF_V13 + v) * 39.0 - 5.0) * y in
  let x := (cc + b) / (a + 1.0 / 3.0) in
  let z := x * a - b in
  Ok {| type := COLOR_XYZ; extra := extra c; data := Doubles x y z |}.

Definition color_Luv_to_LCHuv (c : color) (ex : Z) : result color :=
  assert_type c COLOR_LUV ;;
  let c := set_type c COLOR_LAB in
  c <- color_Lab_to_LCHab c ex ;;
  Ok (set_type c COLOR_LCHUV).

Definition color_LCHuv_extract (src : color) : result (double * double * double) :=
  assert_type src COLOR_LCHUV ;;
  get_doubles src.

Definition color_LCHuv_to_Luv (c : color) (ex : Z) : result color :=
  assert_type c COLOR_LCHUV ;;
  let c := set_type c COLOR_LCHAB in
  c <- color_LCHab_to_Lab c ex ;;
  Ok (set_type c COLOR_LUV).

Definition color_LCHuv_to_LSHuv (c : color) (ex : Z) : result color :=
  assert_type c COLOR_LCHUV ;;
  '(L, C, h) <- get_doubles c ;;
  Ok {| type := COLOR_LSHUV; extra := extra c; data := Doubles L (C / L) h |}.

Definition color_LSHuv_extract (src : color) : result (double * double * double) :=
  assert_type src COLOR_LSHUV ;;
  get_doubles src.

Definition color_LSHuv_to_LCHuv (c : color) (ex : Z) : result color :=
  assert_type c COLOR_LSHUV ;;
  '(L, S_, h) <- get_doubles c ;;
  Ok {| type := COLOR_LCHUV; extra := extra c; data := Doubles L (S_ * L) h |}.

(** ** The descriptor table *)

Definition conversion_func : Type := color -> Z -> result color.

Record color_descriptor : Type := mkDescriptor {
  name : string;
  extract : color -> result (double * double * double);
  conversions : list (option conversion_func);   (* NULL is [None] *)
  proxy_conversions : list Z
}.

Definition desc_RGB8 : color_descriptor :=
  {| name := "RGB8";
     extract := color_RGB8_extract;
     conversions :=
       [ None (* RGB8 *);
         Some color_RGB8_to_RGB (* RGB *);
         Some color_RGB8_to_LinearRGB (* Linear RGB *) ];
     proxy_conversions :=
       [ COLOR_NONE (* RGB8 *);
         COLOR_NONE (* RGB *);
         COLOR_NONE (* Linear RGB *);
         COLOR_RGB (* HSL *);
         COLOR_RGB (* HSV *);
         COLOR_RGB (* YUV *);
         COLOR_RGB (* YCbCr *);
         COLOR_RGB (* YDbDr *);
         COLOR_RGB (* YIQ *);
         COLOR_LINEAR_RGB (* XYZ *);
         COLOR_LINEAR_RGB (* xyY *);
         COLOR_LINEAR_RGB (* Lab *);
         COLOR_LINEAR_RGB (* Luv *);
         COLOR_LINEAR_RGB (* LCHab *);
         COLOR_LINEAR_RGB (* LCHuv *);
         COLOR_LINEAR_RGB (* LSHuv *) ] |}.

Definition desc_RGB : color_descriptor :=
  {| name := "RGB";
     extract := color_RGB_extract;
     conversions :=
       [ Some color_RGB_to_RGB8 (* RGB8 *);
         None (* RGB *);
         Some color_RGB_to_LinearRGB (* Linear RGB *);
         Some color_RGB_to_HSL (* HSL *);
         Some color_RGB_to_HSV (* HSV *);
         Some color_RGB_to_YUV (* YUV *);
         None (* YCbCr *);
         Some color_RGB_to_YDbDr (* YDbDr *);
         Some color_RGB_to_YIQ ];
     proxy_conversions :=
       [ COLOR_NONE (* RGB8 *);
         COLOR_NONE (* RGB *);
         COLOR_NONE (* Linear RGB *);
         COLOR_NONE (* HSL *);
         COLOR_NONE (* HSV *);
         COLOR_NONE (* YUV *);
         COLOR_YUV (* YCbCr *);
         COLOR_NONE (* YDbDr *);
         COLOR_NONE (* YIQ *);
         COLOR_LINEAR_RGB (* XYZ *);
         COLOR_LINEAR_RGB (* xyY *);
         COLOR_LINEAR_RGB (* Lab *);
         COLOR_LINEAR_RGB (* Luv *);
         COLOR_LINEAR_RGB (* LCHab *);
         COLOR_LINEAR_RGB (* LCHuv *);
         COLOR_LINEAR_RGB (* LSHuv *) ] |}.

Definition desc_LinearRGB : color_descriptor :=
  {| name := "Linear RGB";
     extract := color_LinearRGB_extract;
     conversions :=
       [ Some color_LinearRGB_to_RGB8 (* RGB8 *);
         Some color_LinearRGB_to_RGB (* RGB *);
         None (* Linear RGB *);
         None (* HSL *);
         None (* HSV *);
         None (* YUV *);
         None (* YCbCr *);
         None (* YDbDr *);
         None (* YIQ *);
         Some color_LinearRGB_to_XYZ (* XYZ *);
         None (* xyY *);
         Some color_LinearRGB_to_Lab (* Lab *) ];
     proxy_conversions :=
       [ COLOR_NONE (* RGB8 *);
         COLOR_NONE (* RGB *);
         COLOR_NONE (* Linear RGB *);
         COLOR_RGB (* HSL *);
         COLOR_RGB (* HSV *);
         COLOR_RGB (* YUV *);
         COLOR_RGB (* YCbCr *);
         COLOR_RGB (* YDbDr *);
         COLOR_RGB (* YIQ *);
         COLOR_NONE (* XYZ *);
         COLOR_XYZ (* xyY *);
         COLOR_NONE (* Lab *);
         COLOR_XYZ (* Luv *);
         COLOR_LAB (* LCHab *);
         COLOR_XYZ (* LCHuv *);
         COLOR_XYZ (* LSHuv *) ] |}.

Definition desc_HSL : color_descriptor :=
  {| name := "HSL";
     extract := color_HSL_extract;
     conversions :=
       [ None (* RGB8 *);
         Some color_HSL_to_RGB (* RGB *) ];
     proxy_conversions :=
       [ COLOR_RGB (* RGB8 *);
         COLOR_NONE (* RGB *);
         COLOR_RGB (* Linear RGB *);
         COLOR_NONE (* HSL *);
         COLOR_RGB (* HSV *);
         COLOR_RGB (* YUV *);
         COLOR_RGB (* YCbCr *);
         COLOR_RGB (* YDbDr *);
         COLOR_RGB (* YIQ *);
         COLOR_RGB (* XYZ *);
         COLOR_RGB (* xyY *);
         COLOR_RGB (* Lab *);
         COLOR_RGB (* Luv *);
         COLOR_RGB (* LCHab *);
         COLOR_RGB (* LCHuv *);
         COLOR_RGB (* LSHuv *) ] |}.

Definition desc_HSV : color_descriptor :=
  {| name := "HSV";
     extract := color_HSV_extract;
     conversions :=
       [ None (* RGB8 *);
         Some color_HSV_to_RGB (* RGB *) ];
     proxy_conversions :=
       [ COLOR_RGB (* RGB8 *);
         COLOR_NONE (* RGB *);
         COLOR_RGB (* Linear RGB *);
         COLOR_RGB (* HSL *);
         COLOR_NONE (* HSV *);
         COLOR_RGB (* YUV *);
         COLOR_RGB (* YCbCr *);
         COLOR_RGB (* YDbDr *);
         COLOR_RGB (* YIQ *);
         COLOR_RGB (* XYZ *);
         COLOR_RGB (* xyY *);
         COLOR_RGB (* Lab *);
         COLOR_RGB (* Luv *);
         COLOR_RGB (* LCHab *);
         COLOR_RGB (* LCHuv *);
         COLOR_RGB (* LSHuv *) ] |}.

Definition desc_YUV : color_descriptor :=
  {| name := "YUV";
     extract := color_YUV_extract;
     conversions :=
       [ None (* RGB8 *);
         Some color_YUV_to_RGB (* RGB *);
         None (* Linear RGB *);
         None (* HSL *);
         None (* HSV *);
         Some color_YUV_to_YUV (* YUV *);
         Some color_YUV_to_YCbCr (* YCbCr *) ];
     proxy_conversions :=
       [ COLOR_RGB (* RGB8 *);
         COLOR_NONE (* RGB *);
         COLOR_RGB (* Linear RGB *);
         COLOR_RGB (* HSL *);
         COLOR_RGB (* HSV *);
         COLOR_NONE (* YUV *);
         COLOR_NONE (* YCbCr *);
         COLOR_RGB (* YDbDr *);
         COLOR_RGB (* YIQ *);
         COLOR_RGB (* XYZ *);
         COLOR_RGB (* xyY *);
         COLOR_RGB (* Lab *);
         COLOR_RGB (* Luv *);
         COLOR_RGB (* LCHab *);
         COLOR_RGB (* LCHuv *);
         COLOR_RGB (* LSHuv *) ] |}.

Definition desc_YCbCr : color_descriptor :=
  {| name := "YCbCr";
     extract := color_YCbCr_extract;
     conversions :=
       [ None (* RGB8 *);
         None (* RGB *);
         None (* Linear RGB *);
         None (* HSL *);
         None (* HSV *);
         Some color_YCbCr_to_YUV (* YUV *);
         Some color_YCbCr_to_YCbCr (* YCbCr *) ];
     proxy_conversions :=
       [ COLOR_YUV (* RGB8 *);
         COLOR_YUV (* RGB *);
         COLOR_YUV (* Linear RGB *);
         COLOR_YUV (* HSL *);
         COLOR_YUV (* HSV *);
         COLOR_NONE (* YUV *);
         COLOR_NONE (* YCbCr *);
         COLOR_YUV (* YDbDr *);
         COLOR_YUV (* YIQ *);
         COLOR_YUV (* XYZ *);
         COLOR_YUV (* xyY *);
         COLOR_YUV (* Lab *);
         COLOR_YUV (* Luv *);
         COLOR_YUV (* LCHab *);
         COLOR_YUV (* LCHuv *);
         COLOR_YUV (* LSHuv *) ] |}.

Definition desc_YDbDr : color_descriptor :=
  {| name := "YDbDr";
     extract := color_YDbDr_extract;
     conversions :=
       [ None (* RGB8 *);
         Some color_YDbDr_to_RGB (* RGB *);
         None (* Linear RGB *);
         None (* HSL *);
         None (* HSV *);
         None (* YUV *);
         None (* YCbCr *);
         None (* YDbDr *);
         Some color_YDbDr_to_YIQ ];
     proxy_conversions :=
       [ COLOR_RGB (* RGB8 *);
         COLOR_NONE (* RGB *);
         COLOR_RGB (* Linear RGB *);
         COLOR_RGB (* HSL *);
         COLOR_RGB (* HSV *);
         COLOR_RGB (* YUV *);
         COLOR_RGB (* YCbCr *);
         COLOR_NONE (* YDbDr *);
         COLOR_NONE (* YIQ *);
         COLOR_RGB (* XYZ *);
         COLOR_RGB (* xyY *);
         COLOR_RGB (* Lab *);
         COLOR_RGB (* Luv *);
         COLOR_RGB (* LCHab *);
         COLOR_RGB (* LCHuv *);
         COLOR_RGB (* LSHuv *) ] |}.

Definition desc_YIQ : color_descriptor :=
  {| name := "YIQ";
     extract := color_YIQ_extract;
     conversions :=
       [ None (* RGB8 *);
         Some color_YIQ_to_RGB (* RGB *);
         None (* Linear RGB *);
         None (* HSL *);
         None (* HSV *);
         None (* YUV *);
         None (* YCbCr *);
         Some color_YIQ_to_YDbDr (* YDbDr *) ];
     proxy_conversions :=
       [ COLOR_RGB (* RGB8 *);
         COLOR_NONE (* RGB *);
         COLOR_RGB (* Linear RGB *);
         COLOR_RGB (* HSL *);
         COLOR_RGB (* HSV *);
         COLOR_RGB (* YUV *);
         COLOR_RGB (* YCbCr *);
         COLOR_NONE (* YDbDr *);
         COLOR_NONE (* YIQ *);
         COLOR_RGB (* XYZ *);
         COLOR_RGB (* xyY *);
         COLOR_RGB (* Lab *);
         COLOR_RGB (* Luv *);
         COLOR_RGB (* LCHab *);
         COLOR_RGB (* LCHuv *);
         COLOR_RGB (* LSHuv *) ] |}.

Definition desc_XYZ : color_descriptor :=
  {| name := "XYZ";
     extract := color_XYZ_extract;
     conversions :=
       [ None (* RGB8 *);
         None (* RGB *);
         Some color_XYZ_to_LinearRGB (* Linear RGB *);
         None (* HSL *);
         None (* HSV *);
         None (* YUV *);
         None (* YCbCr *);
         None (* YDbDr *);
         None (* YIQ *);
         None (* XYZ *);
         Some color_XYZ_to_xyY (* xyY *);
         Some color_XYZ_to_Lab (* Lab *);
         Some color_XYZ_to_Luv (* Luv *) ];
     proxy_conversions :=
       [ COLOR_LINEAR_RGB (* RGB8 *);
         COLOR_LINEAR_RGB (* RGB *);
         COLOR_NONE (* Linear RGB *);
         COLOR_LINEAR_RGB (* HSL *);
         COLOR_LINEAR_RGB (* HSV *);
         COLOR_LINEAR_RGB (* YUV *);
         COLOR_LINEAR_RGB (* YCbCr *);
         COLOR_LINEAR_RGB (* YDbDr *);
         COLOR_LINEAR_RGB (* YIQ *);
         COLOR_NONE (* XYZ *);
         COLOR_NONE (* xyY *);
         COLOR_NONE (* Lab *);
         COLOR_NONE (* Luv *);
         COLOR_LAB (* LCHab *);
         COLOR_LUV (* LCHuv *);
         COLOR_LUV (* LSHuv *) ] |}.

Definition desc_xyY : color_descriptor :=
  {| name := "xyY";
     extract := color_xyY_extract;
     conversions :=
       [ None (* RGB8 *);
         None (* RGB *);
         None (* Linear RGB *);
         None (* HSL *);
         None (* HSV *);
         None (* YUV *);
         None (* YCbCr *);
         None (* YDbDr *);
         None (* YIQ *);
         Some color_xyY_to_XYZ (* XYZ *) ];
     proxy_conversions :=
       [ COLOR_XYZ (* RGB8 *);
         COLOR_XYZ (* RGB *);
         COLOR_XYZ (* Linear RGB *);
         COLOR_XYZ (* HSL *);
         COLOR_XYZ (* HSV *);
         COLOR_XYZ (* YUV *);
         COLOR_XYZ (* YCbCr *);
         COLOR_XYZ (* YDbDr *);
         COLOR_XYZ (* YIQ *);
         COLOR_NONE (* XYZ *);
         COLOR_NONE (* xyY *);
         COLOR_XYZ (* Lab *);
         COLOR_XYZ (* Luv *);
         COLOR_XYZ (* LCHab *);
         COLOR_XYZ (* LCHuv *);
         COLOR_XYZ (* LSHuv *) ] |}.

Definition desc_Lab : color_descriptor :=
  {| name := "Lab";
     extract := color_Lab_extract;
     conversions :=
       [ None (* RGB8 *);
         None (* RGB *);
         Some color_Lab_to_LinearRGB (* Linear RGB *);
         None (* HSL *);
         None (* HSV *);
         None (* YUV *);
         None (* YCbCr *);
         None (* YDbDr *);
         None (* YIQ *);
         Some color_Lab_to_XYZ (* XYZ *);
         None (* xyY *);
         None (* Lab *);
         None (* Luv *);
         Some color_Lab_to_LCHab (* LCHab *) ];
     proxy_conversions :=
       [ COLOR_LINEAR_RGB (* RGB8 *);
         COLOR_LINEAR_RGB (* RGB *);
         COLOR_NONE (* Linear RGB *);
         COLOR_LINEAR_RGB (* HSL *);
         COLOR_LINEAR_RGB (* HSV *);
         COLOR_LINEAR_RGB (* YUV *);
         COLOR_LINEAR_RGB (* YCbCr *);
         COLOR_LINEAR_RGB (* YDbDr *);
         COLOR_LINEAR_RGB (* YIQ *);
         COLOR_NONE (* XYZ *);
         COLOR_XYZ (* xyY *);
         COLOR_NONE (* Lab *);
         COLOR_XYZ (* Luv *);
         COLOR_NONE (* LCHab *);
         COLOR_XYZ (* LCHuv *);
         COLOR_XYZ (* LSHuv *) ] |}.

Definition desc_Luv : color_descriptor :=
  {| name := "Luv";
     extract := color_Luv_extract;
     conversions :=
       [ None (* RGB8 *);
         None (* RGB *);
         None (* Linear RGB *);
         None (* HSL *);
         None (* HSV *);
         None (* YUV *);
         None (* YCbCr *);
         None (* YDbDr *);
         None (* YIQ *);
         Some color_Luv_to_XYZ (* XYZ *);
         None (* xyY *);
         None (* Lab *);
         None (* Luv *);
         None (* LCHab *);
         Some color_Luv_to_LCHuv (* LCHuv *) ];
     proxy_conversions :=
       [ COLOR_XYZ (* RGB8 *);
         COLOR_XYZ (* RGB *);
         COLOR_XYZ (* Linear RGB *);
         COLOR_XYZ (* HSL *);
         COLOR_XYZ (* HSV *);
         COLOR_XYZ (* YUV *);
         COLOR_XYZ (* YCbCr *);
         COLOR_XYZ (* YDbDr *);
         COLOR_XYZ (* YIQ *);
         COLOR_NONE (* XYZ *);
         COLOR_XYZ (* xyY *);
         COLOR_XYZ (* Lab *);
         COLOR_NONE (* Luv *);
         COLOR_XYZ (* LCHab *);
         COLOR_NONE (* LCHuv *);
         COLOR_LCHUV (* LSHuv *) ] |}.

Definition desc_LCHab : color_descriptor :=
  {| name := "LCHab";
     extract := color_LCHab_extract;
     conversions :=
       [ None (* RGB8 *);
         None (* RGB *);
         None (* Linear RGB *);
         None (* HSL *);
         None (* HSV *);
         None (* YUV *);
         None (* YCbCr *);
         None (* YDbDr *);
         None (* YIQ *);
         None (* XYZ *);
         None (* xyY *);
         Some color_LCHab_to_Lab (* Lab *) ];
     proxy_conversions :=
       [ COLOR_LAB (* RGB8 *);
         COLOR_LAB (* RGB *);
         COLOR_LAB (* Linear RGB *);
         COLOR_LAB (* HSL *);
         COLOR_LAB (* HSV *);
         COLOR_LAB (* YUV *);
         COLOR_LAB (* YCbCr *);
         COLOR_LAB (* YDbDr *);
         COLOR_LAB (* YIQ *);
         COLOR_LAB (* XYZ *);
         COLOR_LAB (* xyY *);
         COLOR_NONE (* Lab *);
         COLOR_LAB (* Luv *);
         COLOR_NONE (* LCHab *);
         COLOR_LAB (* LCHuv *);
         COLOR_LAB (* LSHuv *) ] |}.

Definition desc_LCHuv : color_descriptor :=
  {| name := "LCHuv";
     extract := color_LCHuv_extract;
     conversions :=
       [ None (* RGB8 *);
         None (* RGB *);
         None (* Linear RGB *);
         None (* HSL *);
         None (* HSV *);
         None (* YUV *);
         None (* YCbCr *);
         None (* YDbDr *);
         None (* YIQ *);
         None (* XYZ *);
         None (* xyY *);
         None (* Lab *);
         Some color_LCHuv_to_Luv (* Luv *);
         None (* LCHab *);
         None (* LCHuv *);
         Some color_LCHuv_to_LSHuv (* LSHuv *) ];
     proxy_conversions :=
       [ COLOR_LUV (* RGB8 *);
         COLOR_LUV (* RGB *);
         COLOR_LUV (* Linear RGB *);
         COLOR_LUV (* HSL *);
         COLOR_LUV (* HSV *);
         COLOR_LUV (* YUV *);
         COLOR_LUV (* YCbCr *);
         COLOR_LUV (* YDbDr *);
         COLOR_LUV (* YIQ *);
         COLOR_LUV (* XYZ *);
         COLOR_LUV (* xyY *);
         COLOR_LUV (* Lab *);
         COLOR_NONE (* Luv *);
         COLOR_LUV (* LCHab *);
         COLOR_NONE (* LCHuv *);
         COLOR_NONE (* LSHuv *) ] |}.

Definition desc_LSHuv : color_descriptor :=
  {| name := "LSHuv";
     extract := color_LSHuv_extract;
     conversions :=
       [ None (* RGB8 *);
         None (* RGB *);
         None (* Linear RGB *);
         None (* HSL *);
         None (* HSV *);
         None (* YUV *);
         None (* YCbCr *);
         None (* YDbDr *);
         None (* YIQ *);
         None (* XYZ *);
         None (* xyY *);
         None (* Lab *);
         None (* Luv *);
         None (* LCHab *);
         Some color_LSHuv_to_LCHuv (* LCHuv *) ];
     proxy_conversions :=
       [ COLOR_LCHUV (* RGB8 *);
         COLOR_LCHUV (* RGB *);
         COLOR_LCHUV (* Linear RGB *);
         COLOR_LCHUV (* HSL *);
         COLOR_LCHUV (* HSV *);
         COLOR_LCHUV (* YUV *);
         COLOR_LCHUV (* YCbCr *);
         COLOR_LCHUV (* YDbDr *);
         COLOR_LCHUV (* YIQ *);
         COLOR_LCHUV (* XYZ *);
         COLOR_LCHUV (* xyY *);
         COLOR_LCHUV (* Lab *);
         COLOR_LCHUV (* Luv *);
         COLOR_LCHUV (* LCHab *);
         COLOR_NONE (* LCHuv *);
         COLOR_NONE (* LSHuv *) ] |}.

Definition g_descriptors : list color_descriptor :=
  [ desc_RGB8;
    desc_RGB;
    desc_LinearRGB;
    desc_HSL;
    desc_HSV;
    desc_YUV;
    desc_YCbCr;
    desc_YDbDr;
    desc_YIQ;
    desc_XYZ;
    desc_xyY;
    desc_Lab;
    desc_Luv;
    desc_LCHab;
    desc_LCHuv;
    desc_LSHuv ].

(** [desc->conversions[t - 1]]: the array has [COLOR_DUMMY_END - 1]
    entries, those after the last initialiser are NULL. *)
Definition conversion_at (desc : color_descriptor) (t : Z) : option conversion_func :=
  nth (Z.to_nat (t - 1)) (conversions desc) None.

(** [desc->proxy_conversions[t - 1]] *)
Definition proxy_at (desc : color_descriptor) (t : Z) : Z :=
  nth (Z.to_nat (t - 1)) (proxy_conversions desc) COLOR_NONE.

Definition valid_type (t : Z) : bool :=
  ((t >? COLOR_NONE) && (t <? COLOR_DUMMY_END))%Z.

(** ** [color_convert] *)

(** The body of the [while] loop. *)
Definition convert_iteration (c : color) (new_type new_extra : Z) : result color :=
  assert (valid_type (type c)) A_cur_type ;;
  match nth_error g_descriptors (Z.to_nat (type c - 1)) with
  | None => Err OutOfBounds
  | Some desc =>
      '(func, tmp_type) <-
        match conversion_at desc new_type with
        | Some func => Ok (func, new_type)
        | None =>
            let tmp_type := proxy_at desc new_type in
            assert (valid_type tmp_type) A_tmp_type ;;
            match conversion_at desc tmp_type with
            | Some func => Ok (func, tmp_type)
            | None => Err (AssertionFailed A_func)
            end
        end ;;
      c <- func c new_extra ;;
      assert (type c =? tmp_type)%Z A_reached ;;
      Ok c
  end.

(** The [while] loop; the second component counts the iterations, that is
    the edge functions called through the table. *)
Fixpoint convert_loop (fuel : nat) (c : color) (new_type new_extra : Z)
  : result (color * nat) :=
  if negb (type c =? new_type)%Z || negb (extra c =? new_extra)%Z then
    match fuel with
    | O => Err OutOfFuel
    | S fuel' =>
        c <- convert_iteration c new_type new_extra ;;
        '(c, n) <- convert_loop fuel' c new_type new_extra ;;
        Ok (c, S n)
    end
  else Ok (c, O).

Definition color_convert_hops (fuel : nat) (c : color) (new_type new_extra : Z)
  : result (color * nat) :=
  assert (valid_type new_type) A_new_type ;;
  '(c, n) <- convert_loop fuel c new_type new_extra ;;
  assert (valid_type (type c)) A_cur_type ;;
  Ok (c, n).

Definition color_convert (fuel : nat) (c : color) (new_type new_extra : Z)
  : result color :=
  '(c, _) <- color_convert_hops fuel c new_type new_extra ;;
  Ok c.

Definition color_name (t : Z) : result string :=
  assert (valid_type t) A_new_type ;;
  match nth_error g_descriptors (Z.to_nat (t - 1)) with
  | Some desc => Ok (name desc)
  | None => Err OutOfBounds
  end.

Definition color_extract_components (src : color) : result (double * double * double) :=
  assert (valid_type (type src)) A_cur_type ;;
  match nth_error g_descriptors (Z.to_nat (type src - 1)) with
  | Some desc => extract desc src
  | None => Err OutOfBounds
  end.

End Edges.

(** ** Vocabulary of the properties *)

(** The spaces whose payload is three [uint8_t]. *)
Definition byte_space (t : Z) : bool :=
  ((t =? COLOR_RGB8) || (t =? COLOR_YCBCR))%Z.

(** The union is read under the member that was last written. *)
Definition well_tagged (c : color) : Prop :=
  match data c with
  | Bytes _ _ _ => byte_space (type c) = true
  | Doubles _ _ _ => byte_space (type c) = false
  end.

Definition video_space (t : Z) : bool :=
  ((t =? COLOR_YUV) || (t =? COLOR_YCBCR))%Z.

(** The flag bits that mean something in a space: the matrix selector for
    YUV, the matrix selector and the range bit for YCbCr, none elsewhere. *)
Definition meaningful_mask (t : Z) : Z :=
  if (t =? COLOR_YUV)%Z then COLOR_YUV_MAT_MASK
  else if (t =? COLOR_YCBCR)%Z then Z.lor COLOR_YUV_MAT_MASK COLOR_YCBCR_FULL_RANGE
  else 0%Z.

(** Applicable flags: one of the four matrices for YUV, a matrix and a
    range for YCbCr, zero elsewhere.  The masks are 3, 7 and 0, so the flags
    within the mask are those from 0 up to it. *)
Definition flags_applicable (t e : Z) : bool :=
  ((0 <=? e) && (e <=? meaningful_mask t))%Z.

(** The flags a caller can select: any of the four matrices with any of the
    two ranges for a video space, zero for every other space.  This allows
    the range bit on a YUV value, where it is ignored. *)
Definition flags_defined (t e : Z) : bool :=
  ((0 <=? e) &&
   (e <=? (if video_space t
           then Z.lor COLOR_YUV_MAT_MASK COLOR_YCBCR_FULL_RANGE else 0)))%Z.

(** The flags byte left by the table edge from space [s] to space [d],
    called with argument [ex] on a value whose flags are [x]. *)
Definition edge_extra (s d x ex : Z) : Z :=
  if (d =? COLOR_YUV)%Z then
    if (s =? COLOR_YCBCR)%Z then
      let x' := to_uint8 (Z.land x (Z.lnot COLOR_YCBCR_FULL_RANGE)) in
      if negb (Z.land x' COLOR_YUV_MAT_MASK =? Z.land ex COLOR_YUV_MAT_MASK)%Z
      then ex else x'
    else ex
  else if (d =? COLOR_YCBCR)%Z then ex
  else if (s =? COLOR_YUV)%Z then 0%Z
  else x.

(** The hue [h] passes the assertion [idx >= 0 && idx <= 5] of
    [finish_HSL_to_RGB]. *)
Definition hue_indexable (h : double) : bool :=
  ((hue_sector h >=? 0) && (hue_sector h <=? 5))%Z.

(** The values on which no edge fails the index assertion: every value of
    a space other than HSL and HSV, and the HSL and HSV values whose
    saturation is zero (the hue is not read) or whose hue is indexable. *)
Definition hue_safe (c : color) : bool :=
  if ((type c =? COLOR_HSL) || (type c =? COLOR_HSV))%Z then
    match data c with
    | Doubles H S_ _ => negb (fabs S_ >? 0.0) || hue_indexable H
    | Bytes _ _ _ => true
    end
  else true.

(** The hues clear of the rounding of [h + 6.0] up to 6.0: nonnegative, or
    at most [-2^-50]; those of [[-2^-51, 0)] give the index 6. *)
Definition hue_clear (h : double) : Prop :=
  h <= - (1 # 1125899906842624) \/ 0 <= h.

(** What an edge from [s] to [d] guarantees on every well-tagged, hue-safe
    value of space [s]; a self-edge is called with flags that differ. *)
Definition edge_ok (s d : Z) (f : conversion_func) : Prop :=
  forall c ex,
    well_tagged c -> type c = s -> (s = d -> extra c <> ex) ->
    hue_safe c = true ->
    exists c', f c ex = Ok c' /\ well_tagged c' /\ type c' = d /\
               extra c' = edge_extra s d (extra c) ex.

(** An edge never trips the entry assertion of [color_YUV_to_YUV], provided
    a self-edge is called with flags that differ. *)
Definition edge_pre_safe (s d : Z) (f : conversion_func) : Prop :=
  forall c ex,
    (s = d -> extra c <> ex) ->
    f c ex <> Err (AssertionFailed A_YUV_to_YUV_pre).

Section Routing.

Context {M : MathLib}.

(** [desc->conversions[d - 1] != NULL] for the descriptor of [s]. *)
Definition has_edge (s d : Z) : bool :=
  match nth_error g_descriptors (Z.to_nat (s - 1)) with
  | Some desc => match conversion_at desc d with Some _ => true | None => false end
  | None => false
  end.

Definition proxy_of (s d : Z) : Z :=
  match nth_error g_descriptors (Z.to_nat (s - 1)) with
  | Some desc => proxy_at desc d
  | None => COLOR_NONE
  end.

(** One iteration of the loop, on the tag and the flags alone. *)
Definition route_step (s x new_type new_extra : Z) : option (Z * Z) :=
  if valid_type s then
    let d := if has_edge s new_type then new_type else proxy_of s new_type in
    if valid_type d && has_edge s d && negb ((s =? d) && (x =? new_extra))%Z
    then Some (d, edge_extra s d x new_extra)
    else None
  else None.

(** The loop on the tag and the flags alone, with the number of hops. *)
Fixpoint route (fuel : nat) (s x new_type new_extra : Z) : option (Z * Z * nat) :=
  if negb (s =? new_type)%Z || negb (x =? new_extra)%Z then
    match fuel with
    | O => None
    | S fuel' =>
        match route_step s x new_type new_extra with
        | Some (s', x') =>
            match route fuel' s' x' new_type new_extra with
            | Some (r, n) => Some (r, S n)
            | None => None
            end
        | None => None
        end
    end
  else Some (s, x, O).

(** Every (space, flags) pair with defined flags. *)
Definition all_shapes : list (Z * Z) :=
  flat_map (fun t => map (fun e => (t, e))
                         (filter (flags_defined t) (map Z.of_nat (seq 0 8))))
           (map Z.of_nat (seq 1 16)).

Definition route_reaches (bound : nat) (src dst : Z * Z) : bool :=
  match route bound (fst src) (snd src) (fst dst) (snd dst) with
  | Some (t, e, n) => ((t =? fst dst) && (e =? snd dst))%Z && (n <=? bound)%nat
  | None => false
  end.

End Routing.

(** ** Reference formulas

    The formulas the properties compare the code with, written as the
    specification states them. *)

(** The RGB reconstructed from a Rec.601 YUV triple. *)
Definition rec601_yuv_to_rgb (yuv : double * double * double) : double * double * double :=
  let '(Y, U, V) := yuv in
  (Y + V * (701/615),
   Y + U * (-25251/63983) + V * (-209599/361005),
   Y + U * (443/218)).

(** The Rec.709 matrix applied to an RGB triple. *)
Definition rec709_rgb_to_yuv (rgb : double * double * double) : double * double * double :=
  let '(R, G, B) := rgb in
  (R * 0.2126 + G * 0.7152 + B * 0.0722,
   R * (-115867/1159750) + G * (-194892/579875) + B * 0.436,
   R * 0.615 + G * (-54981/98425) + B * (-44403/787400)).

(** The sRGB transfer functions as the standard writes them. *)
Definition srgb_decode {M : MathLib} (c : double) : double :=
  if c >? 0.0031308 * 12.92 then pow ((c + 0.055) / 1.055) 2.4 else c / 12.92.

Definition srgb_encode {M : MathLib} (c : double) : double :=
  if c >? 0.0031308 then 1.055 * pow c (1 / 2.4) - 0.055 else 12.92 * c.

(** Equality of payloads up to equality of rationals. *)
Definition payload_eq (p q : payload) : Prop :=
  match p, q with
  | Doubles a b d, Doubles a' b' d' => a == a' /\ b == b' /\ d == d'
  | Bytes a b d, Bytes a' b' d' => a = a' /\ b = b' /\ d = d'
  | _, _ => False
  end.

Definition color_eq (c c' : color) : Prop :=
  type c = type c' /\ extra c = extra c' /\ payload_eq (data c) (data c').

(** LinearRGB to Lab in two hops, through XYZ. *)
Definition LinearRGB_to_Lab_via_XYZ {M : MathLib} (c : color) (ex : Z) : result color :=
  c <- color_LinearRGB_to_XYZ c ex ;;
  color_XYZ_to_Lab c ex.

(** A sample implementation of the [<math.h>] interface, used to run the
    conversions on concrete values.  The routing does not depend on it. *)
Definition sample_math : MathLib :=
  {| pow := fun x _ => x;
     sqrt := fun x => x;
     atan2 := fun y _ => y;
     cos := fun _ => 1;
     sin := fun x => x;
     pow_proper := fun x x' Hx _ _ _ => Hx |}.

(** ** Sample values *)

Definition rgb8_red : color :=
  {| type := COLOR_RGB8; extra := 0; data := Bytes 255 0 0 |}.

Definition rgb_gray : color :=
  {| type := COLOR_RGB; extra := 0; data := Doubles 0.5 0.5 0.5 |}.

Definition yuv_sample : color :=
  {| type := COLOR_YUV; extra := COLOR_YUV_MAT_REC601; data := Doubles 0.5 0.4 0 |}.

Definition ycbcr_black : color :=
  {| type := COLOR_YCBCR; extra := 0; data := Bytes 16 128 128 |}.

Definition hops_of (r : result (color * nat)) : option nat :=
  match r with
  | Ok (_, n) => Some n
  | Err _ => None
  end.

(** ** Reference formulas for the cylindrical spaces *)

(** The value [h2] of [finish_HSL_to_RGB]: the triangular wave
    1 - |h mod 2 - 1| as the code computes it. *)
Definition hue_wave (h : double) : double :=
  let absh := fabs h in
  let h2 :=
    if absh >=? 2.0 then floor (h * 0.5) * -2.0 + h - 1.0
    else if h <? 0.0 then h + 1.0
    else h - 1.0 in
  1.0 - fabs h2.

(** The textbook conversion of a hue in [0, 6) (a negative hue is taken one
    turn up), a chroma [C] and an offset [m] to RGB, sector by sector. *)
Definition hue_rgb_reference (h C m : double) : double * double * double :=
  let h' := if h <? 0 then h + 6 else h in
  if h' <? 1 then (C + m, C * h' + m, m)
  else if h' <? 2 then (C * (2 - h') + m, C + m, m)
  else if h' <? 3 then (m, C + m, C * (h' - 2) + m)
  else if h' <? 4 then (m, C * (4 - h') + m, C + m)
  else if h' <? 5 then (C * (h' - 4) + m, m, C + m)
  else (C + m, m, C * (6 - h') + m).

(** The maximum and the minimum of three channels as the RGB to HSL and
    RGB to HSV edges compute them. *)
Definition rgb_max (R G B : double) : double :=
  let max := if R >? G then R else G in
  if B >? max then B else max.

Definition rgb_min (R G B : double) : double :=
  let min := if R <? G then R else G in
  if B <? min then B else min.

(** The hue the RGB to HSL and RGB to HSV edges compute when the
    channels are not all equal. *)
Definition rgb_hue (R G B : double) : double :=
  let max := rgb_max R G B in
  let delta := max - rgb_min R G B in
  if max ==? R then (G - B) / delta
  else if max ==? G then (B - R) / delta + 2.0
  else (R - G) / delta + 4.0.

(** Rounding to the nearest of the codes 0..255 with saturation: what a
    channel [x], nominally in [0, 1], is stored as. *)
Definition nearest_code (x : double) (code : Z) : Prop :=
  (x <= 0 -> code = 0%Z) /\
  (1 <= x -> code = 255%Z) /\
  (0 <= x <= 1 ->
   (0 <= code <= 255)%Z /\ - (1#2) <= inject_Z code - x * 255 <= 1#2).

(** ** More sample values *)

Definition rgb_sample : color :=
  {| type := COLOR_RGB; extra := 0; data := Doubles 0.75 0.5 0.25 |}.

Definition rgb8_gray : color :=
  {| type := COLOR_RGB8; extra := 0; data := Bytes 128 128 128 |}.

(** The HSV value the edge from RGB computes for the RGB triple
    (1, 0, 1e-17): hue -1e-17, full saturation, full value. *)
Definition rgb_near_red : color :=
  {| type := COLOR_RGB; extra := 0; data := Doubles 1 0 1e-17 |}.

Definition hsv_near_red : color :=
  {| type := COLOR_HSV; extra := 0; data := Doubles (-1e-17) 1 1 |}.


Definition xyz_sample : color :=
  {| type := COLOR_XYZ; extra := 0; data := Doubles (1 # 200) (1 # 200) (1 # 200) |}.

(** * Properties *)

(** ** Arithmetic helpers *)

Lemma dlt_true (a b : double) : (a <? b) = true <-> a < b.
Proof.
  unfold dlt. rewrite negb_true_iff, <- not_true_iff_false, Qle_bool_iff.
  split; [apply Qnot_le_lt | apply Qlt_not_le].
Qed.

Lemma dlt_false (a b : double) : (a <? b) = false <-> b <= a.
Proof.
  unfold dlt. rewrite negb_false_iff. apply Qle_bool_iff.
Qed.

Lemma dle_true (a b : double) : (a <=? b) = true <-> a <= b.
Proof. apply Qle_bool_iff. Qed.

Lemma dle_false (a b : double) : (a <=? b) = false <-> b < a.
Proof.
  unfold dle. rewrite <- not_true_iff_false, Qle_bool_iff.
  split; [apply Qnot_le_lt | apply Qlt_not_le].
Qed.

Lemma trunc_nonneg (x : double) : 0 <= x -> trunc x = Qfloor x.
Proof.
  destruct x as [n d]. unfold trunc, Qfloor, Qle. cbn.
  intros H. apply Z.quot_div_nonneg; lia.
Qed.

Lemma trunc_range (x : double) (lo hi : Z) :
  (0 <= lo)%Z -> inject_Z lo <= x -> x < inject_Z (hi + 1) ->
  (lo <= trunc x <= hi)%Z.
Proof.
  intros Hlo Hl Hh.
  assert (H0 : 0 <= x).
  { apply Qle_trans with (inject_Z lo); [|exact Hl].
    change 0 with (inject_Z 0). rewrite <- Zle_Qle. exact Hlo. }
  rewrite (trunc_nonneg x H0). split.
  - rewrite <- (Qfloor_Z lo). apply Qfloor_resp_le. exact Hl.
  - assert (H : inject_Z (Qfloor x) < inject_Z (hi + 1)).
    { apply Qle_lt_trans with x; [apply Qfloor_le | exact Hh]. }
    rewrite <- Zlt_Qlt in H. lia.
Qed.

(** Division by a literal becomes multiplication by its inverse. *)
Ltac qconst := unfold Qdiv in *; cbn [Qinv Qnum Qden] in *.

Lemma inject_Z_sub (a b : Z) : inject_Z (a - b) = inject_Z a - inject_Z b.
Proof.
  unfold Z.sub, Qminus. rewrite inject_Z_plus, inject_Z_opp. reflexivity.
Qed.

Lemma round_half_even_below (x : Q) (k : Z) :
  x < inject_Z k - (1 # 2) -> (round_half_even x <= k - 1)%Z.
Proof.
  intros H. unfold round_half_even.
  pose proof (Qfloor_le x) as Hle.
  pose proof (Qlt_floor x) as Hlt.
  rewrite inject_Z_plus in Hlt. change (inject_Z 1) with 1 in Hlt.
  assert (Hf : (Qfloor x <= k - 1)%Z).
  { assert (Ha : inject_Z (Qfloor x) < inject_Z k) by lra.
    rewrite <- Zlt_Qlt in Ha. lia. }
  destruct (Z.eq_dec (Qfloor x) (k - 1)) as [E|E].
  - assert (Hc : (Qcompare (x - inject_Z (Qfloor x)) (1 # 2)) = Lt).
    { apply (proj1 (Qlt_alt _ _)). rewrite E, inject_Z_sub. change (inject_Z 1) with 1. lra. }
    rewrite Hc. lia.
  - destruct (Qcompare (x - inject_Z (Qfloor x)) (1 # 2)); [destruct (Z.even _)| |]; lia.
Qed.

Lemma round_half_even_above (x : Q) (k : Z) :
  inject_Z k <= x -> (k <= round_half_even x)%Z.
Proof.
  intros H. unfold round_half_even.
  assert (Hf : (k <= Qfloor x)%Z).
  { rewrite <- (Qfloor_Z k). apply Qfloor_resp_le. exact H. }
  destruct (Qcompare (x - inject_Z (Qfloor x)) (1 # 2)); [destruct (Z.even _)| |]; lia.
Qed.

(** From half a unit below an even integer up to it, the nearest integer is
    that integer. *)
Lemma round_half_even_up (x : Q) (k : Z) :
  Z.even k = true -> inject_Z k - (1 # 2) <= x -> x <= inject_Z k ->
  round_half_even x = k.
Proof.
  intros Hk Hl Hu. unfold round_half_even.
  pose proof (Qfloor_le x) as Hle.
  pose proof (Qlt_floor x) as Hlt.
  rewrite inject_Z_plus in Hlt. change (inject_Z 1) with 1 in Hlt.
  assert (Hf : (k - 1 <= Qfloor x <= k)%Z).
  { assert (Ha : inject_Z (k - 1) < inject_Z (Qfloor x + 1)).
    { rewrite inject_Z_sub, inject_Z_plus. change (inject_Z 1) with 1. lra. }
    assert (Hb : inject_Z (Qfloor x) <= inject_Z k) by lra.
    rewrite <- Zlt_Qlt in Ha. rewrite <- Zle_Qle in Hb. lia. }
  destruct (Z.eq_dec (Qfloor x) k) as [E|E].
  - assert (Hc : (Qcompare (x - inject_Z (Qfloor x)) (1 # 2)) = Lt).
    { apply (proj1 (Qlt_alt _ _)). rewrite E. lra. }
    rewrite Hc. exact E.
  - assert (E' : Qfloor x = (k - 1)%Z) by lia.
    assert (Hodd : Z.even (Qfloor x) = false).
    { rewrite E'. rewrite Z.even_sub, Hk. reflexivity. }
    rewrite Hodd.
    assert (Hr : 1 # 2 <= x - inject_Z (Qfloor x)).
    { rewrite E', inject_Z_sub. change (inject_Z 1) with 1. lra. }
    destruct (Qcompare (x - inject_Z (Qfloor x)) (1 # 2)) eqn:Hc; try lia.
    apply (proj2 (Qlt_alt _ _)) in Hc. lra.
Qed.

(** Between 4 and 8 the [binary64] values are the multiples of [2^-50]. *)
Lemma b64_binade_4_8 (x : Q) :
  4 <= x -> x < 8 ->
  b64 x = inject_Z (round_half_even (x / (1 # 1125899906842624))) * (1 # 1125899906842624).
Proof.
  intros H4 H8. unfold b64.
  assert (E0 : Qeq_bool x 0 = false).
  { apply not_true_iff_false. intros E. apply Qeq_bool_iff in E. lra. }
  rewrite E0.
  assert (Ee : ilog2 x = 2%Z).
  { unfold ilog2.
    assert (Ea : Qabs x == x) by (apply Qabs_pos; lra).
    assert (E1 : Qle_bool 1 (Qabs x) = true) by (apply Qle_bool_iff; lra).
    rewrite E1. rewrite (Qfloor_comp _ _ Ea).
    pose proof (Qfloor_le x) as Hle.
    pose proof (Qlt_floor x) as Hlt.
    rewrite inject_Z_plus in Hlt. change (inject_Z 1) with 1 in Hlt.
    assert (Hf : (4 <= Qfloor x < 8)%Z).
    { split.
      - rewrite <- (Qfloor_Z 4). apply Qfloor_resp_le. exact H4.
      - assert (Ha : inject_Z (Qfloor x) < inject_Z 8) by (unfold inject_Z at 2; lra).
        rewrite <- Zlt_Qlt in Ha. exact Ha. }
    assert (Hc : (Qfloor x = 4 \/ Qfloor x = 5 \/ Qfloor x = 6 \/ Qfloor x = 7)%Z) by lia.
    destruct Hc as [-> | [-> | [-> | ->]]]; reflexivity. }
  rewrite Ee. reflexivity.
Qed.

Lemma Qfloor_eq (x : Q) (k : Z) :
  inject_Z k <= x -> x < inject_Z k + 1 -> Qfloor x = k.
Proof.
  intros Hl Hu.
  pose proof (Qfloor_le x) as H1. pose proof (Qlt_floor x) as H2.
  rewrite inject_Z_plus in H2. change (inject_Z 1) with 1 in H2.
  assert (Ha : inject_Z (Qfloor x) < inject_Z (k + 1)).
  { rewrite inject_Z_plus. change (inject_Z 1) with 1. lra. }
  assert (Hb : inject_Z k < inject_Z (Qfloor x + 1)).
  { rewrite inject_Z_plus. change (inject_Z 1) with 1. lra. }
  rewrite <- Zlt_Qlt in Ha, Hb. lia.
Qed.

(** A hue from 0 up to 6 is its own index: no operation rounds. *)
Lemma hue_sector_eq (h : double) (k : Z) :
  (0 <= k <= 5)%Z -> inject_Z k <= h -> h < inject_Z k + 1 -> hue_sector h = k.
Proof.
  intros Hk Hl Hu. unfold hue_sector, fabs.
  assert (H0 : 0 <= h).
  { apply Qle_trans with (inject_Z k); [|exact Hl].
    change 0 with (inject_Z 0). rewrite <- Zle_Qle. lia. }
  assert (H6 : h < 6).
  { apply Qlt_le_trans with (inject_Z k + 1); [exact Hu|].
    change 6 with (inject_Z 5 + 1). apply Qplus_le_l. rewrite <- Zle_Qle. lia. }
  assert (E6 : (Qabs h >=? 6.0) = false).
  { apply dle_false. rewrite Qabs_pos by exact H0. lra. }
  assert (E0 : (h <? 0.0) = false) by (apply dlt_false; lra).
  rewrite E6, E0. rewrite (trunc_nonneg h H0). apply Qfloor_eq; assumption.
Qed.

Lemma hue_sector_unit (h : double) :
  0 <= h -> h < 6 -> (0 <= hue_sector h <= 5)%Z.
Proof.
  intros H0 H6.
  pose proof (Qfloor_le h) as Hle.
  pose proof (Qlt_floor h) as Hlt.
  rewrite inject_Z_plus in Hlt. change (inject_Z 1) with 1 in Hlt.
  assert (Hf : (0 <= Qfloor h <= 5)%Z).
  { split.
    - rewrite <- (Qfloor_Z 0). apply Qfloor_resp_le. exact H0.
    - assert (Ha : inject_Z (Qfloor h) < inject_Z 6) by (unfold inject_Z at 2; lra).
      rewrite <- Zlt_Qlt in Ha. lia. }
  rewrite (hue_sector_eq h (Qfloor h)); assumption.
Qed.

(** The sum [h + 6.0] of the negative branch, as the code computes it. *)
Lemma hue_sector_below_zero (h : double) :
  -6 < h -> h < 0 -> hue_sector h = trunc (b64 (h + 6.0)).
Proof.
  intros Hl Hu. unfold hue_sector, fabs.
  assert (E6 : (Qabs h >=? 6.0) = false).
  { apply dle_false. apply Qabs_Qlt_condition. lra. }
  assert (E0 : (h <? 0.0) = true) by (apply dlt_true; lra).
  rewrite E6, E0. reflexivity.
Qed.

(** A hue from -1 up to [-2^-50] has the index 5. *)
Lemma hue_sector_negative (h : double) :
  -1 <= h -> h <= - (1 # 1125899906842624) -> hue_sector h = 5%Z.
Proof.
  intros Hl Hu. rewrite hue_sector_below_zero by lra.
  rewrite b64_binade_4_8 by lra.
  set (q := 1 # 1125899906842624) in *.
  set (n := round_half_even ((h + 6.0) / q)).
  assert (Hq : (h + 6.0) / q == (h + 6) * 1125899906842624) by (unfold q; field).
  assert (Hlo : (5 * 1125899906842624 <= n)%Z).
  { apply round_half_even_above. rewrite Hq, inject_Z_mult.
    unfold inject_Z. lra. }
  assert (Hhi : (n <= 6 * 1125899906842624 - 1)%Z).
  { apply round_half_even_below. rewrite Hq, inject_Z_mult.
    unfold q in Hu. unfold inject_Z. lra. }
  assert (H5 : 5 <= inject_Z n * q).
  { rewrite Zle_Qle, inject_Z_mult in Hlo.
    unfold q. unfold inject_Z at 1 2 in Hlo. lra. }
  assert (H6 : inject_Z n * q < 6).
  { rewrite Zle_Qle, inject_Z_sub, inject_Z_mult in Hhi.
    unfold q. unfold inject_Z at 2 3 4 in Hhi. lra. }
  rewrite trunc_nonneg by lra.
  apply Qfloor_eq; change (inject_Z 5) with 5; lra.
Qed.

(** A hue from [-2^-51] up to zero, zero excluded, has the index 6: the sum
    [h + 6.0] rounds to 6.0. *)
Lemma hue_sector_six (h : double) :
  - (1 # 2251799813685248) <= h -> h < 0 -> hue_sector h = 6%Z.
Proof.
  intros Hl Hu. rewrite hue_sector_below_zero by lra.
  rewrite b64_binade_4_8 by lra.
  assert (Hq : (h + 6.0) / (1 # 1125899906842624) == (h + 6) * 1125899906842624)
    by field.
  rewrite (round_half_even_up _ (6 * 1125899906842624)).
  - reflexivity.
  - reflexivity.
  - rewrite Hq, inject_Z_mult. unfold inject_Z. lra.
  - rewrite Hq, inject_Z_mult. unfold inject_Z. lra.
Qed.

Lemma hue_clear_indexable (h : double) :
  -1 <= h -> h < 6 -> hue_clear h -> hue_indexable h = true.
Proof.
  intros Hl Hu [Hc|Hc]; unfold hue_indexable.
  - rewrite (hue_sector_negative h Hl Hc). reflexivity.
  - pose proof (hue_sector_unit h Hc Hu) as [H0 H5].
    apply andb_true_iff. split; [apply Z.geb_le | apply Z.leb_le]; lia.
Qed.

Lemma valid_type_cases (t : Z) :
  valid_type t = true -> In t (map Z.of_nat (seq 1 16)).
Proof.
  unfold valid_type, COLOR_NONE, COLOR_DUMMY_END.
  rewrite andb_true_iff, Z.gtb_lt, Z.ltb_lt. intros [H0 H17]. cbn. lia.
Qed.

Ltac each_type H :=
  apply valid_type_cases in H; cbn in H;
  repeat (destruct H as [<-|H]); [..|contradiction].


Lemma bind_not_err (A B : Type) (r : result A) (k : A -> result B) (e : error) :
  r <> Err e -> (forall a, k a <> Err e) -> bind r k <> Err e.
Proof.
  destruct r as [a|e']; cbn; intros Hr Hk; [apply Hk | congruence].
Qed.

Lemma assert_not_err (b : bool) (a a' : assertion) :
  a <> a' -> assert b a <> Err (AssertionFailed a').
Proof.
  destruct b; cbn; congruence.
Qed.

Lemma hue_assert_ok (h : double) :
  hue_indexable h = true ->
  assert ((hue_sector h >=? 0)%Z && (hue_sector h <=? 5)%Z) A_idx = Ok tt.
Proof.
  unfold hue_indexable. intros ->. reflexivity.
Qed.

Lemma finish_HSL_to_RGB_ok (c : color) (h C m : double) :
  hue_indexable h = true ->
  exists a b d, finish_HSL_to_RGB c h C m = Ok (set_data c (Doubles a b d)).
Proof.
  intros Hh. unfold finish_HSL_to_RGB. rewrite (hue_assert_ok h Hh). cbn [bind].
  do 3 eexists. reflexivity.
Qed.

(** A hue that is not indexable stops [finish_HSL_to_RGB] on its
    assertion. *)
Lemma finish_HSL_to_RGB_abort (c : color) (h C m : double) :
  hue_indexable h = false ->
  finish_HSL_to_RGB c h C m = Err (AssertionFailed A_idx).
Proof.
  unfold finish_HSL_to_RGB, hue_indexable. intros ->. reflexivity.
Qed.

Lemma hue_safe_other (c : color) :
  type c <> COLOR_HSL -> type c <> COLOR_HSV -> hue_safe c = true.
Proof.
  intros H1 H2. unfold hue_safe.
  apply Z.eqb_neq in H1. apply Z.eqb_neq in H2. rewrite H1, H2. reflexivity.
Qed.

(** ** Every edge of the table, one by one *)

Create HintDb edges.

Section EdgeProperties.

Context {M : MathLib}.

Ltac edge_start :=
  intros [t x [a b d|a b d]] ex Hwf Ht Hpre Hsafe;
  unfold well_tagged in Hwf; cbn [type extra data] in *; subst t;
  try (cbv in Hwf; discriminate Hwf).

Ltac edge_unfold f :=
  unfold f;
  cbn [bind assert_type assert type extra data get_doubles get_bytes set_type set_data
       Z.eqb Pos.eqb
       COLOR_RGB8 COLOR_RGB COLOR_LINEAR_RGB COLOR_HSL COLOR_HSV COLOR_YUV COLOR_YCBCR
       COLOR_YDBDR COLOR_YIQ COLOR_XYZ COLOR_XYY COLOR_LAB COLOR_LUV COLOR_LCHAB
       COLOR_LCHUV COLOR_LSHUV].

Ltac edge_finish := eexists; split; [reflexivity | repeat split; reflexivity].

Ltac split_branch :=
  match goal with
  | |- context [if ?b then Ok _ else Ok _] => destruct b
  | |- context [match (if ?b then _ else _) with pair _ _ => _ end] => destruct b
  end.

Ltac simple_edge f :=
  edge_start; edge_unfold f; repeat split_branch; edge_finish.

Ltac simple_safe f :=
  intros [t x [a b d|a b d]] ex _; unfold f, assert_type, assert;
  cbn [type extra data];
  match goal with |- context [(t =? ?k)%Z] => destruct (t =? k)%Z end;
  cbn [bind get_doubles get_bytes data];
  repeat split_branch;
  discriminate.

Lemma color_RGB8_to_RGB_ok : edge_ok COLOR_RGB8 COLOR_RGB color_RGB8_to_RGB.
Proof. simple_edge (@color_RGB8_to_RGB). Qed.

Lemma color_RGB8_to_RGB_safe : edge_pre_safe COLOR_RGB8 COLOR_RGB color_RGB8_to_RGB.
Proof. simple_safe (@color_RGB8_to_RGB). Qed.

Lemma color_RGB8_to_LinearRGB_ok : edge_ok COLOR_RGB8 COLOR_LINEAR_RGB color_RGB8_to_LinearRGB.
Proof. simple_edge (@color_RGB8_to_LinearRGB). Qed.

Lemma color_RGB8_to_LinearRGB_safe : edge_pre_safe COLOR_RGB8 COLOR_LINEAR_RGB color_RGB8_to_LinearRGB.
Proof. simple_safe (@color_RGB8_to_LinearRGB). Qed.

Lemma color_RGB_to_RGB8_ok : edge_ok COLOR_RGB COLOR_RGB8 color_RGB_to_RGB8.
Proof. simple_edge (@color_RGB_to_RGB8). Qed.

Lemma color_RGB_to_RGB8_safe : edge_pre_safe COLOR_RGB COLOR_RGB8 color_RGB_to_RGB8.
Proof. simple_safe (@color_RGB_to_RGB8). Qed.

Lemma color_RGB_to_LinearRGB_ok : edge_ok COLOR_RGB COLOR_LINEAR_RGB color_RGB_to_LinearRGB.
Proof. simple_edge (@color_RGB_to_LinearRGB). Qed.

Lemma color_RGB_to_LinearRGB_safe : edge_pre_safe COLOR_RGB COLOR_LINEAR_RGB color_RGB_to_LinearRGB.
Proof. simple_safe (@color_RGB_to_LinearRGB). Qed.

Lemma color_RGB_to_HSL_ok : edge_ok COLOR_RGB COLOR_HSL color_RGB_to_HSL.
Proof. simple_edge (@color_RGB_to_HSL). Qed.

Lemma color_RGB_to_HSL_safe : edge_pre_safe COLOR_RGB COLOR_HSL color_RGB_to_HSL.
Proof. simple_safe (@color_RGB_to_HSL). Qed.

Lemma color_RGB_to_HSV_ok : edge_ok COLOR_RGB COLOR_HSV color_RGB_to_HSV.
Proof. simple_edge (@color_RGB_to_HSV). Qed.

Lemma color_RGB_to_HSV_safe : edge_pre_safe COLOR_RGB COLOR_HSV color_RGB_to_HSV.
Proof. simple_safe (@color_RGB_to_HSV). Qed.

Lemma color_RGB_to_YUV_ok : edge_ok COLOR_RGB COLOR_YUV color_RGB_to_YUV.
Proof. simple_edge (@color_RGB_to_YUV). Qed.

Lemma color_RGB_to_YUV_safe : edge_pre_safe COLOR_RGB COLOR_YUV color_RGB_to_YUV.
Proof. simple_safe (@color_RGB_to_YUV). Qed.

Lemma color_RGB_to_YDbDr_ok : edge_ok COLOR_RGB COLOR_YDBDR color_RGB_to_YDbDr.
Proof. simple_edge (@color_RGB_to_YDbDr). Qed.

Lemma color_RGB_to_YDbDr_safe : edge_pre_safe COLOR_RGB COLOR_YDBDR color_RGB_to_YDbDr.
Proof. simple_safe (@color_RGB_to_YDbDr). Qed.

Lemma color_RGB_to_YIQ_ok : edge_ok COLOR_RGB COLOR_YIQ color_RGB_to_YIQ.
Proof. simple_edge (@color_RGB_to_YIQ). Qed.

Lemma color_RGB_to_YIQ_safe : edge_pre_safe COLOR_RGB COLOR_YIQ color_RGB_to_YIQ.
Proof. simple_safe (@color_RGB_to_YIQ). Qed.

Lemma color_LinearRGB_to_RGB8_ok : edge_ok COLOR_LINEAR_RGB COLOR_RGB8 color_LinearRGB_to_RGB8.
Proof. simple_edge (@color_LinearRGB_to_RGB8). Qed.

Lemma color_LinearRGB_to_RGB8_safe : edge_pre_safe COLOR_LINEAR_RGB COLOR_RGB8 color_LinearRGB_to_RGB8.
Proof. simple_safe (@color_LinearRGB_to_RGB8). Qed.

Lemma color_LinearRGB_to_RGB_ok : edge_ok COLOR_LINEAR_RGB COLOR_RGB color_LinearRGB_to_RGB.
Proof. simple_edge (@color_LinearRGB_to_RGB). Qed.

Lemma color_LinearRGB_to_RGB_safe : edge_pre_safe COLOR_LINEAR_RGB COLOR_RGB color_LinearRGB_to_RGB.
Proof. simple_safe (@color_LinearRGB_to_RGB). Qed.

Lemma color_LinearRGB_to_XYZ_ok : edge_ok COLOR_LINEAR_RGB COLOR_XYZ color_LinearRGB_to_XYZ.
Proof. simple_edge (@color_LinearRGB_to_XYZ). Qed.

Lemma color_LinearRGB_to_XYZ_safe : edge_pre_safe COLOR_LINEAR_RGB COLOR_XYZ color_LinearRGB_to_XYZ.
Proof. simple_safe (@color_LinearRGB_to_XYZ). Qed.

Lemma color_LinearRGB_to_Lab_ok : edge_ok COLOR_LINEAR_RGB COLOR_LAB color_LinearRGB_to_Lab.
Proof. simple_edge (@color_LinearRGB_to_Lab). Qed.

Lemma color_LinearRGB_to_Lab_safe : edge_pre_safe COLOR_LINEAR_RGB COLOR_LAB color_LinearRGB_to_Lab.
Proof. simple_safe (@color_LinearRGB_to_Lab). Qed.

Lemma color_YUV_to_RGB_ok : edge_ok COLOR_YUV COLOR_RGB color_YUV_to_RGB.
Proof. simple_edge (@color_YUV_to_RGB). Qed.

Lemma color_YUV_to_RGB_safe : edge_pre_safe COLOR_YUV COLOR_RGB color_YUV_to_RGB.
Proof. simple_safe (@color_YUV_to_RGB). Qed.

Lemma color_YDbDr_to_RGB_ok : edge_ok COLOR_YDBDR COLOR_RGB color_YDbDr_to_RGB.
Proof. simple_edge (@color_YDbDr_to_RGB). Qed.

Lemma color_YDbDr_to_RGB_safe : edge_pre_safe COLOR_YDBDR COLOR_RGB color_YDbDr_to_RGB.
Proof. simple_safe (@color_YDbDr_to_RGB). Qed.

Lemma color_YDbDr_to_YIQ_ok : edge_ok COLOR_YDBDR COLOR_YIQ color_YDbDr_to_YIQ.
Proof. simple_edge (@color_YDbDr_to_YIQ). Qed.

Lemma color_YDbDr_to_YIQ_safe : edge_pre_safe COLOR_YDBDR COLOR_YIQ color_YDbDr_to_YIQ.
Proof. simple_safe (@color_YDbDr_to_YIQ). Qed.

Lemma color_YIQ_to_RGB_ok : edge_ok COLOR_YIQ COLOR_RGB color_YIQ_to_RGB.
Proof. simple_edge (@color_YIQ_to_RGB). Qed.

Lemma color_YIQ_to_RGB_safe : edge_pre_safe COLOR_YIQ COLOR_RGB color_YIQ_to_RGB.
Proof. simple_safe (@color_YIQ_to_RGB). Qed.

Lemma color_YIQ_to_YDbDr_ok : edge_ok COLOR_YIQ COLOR_YDBDR color_YIQ_to_YDbDr.
Proof. simple_edge (@color_YIQ_to_YDbDr). Qed.

Lemma color_YIQ_to_YDbDr_safe : edge_pre_safe COLOR_YIQ COLOR_YDBDR color_YIQ_to_YDbDr.
Proof. simple_safe (@color_YIQ_to_YDbDr). Qed.

Lemma color_XYZ_to_LinearRGB_ok : edge_ok COLOR_XYZ COLOR_LINEAR_RGB color_XYZ_to_LinearRGB.
Proof. simple_edge (@color_XYZ_to_LinearRGB). Qed.

Lemma color_XYZ_to_LinearRGB_safe : edge_pre_safe COLOR_XYZ COLOR_LINEAR_RGB color_XYZ_to_LinearRGB.
Proof. simple_safe (@color_XYZ_to_LinearRGB). Qed.

Lemma color_XYZ_to_xyY_ok : edge_ok COLOR_XYZ COLOR_XYY color_XYZ_to_xyY.
Proof. simple_edge (@color_XYZ_to_xyY). Qed.

Lemma color_XYZ_to_xyY_safe : edge_pre_safe COLOR_XYZ COLOR_XYY color_XYZ_to_xyY.
Proof. simple_safe (@color_XYZ_to_xyY). Qed.

Lemma color_XYZ_to_Lab_ok : edge_ok COLOR_XYZ COLOR_LAB color_XYZ_to_Lab.
Proof. simple_edge (@color_XYZ_to_Lab). Qed.

Lemma color_XYZ_to_Lab_safe : edge_pre_safe COLOR_XYZ COLOR_LAB color_XYZ_to_Lab.
Proof. simple_safe (@color_XYZ_to_Lab). Qed.

Lemma color_XYZ_to_Luv_ok : edge_ok COLOR_XYZ COLOR_LUV color_XYZ_to_Luv.
Proof. simple_edge (@color_XYZ_to_Luv). Qed.

Lemma color_XYZ_to_Luv_safe : edge_pre_safe COLOR_XYZ COLOR_LUV color_XYZ_to_Luv.
Proof. simple_safe (@color_XYZ_to_Luv). Qed.

Lemma color_xyY_to_XYZ_ok : edge_ok COLOR_XYY COLOR_XYZ color_xyY_to_XYZ.
Proof. simple_edge (@color_xyY_to_XYZ). Qed.

Lemma color_xyY_to_XYZ_safe : edge_pre_safe COLOR_XYY COLOR_XYZ color_xyY_to_XYZ.
Proof. simple_safe (@color_xyY_to_XYZ). Qed.

Lemma color_Lab_to_LinearRGB_ok : edge_ok COLOR_LAB COLOR_LINEAR_RGB color_Lab_to_LinearRGB.
Proof. simple_edge (@color_Lab_to_LinearRGB). Qed.

Lemma color_Lab_to_LinearRGB_safe : edge_pre_safe COLOR_LAB COLOR_LINEAR_RGB color_Lab_to_LinearRGB.
Proof. simple_safe (@color_Lab_to_LinearRGB). Qed.

Lemma color_Lab_to_XYZ_ok : edge_ok COLOR_LAB COLOR_XYZ color_Lab_to_XYZ.
Proof. simple_edge (@color_Lab_to_XYZ). Qed.

Lemma color_Lab_to_XYZ_safe : edge_pre_safe COLOR_LAB COLOR_XYZ color_Lab_to_XYZ.
Proof. simple_safe (@color_Lab_to_XYZ). Qed.

Lemma color_Lab_to_LCHab_ok : edge_ok COLOR_LAB COLOR_LCHAB color_Lab_to_LCHab.
Proof. simple_edge (@color_Lab_to_LCHab). Qed.

Lemma color_Lab_to_LCHab_safe : edge_pre_safe COLOR_LAB COLOR_LCHAB color_Lab_to_LCHab.
Proof. simple_safe (@color_Lab_to_LCHab). Qed.

Lemma color_LCHab_to_Lab_ok : edge_ok COLOR_LCHAB COLOR_LAB color_LCHab_to_Lab.
Proof. simple_edge (@color_LCHab_to_Lab). Qed.

Lemma color_LCHab_to_Lab_safe : edge_pre_safe COLOR_LCHAB COLOR_LAB color_LCHab_to_Lab.
Proof. simple_safe (@color_LCHab_to_Lab). Qed.

Lemma color_Luv_to_XYZ_ok : edge_ok COLOR_LUV COLOR_XYZ color_Luv_to_XYZ.
Proof. simple_edge (@color_Luv_to_XYZ). Qed.

Lemma color_Luv_to_XYZ_safe : edge_pre_safe COLOR_LUV COLOR_XYZ color_Luv_to_XYZ.
Proof. simple_safe (@color_Luv_to_XYZ). Qed.

Lemma color_LCHuv_to_LSHuv_ok : edge_ok COLOR_LCHUV COLOR_LSHUV color_LCHuv_to_LSHuv.
Proof. simple_edge (@color_LCHuv_to_LSHuv). Qed.

Lemma color_LCHuv_to_LSHuv_safe : edge_pre_safe COLOR_LCHUV COLOR_LSHUV color_LCHuv_to_LSHuv.
Proof. simple_safe (@color_LCHuv_to_LSHuv). Qed.

Lemma color_LSHuv_to_LCHuv_ok : edge_ok COLOR_LSHUV COLOR_LCHUV color_LSHuv_to_LCHuv.
Proof. simple_edge (@color_LSHuv_to_LCHuv). Qed.

Lemma color_LSHuv_to_LCHuv_safe : edge_pre_safe COLOR_LSHUV COLOR_LCHUV color_LSHuv_to_LCHuv.
Proof. simple_safe (@color_LSHuv_to_LCHuv). Qed.

(** The edges that call other edges. *)

Ltac open_color c Hwf Ht :=
  destruct c as [?t ?x [?a ?b ?d|?a ?b ?d]];
  unfold well_tagged in Hwf; cbn [type extra data] in *; subst;
  try (cbv in Hwf; discriminate Hwf).

Lemma color_HSL_to_RGB_ok : edge_ok COLOR_HSL COLOR_RGB color_HSL_to_RGB.
Proof.
  edge_start. edge_unfold color_HSL_to_RGB.
  unfold hue_safe in Hsafe. cbn in Hsafe.
  match goal with |- context [if ?b then _ else _] => destruct b end;
    [|edge_finish].
  cbn [negb orb] in Hsafe.
  match goal with |- context [finish_HSL_to_RGB ?c ?h ?C ?m] =>
    destruct (finish_HSL_to_RGB_ok c h C m Hsafe) as (p & q & r & E) end.
  rewrite E. edge_finish.
Qed.

(** On a value that is not hue-safe the edge stops on the index
    assertion. *)
Lemma color_HSL_to_RGB_abort (c : color) (ex : Z) :
  type c = COLOR_HSL -> hue_safe c = false ->
  color_HSL_to_RGB c ex = Err (AssertionFailed A_idx).
Proof.
  destruct c as [t x [a b d|a b d]]; cbn [type]; intros -> Hsafe;
    unfold hue_safe in Hsafe; cbn in Hsafe; [|discriminate Hsafe].
  apply orb_false_iff in Hsafe. destruct Hsafe as [HS Hh].
  apply negb_false_iff in HS.
  edge_unfold color_HSL_to_RGB. rewrite HS.
  apply finish_HSL_to_RGB_abort, Hh.
Qed.

Lemma color_HSL_to_RGB_safe : edge_pre_safe COLOR_HSL COLOR_RGB color_HSL_to_RGB.
Proof.
  intros [t x [a b d|a b d]] ex _; unfold color_HSL_to_RGB, assert_type, assert;
    cbn [type extra data];
    (destruct (t =? COLOR_HSL)%Z; cbn [bind get_doubles data]; [|discriminate]);
    [|discriminate].
  match goal with |- context [if ?b then _ else _] => destruct b end;
    [|discriminate].
  match goal with |- context [finish_HSL_to_RGB ?c ?h ?C ?m] =>
    destruct (hue_indexable h) eqn:Hh;
    [destruct (finish_HSL_to_RGB_ok c h C m Hh) as (p & q & r & E)
    |pose proof (finish_HSL_to_RGB_abort c h C m Hh) as E] end;
    rewrite E; discriminate.
Qed.

Lemma color_HSV_to_RGB_ok : edge_ok COLOR_HSV COLOR_RGB color_HSV_to_RGB.
Proof.
  edge_start. edge_unfold color_HSV_to_RGB.
  unfold hue_safe in Hsafe. cbn in Hsafe.
  match goal with |- context [if ?b then _ else _] => destruct b end;
    [|edge_finish].
  cbn [negb orb] in Hsafe.
  match goal with |- context [finish_HSL_to_RGB ?c ?h ?C ?m] =>
    destruct (finish_HSL_to_RGB_ok c h C m Hsafe) as (p & q & r & E) end.
  rewrite E. edge_finish.
Qed.

(** On a value that is not hue-safe the edge stops on the index
    assertion. *)
Lemma color_HSV_to_RGB_abort (c : color) (ex : Z) :
  type c = COLOR_HSV -> hue_safe c = false ->
  color_HSV_to_RGB c ex = Err (AssertionFailed A_idx).
Proof.
  destruct c as [t x [a b d|a b d]]; cbn [type]; intros -> Hsafe;
    unfold hue_safe in Hsafe; cbn in Hsafe; [|discriminate Hsafe].
  apply orb_false_iff in Hsafe. destruct Hsafe as [HS Hh].
  apply negb_false_iff in HS.
  edge_unfold color_HSV_to_RGB. rewrite HS.
  apply finish_HSL_to_RGB_abort, Hh.
Qed.

Lemma color_HSV_to_RGB_safe : edge_pre_safe COLOR_HSV COLOR_RGB color_HSV_to_RGB.
Proof.
  intros [t x [a b d|a b d]] ex _; unfold color_HSV_to_RGB, assert_type, assert;
    cbn [type extra data];
    (destruct (t =? COLOR_HSV)%Z; cbn [bind get_doubles data]; [|discriminate]);
    [|discriminate].
  match goal with |- context [if ?b then _ else _] => destruct b end;
    [|discriminate].
  match goal with |- context [finish_HSL_to_RGB ?c ?h ?C ?m] =>
    destruct (hue_indexable h) eqn:Hh;
    [destruct (finish_HSL_to_RGB_ok c h C m Hh) as (p & q & r & E)
    |pose proof (finish_HSL_to_RGB_abort c h C m Hh) as E] end;
    rewrite E; discriminate.
Qed.

Lemma color_YUV_to_YUV_ok : edge_ok COLOR_YUV COLOR_YUV color_YUV_to_YUV.
Proof.
  edge_start. specialize (Hpre eq_refl). apply Z.eqb_neq in Hpre.
  edge_unfold color_YUV_to_YUV. rewrite Hpre.
  edge_unfold color_YUV_to_RGB. edge_unfold color_RGB_to_YUV.
  cbn [negb]. rewrite Z.eqb_refl. edge_finish.
Qed.

Lemma color_YUV_to_YUV_safe : edge_pre_safe COLOR_YUV COLOR_YUV color_YUV_to_YUV.
Proof.
  intros c ex Hpre. specialize (Hpre eq_refl). apply Z.eqb_neq in Hpre.
  unfold color_YUV_to_YUV. rewrite Hpre. cbn [negb assert].
  apply bind_not_err; [apply assert_not_err; discriminate|]. intros _.
  cbn [bind].
  apply bind_not_err; [apply color_YUV_to_RGB_safe; discriminate|]. intros c1.
  apply bind_not_err; [apply color_RGB_to_YUV_safe; discriminate|]. intros c2.
  apply bind_not_err; [apply assert_not_err; discriminate | discriminate].
Qed.

Lemma mask_differs (x ex : Z) :
  negb (Z.land x COLOR_YUV_MAT_MASK =? Z.land ex COLOR_YUV_MAT_MASK)%Z = true ->
  x <> ex.
Proof.
  intros H E. subst. rewrite Z.eqb_refl in H. discriminate.
Qed.

Lemma color_YUV_to_YCbCr_ok : edge_ok COLOR_YUV COLOR_YCBCR color_YUV_to_YCbCr.
Proof.
  intros c ex Hwf Ht _ Hsafe. unfold color_YUV_to_YCbCr, assert_type.
  rewrite Ht, Z.eqb_refl. cbn [assert bind].
  assert (Hc : exists c1, (if negb (Z.land (extra c) COLOR_YUV_MAT_MASK
                                    =? Z.land ex COLOR_YUV_MAT_MASK)%Z
                           then color_YUV_to_YUV c ex else Ok c) = Ok c1
                          /\ well_tagged c1 /\ type c1 = COLOR_YUV).
  { destruct (negb _) eqn:E.
    - destruct (color_YUV_to_YUV_ok c ex Hwf Ht) as (c1 & E1 & W1 & T1 & _).
      { intros _. apply mask_differs, E. }
      { exact Hsafe. }
      exists c1. auto.
    - exists c. auto. }
  destruct Hc as (c1 & E1 & W1 & T1). rewrite E1. cbn [bind].
  open_color c1 W1 T1. cbn [get_doubles data bind].
  destruct (negb (Z.land ex COLOR_YCBCR_FULL_RANGE =? 0)%Z); edge_finish.
Qed.

Lemma color_YUV_to_YCbCr_safe : edge_pre_safe COLOR_YUV COLOR_YCBCR color_YUV_to_YCbCr.
Proof.
  intros c ex _. unfold color_YUV_to_YCbCr.
  apply bind_not_err; [apply assert_not_err; discriminate|]. intros _.
  apply bind_not_err.
  - destruct (negb _) eqn:E; [|discriminate].
    apply color_YUV_to_YUV_safe. intros _. apply mask_differs, E.
  - intros c1. apply bind_not_err.
    + unfold get_doubles. destruct (data c1); discriminate.
    + intros [[Y U] V].
      destruct (negb (Z.land ex COLOR_YCBCR_FULL_RANGE =? 0)%Z); discriminate.
Qed.

Lemma color_YCbCr_to_YUV_ok : edge_ok COLOR_YCBCR COLOR_YUV color_YCbCr_to_YUV.
Proof.
  edge_start. clear Hpre. edge_unfold color_YCbCr_to_YUV.
  destruct (negb (Z.land x COLOR_YCBCR_FULL_RANGE =? 0)%Z);
    cbn [type extra data];
    unfold edge_extra; cbn [Z.eqb Pos.eqb COLOR_YUV COLOR_YCBCR];
    (destruct (negb _) eqn:E; [|edge_finish]);
    match goal with |- context [color_YUV_to_YUV ?c ex] =>
      destruct (@color_YUV_to_YUV_ok c ex) as (c1 & E1 & W1 & T1 & X1);
        [reflexivity | reflexivity | intros _; apply mask_differs, E | reflexivity |]
    end;
    rewrite E1; exists c1; repeat split; assumption.
Qed.

Lemma color_YCbCr_to_YUV_safe : edge_pre_safe COLOR_YCBCR COLOR_YUV color_YCbCr_to_YUV.
Proof.
  intros c ex _. unfold color_YCbCr_to_YUV.
  apply bind_not_err; [apply assert_not_err; discriminate|]. intros _.
  apply bind_not_err; [unfold get_bytes; destruct (data c); discriminate|].
  intros [[y cb] cr].
  destruct (negb (Z.land (extra c) COLOR_YCBCR_FULL_RANGE =? 0)%Z);
    cbn [type extra data];
    (destruct (negb _) eqn:E; [|discriminate]);
    apply color_YUV_to_YUV_safe; intros _; apply mask_differs, E.
Qed.

Lemma color_YCbCr_to_YCbCr_ok : edge_ok COLOR_YCBCR COLOR_YCBCR color_YCbCr_to_YCbCr.
Proof.
  intros c ex Hwf Ht Hpre Hsafe. specialize (Hpre eq_refl). apply Z.eqb_neq in Hpre.
  unfold color_YCbCr_to_YCbCr, assert_type.
  rewrite Ht, Z.eqb_refl, Hpre. cbn [negb assert bind].
  destruct (color_YCbCr_to_YUV_ok c ex Hwf Ht) as (c1 & E1 & W1 & T1 & _);
    [discriminate | exact Hsafe |].
  rewrite E1. cbn [bind].
  destruct (color_YUV_to_YCbCr_ok c1 ex W1 T1) as (c2 & E2 & W2 & T2 & X2);
    [discriminate | apply hue_safe_other; rewrite T1; discriminate |].
  rewrite E2. cbn [bind].
  change (edge_extra COLOR_YUV COLOR_YCBCR (extra c1) ex) with ex in X2.
  rewrite X2, Z.eqb_refl. cbn [assert bind].
  exists c2. repeat split; assumption.
Qed.

Lemma color_YCbCr_to_YCbCr_safe :
  edge_pre_safe COLOR_YCBCR COLOR_YCBCR color_YCbCr_to_YCbCr.
Proof.
  intros c ex _. unfold color_YCbCr_to_YCbCr.
  apply bind_not_err; [apply assert_not_err; discriminate|]. intros _.
  apply bind_not_err; [apply assert_not_err; discriminate|]. intros _.
  apply bind_not_err; [apply color_YCbCr_to_YUV_safe; discriminate|]. intros c1.
  apply bind_not_err; [apply color_YUV_to_YCbCr_safe; discriminate|]. intros c2.
  apply bind_not_err; [apply assert_not_err; discriminate | discriminate].
Qed.

Lemma color_Luv_to_LCHuv_ok : edge_ok COLOR_LUV COLOR_LCHUV color_Luv_to_LCHuv.
Proof.
  edge_start. edge_unfold (@color_Luv_to_LCHuv). edge_unfold (@color_Lab_to_LCHab).
  edge_finish.
Qed.

Lemma color_Luv_to_LCHuv_safe : edge_pre_safe COLOR_LUV COLOR_LCHUV color_Luv_to_LCHuv.
Proof.
  intros c ex _. unfold color_Luv_to_LCHuv.
  apply bind_not_err; [apply assert_not_err; discriminate|]. intros _.
  apply bind_not_err; [apply color_Lab_to_LCHab_safe; discriminate | discriminate].
Qed.

Lemma color_LCHuv_to_Luv_ok : edge_ok COLOR_LCHUV COLOR_LUV color_LCHuv_to_Luv.
Proof.
  edge_start. edge_unfold (@color_LCHuv_to_Luv). edge_unfold (@color_LCHab_to_Lab).
  edge_finish.
Qed.

Lemma color_LCHuv_to_Luv_safe : edge_pre_safe COLOR_LCHUV COLOR_LUV color_LCHuv_to_Luv.
Proof.
  intros c ex _. unfold color_LCHuv_to_Luv.
  apply bind_not_err; [apply assert_not_err; discriminate|]. intros _.
  apply bind_not_err; [apply color_LCHab_to_Lab_safe; discriminate | discriminate].
Qed.

#[local] Hint Resolve
  color_RGB8_to_RGB_ok
  color_RGB8_to_RGB_safe
  color_RGB8_to_LinearRGB_ok
  color_RGB8_to_LinearRGB_safe
  color_RGB_to_RGB8_ok
  color_RGB_to_RGB8_safe
  color_RGB_to_LinearRGB_ok
  color_RGB_to_LinearRGB_safe
  color_RGB_to_HSL_ok
  color_RGB_to_HSL_safe
  color_RGB_to_HSV_ok
  color_RGB_to_HSV_safe
  color_RGB_to_YUV_ok
  color_RGB_to_YUV_safe
  color_RGB_to_YDbDr_ok
  color_RGB_to_YDbDr_safe
  color_RGB_to_YIQ_ok
  color_RGB_to_YIQ_safe
  color_LinearRGB_to_RGB8_ok
  color_LinearRGB_to_RGB8_safe
  color_LinearRGB_to_RGB_ok
  color_LinearRGB_to_RGB_safe
  color_LinearRGB_to_XYZ_ok
  color_LinearRGB_to_XYZ_safe
  color_LinearRGB_to_Lab_ok
  color_LinearRGB_to_Lab_safe
  color_YUV_to_RGB_ok
  color_YUV_to_RGB_safe
  color_YDbDr_to_RGB_ok
  color_YDbDr_to_RGB_safe
  color_YDbDr_to_YIQ_ok
  color_YDbDr_to_YIQ_safe
  color_YIQ_to_RGB_ok
  color_YIQ_to_RGB_safe
  color_YIQ_to_YDbDr_ok
  color_YIQ_to_YDbDr_safe
  color_XYZ_to_LinearRGB_ok
  color_XYZ_to_LinearRGB_safe
  color_XYZ_to_xyY_ok
  color_XYZ_to_xyY_safe
  color_XYZ_to_Lab_ok
  color_XYZ_to_Lab_safe
  color_XYZ_to_Luv_ok
  color_XYZ_to_Luv_safe
  color_xyY_to_XYZ_ok
  color_xyY_to_XYZ_safe
  color_Lab_to_LinearRGB_ok
  color_Lab_to_LinearRGB_safe
  color_Lab_to_XYZ_ok
  color_Lab_to_XYZ_safe
  color_Lab_to_LCHab_ok
  color_Lab_to_LCHab_safe
  color_LCHab_to_Lab_ok
  color_LCHab_to_Lab_safe
  color_Luv_to_XYZ_ok
  color_Luv_to_XYZ_safe
  color_LCHuv_to_LSHuv_ok
  color_LCHuv_to_LSHuv_safe
  color_LSHuv_to_LCHuv_ok
  color_LSHuv_to_LCHuv_safe
  color_HSL_to_RGB_ok
  color_HSL_to_RGB_safe
  color_HSV_to_RGB_ok
  color_HSV_to_RGB_safe
  color_YUV_to_YUV_ok
  color_YUV_to_YUV_safe
  color_YUV_to_YCbCr_ok
  color_YUV_to_YCbCr_safe
  color_YCbCr_to_YUV_ok
  color_YCbCr_to_YUV_safe
  color_YCbCr_to_YCbCr_ok
  color_YCbCr_to_YCbCr_safe
  color_Luv_to_LCHuv_ok
  color_Luv_to_LCHuv_safe
  color_LCHuv_to_Luv_ok
  color_LCHuv_to_Luv_safe
  : edges.

(** ** The table and the loop *)

Lemma table_edges (s d : Z) (desc : color_descriptor) (f : conversion_func) :
  valid_type s = true -> valid_type d = true ->
  nth_error g_descriptors (Z.to_nat (s - 1)) = Some desc ->
  conversion_at desc d = Some f ->
  edge_ok s d f /\ edge_pre_safe s d f.
Proof.
  intros Hs Hd Hdesc Hf. unfold conversion_at in Hf.
  each_type Hs; simpl in Hdesc; injection Hdesc as <-;
    each_type Hd; simpl in Hf;
    first [discriminate Hf | injection Hf as <-; split; auto with edges].
Qed.

Lemma proxy_not_self (s d : Z) :
  valid_type s = true -> valid_type d = true -> proxy_of s d <> s.
Proof.
  intros Hs Hd. each_type Hs; each_type Hd; vm_compute; discriminate.
Qed.


(** No proxy entry names HSL or HSV: the two spaces are left and entered by
    their edges with RGB only, as the first or the last hop of a route. *)
Lemma proxy_not_cylindrical (s d : Z) :
  valid_type s = true -> valid_type d = true ->
  proxy_of s d <> COLOR_HSL /\ proxy_of s d <> COLOR_HSV.
Proof.
  intros Hs Hd. each_type Hs; each_type Hd; split; vm_compute; discriminate.
Qed.

Lemma hue_unsafe_type (c : color) :
  hue_safe c = false -> type c = COLOR_HSL \/ type c = COLOR_HSV.
Proof.
  unfold hue_safe.
  destruct (type c =? COLOR_HSL)%Z eqn:E1; [apply Z.eqb_eq in E1; auto|].
  destruct (type c =? COLOR_HSV)%Z eqn:E2; [apply Z.eqb_eq in E2; auto|].
  discriminate.
Qed.

Lemma eqb_pair_differ (s d x e : Z) :
  negb ((s =? d) && (x =? e))%Z = true -> s = d -> x <> e.
Proof.
  intros H Hs Hx. subst d e. rewrite !Z.eqb_refl in H. discriminate.
Qed.

(** One iteration of the loop follows [route_step]. *)
Lemma convert_iteration_route (c : color) (nt ne d x' : Z) :
  well_tagged c -> hue_safe c = true ->
  route_step (type c) (extra c) nt ne = Some (d, x') ->
  exists c', convert_iteration c nt ne = Ok c' /\
             well_tagged c' /\ type c' = d /\ extra c' = x'.
Proof.
  intros Hwf Hsafe. unfold route_step, convert_iteration, has_edge, proxy_of.
  destruct (valid_type (type c)) eqn:Hs; [|discriminate].
  cbn [assert bind].
  destruct (nth_error g_descriptors (Z.to_nat (type c - 1))) as [desc|] eqn:Hdesc.
  2:{ rewrite andb_false_r. discriminate. }
  assert (Hstep : forall t f,
             valid_type t = true -> conversion_at desc t = Some f ->
             negb ((type c =? t) && (extra c =? ne))%Z = true ->
             exists c', (c1 <- f c ne ;; assert (type c1 =? t)%Z A_reached ;; Ok c1) = Ok c'
                        /\ well_tagged c' /\ type c' = t
                        /\ extra c' = edge_extra (type c) t (extra c) ne).
  { intros t f Ht Hf Hne.
    destruct (table_edges (type c) t desc f Hs Ht Hdesc Hf) as [Hok _].
    destruct (Hok c ne Hwf eq_refl (eqb_pair_differ _ _ _ _ Hne) Hsafe)
      as (c' & E & W & T & X).
    exists c'. rewrite E. cbn [bind]. rewrite T, Z.eqb_refl. cbn. auto. }
  destruct (conversion_at desc nt) as [f|] eqn:Hf.
  - rewrite Hf.
    destruct (valid_type nt) eqn:Hnt; [|discriminate].
    cbn [andb bind]. destruct (negb _) eqn:Hne; [|discriminate].
    intros [= <- <-]. apply (Hstep nt f Hnt Hf Hne).
  - destruct (valid_type (proxy_at desc nt)) eqn:Hp; [|discriminate].
    cbn [andb assert bind].
    destruct (conversion_at desc (proxy_at desc nt)) as [f|] eqn:Hf'; [|discriminate].
    cbn [andb bind]. destruct (negb _) eqn:Hne; [|discriminate].
    intros [= <- <-]. apply (Hstep _ f Hp Hf' Hne).
Qed.

(** On a value that is not hue-safe an iteration stops on an assertion:
    the index assertion inside the edge to RGB, or, when the value already
    has the requested type, the assertion on the proxy. *)
Lemma convert_iteration_unsafe (c : color) (nt ne : Z) :
  hue_safe c = false -> valid_type nt = true ->
  convert_iteration c nt ne
  = Err (AssertionFailed (if (type c =? nt)%Z then A_tmp_type else A_idx)).
Proof.
  intros Hsafe Hnt.
  destruct (hue_unsafe_type c Hsafe) as [Ht|Ht].
  - pose proof (fun ex => color_HSL_to_RGB_abort c ex Ht Hsafe) as Hab.
    destruct c as [t x p]. cbn [type] in *. subst t.
    each_type Hnt;
      first
        [ reflexivity
        | match goal with
          | |- convert_iteration ?c ?t ?e = _ =>
              change (convert_iteration c t e)
                with (c1 <- color_HSL_to_RGB c e ;;
                      assert (type c1 =? COLOR_RGB)%Z A_reached ;; Ok c1)
          end; rewrite Hab; reflexivity ].
  - pose proof (fun ex => color_HSV_to_RGB_abort c ex Ht Hsafe) as Hab.
    destruct c as [t x p]. cbn [type] in *. subst t.
    each_type Hnt;
      first
        [ reflexivity
        | match goal with
          | |- convert_iteration ?c ?t ?e = _ =>
              change (convert_iteration c t e)
                with (c1 <- color_HSV_to_RGB c e ;;
                      assert (type c1 =? COLOR_RGB)%Z A_reached ;; Ok c1)
          end; rewrite Hab; reflexivity ].
Qed.

(** A route enters HSL or HSV only as its target. *)
Lemma route_step_cylindrical (s x nt ne d x' : Z) :
  valid_type nt = true ->
  route_step s x nt ne = Some (d, x') ->
  d = COLOR_HSL \/ d = COLOR_HSV -> d = nt.
Proof.
  intros Hnt. unfold route_step.
  destruct (valid_type s) eqn:Hs; [|discriminate].
  destruct (has_edge s nt) eqn:He.
  - destruct (_ && _ && _); [|discriminate]. intros [= <- _] _. reflexivity.
  - destruct (_ && _ && _); [|discriminate]. intros [= <- _] Hd.
    destruct (proxy_not_cylindrical s nt Hs Hnt) as [H1 H2].
    destruct Hd; contradiction.
Qed.

(** From an HSL or HSV value that already has the requested type there is
    no route: neither an edge nor a proxy. *)
Lemma route_step_cylindrical_self (c : color) (ne : Z) :
  hue_safe c = false -> route_step (type c) (extra c) (type c) ne = None.
Proof.
  intros Hsafe. destruct (hue_unsafe_type c Hsafe) as [-> | ->]; reflexivity.
Qed.

(** The loop follows [route], from a value that is hue-safe or already has
    the requested type. *)
Lemma convert_loop_route (fuel : nat) :
  forall (c : color) (nt ne t e : Z) (n : nat),
    well_tagged c -> valid_type nt = true ->
    hue_safe c = true \/ type c = nt ->
    route fuel (type c) (extra c) nt ne = Some (t, e, n) ->
    exists c', convert_loop fuel c nt ne = Ok (c', n) /\
               well_tagged c' /\ type c' = t /\ extra c' = e.
Proof.
  induction fuel as [|fuel IH]; intros c nt ne t e n Hwf Hnt Hc;
    cbn [route convert_loop];
    destruct (negb (type c =? nt)%Z || negb (extra c =? ne)%Z).
  - discriminate.
  - intros [= <- <- <-]. exists c. auto.
  - destruct (route_step (type c) (extra c) nt ne) as [[d x']|] eqn:Hstep;
      [|discriminate].
    assert (Hsafe : hue_safe c = true).
    { destruct Hc as [Hc|Hc]; [exact Hc|].
      destruct (hue_safe c) eqn:Hs; [reflexivity|].
      rewrite <- Hc, (route_step_cylindrical_self c ne Hs) in Hstep.
      discriminate. }
    destruct (convert_iteration_route c nt ne d x' Hwf Hsafe Hstep)
      as (c1 & E1 & W1 & T1 & X1).
    rewrite E1. cbn [bind]. rewrite <- T1, <- X1.
    destruct (route fuel (type c1) (extra c1) nt ne) as [[[t' e'] n']|] eqn:Hr;
      [|discriminate].
    intros [= <- <- <-].
    assert (Hc1 : hue_safe c1 = true \/ type c1 = nt).
    { destruct (hue_safe c1) eqn:Hs; [left; reflexivity|right].
      rewrite T1. apply (route_step_cylindrical _ _ _ _ _ _ Hnt Hstep).
      rewrite <- T1. apply hue_unsafe_type, Hs. }
    destruct (IH c1 nt ne t' e' n' W1 Hnt Hc1 Hr) as (c2 & E2 & W2 & T2 & X2).
    rewrite E2. cbn [bind]. exists c2. auto.
  - intros [= <- <- <-]. exists c. auto.
Qed.

(** More fuel does not change a finished run. *)
Lemma convert_loop_more_fuel (fuel : nat) :
  forall (c : color) (nt ne : Z) (r : color * nat) (extra_fuel : nat),
    convert_loop fuel c nt ne = Ok r ->
    convert_loop (fuel + extra_fuel) c nt ne = Ok r.
Proof.
  induction fuel as [|fuel IH]; intros c nt ne r k; cbn [convert_loop Nat.add].
  - destruct (negb (type c =? nt)%Z || negb (extra c =? ne)%Z) eqn:E;
      [discriminate|].
    intros H. destruct k; cbn [convert_loop]; rewrite E; exact H.
  - destruct (negb (type c =? nt)%Z || negb (extra c =? ne)%Z); [|auto].
    destruct (convert_iteration c nt ne) as [c1|]; cbn [bind]; [|discriminate].
    destruct (convert_loop fuel c1 nt ne) as [[c2 n]|] eqn:E; [|discriminate].
    rewrite (IH c1 nt ne (c2, n) k E). auto.
Qed.

(** Every pair of shapes with applicable flags is routed within seven hops. *)
Lemma all_routes_reach :
  forallb (fun src => forallb (route_reaches 7 src) all_shapes) all_shapes = true.
Proof. vm_compute. reflexivity. Qed.


Lemma defined_in_shapes (t e : Z) :
  valid_type t = true -> flags_defined t e = true -> In (t, e) all_shapes.
Proof.
  intros Ht He. unfold flags_defined in He.
  unfold COLOR_YUV_MAT_MASK, COLOR_YCBCR_FULL_RANGE in He.
  apply andb_true_iff in He. destruct He as [H0 Hm].
  apply Z.leb_le in H0. apply Z.leb_le in Hm.
  each_type Ht; cbn in Hm;
    (assert (He : (e = 0 \/ e = 1 \/ e = 2 \/ e = 3 \/
                   e = 4 \/ e = 5 \/ e = 6 \/ e = 7)%Z) by lia);
    repeat (destruct He as [He|He]); subst e;
    first [lia | vm_compute; tauto].
Qed.

Lemma convert_loop_done (fuel : nat) (c : color) (nt ne : Z) :
  type c = nt -> extra c = ne -> convert_loop fuel c nt ne = Ok (c, O).
Proof.
  intros Ht He. subst nt ne.
  destruct fuel; cbn [convert_loop]; rewrite !Z.eqb_refl; reflexivity.
Qed.

Lemma loop_guard_differ (c : color) (nt ne : Z) :
  negb (type c =? nt)%Z || negb (extra c =? ne)%Z = true ->
  type c = nt -> extra c <> ne.
Proof.
  intros H Ht He. subst nt ne. rewrite !Z.eqb_refl in H. discriminate.
Qed.

(** The loop never calls [color_YUV_to_YUV] with unchanged flags. *)
Lemma convert_iteration_pre_safe (c : color) (nt ne : Z) :
  negb (type c =? nt)%Z || negb (extra c =? ne)%Z = true ->
  valid_type nt = true ->
  convert_iteration c nt ne <> Err (AssertionFailed A_YUV_to_YUV_pre).
Proof.
  intros Hg Hnt. unfold convert_iteration.
  destruct (valid_type (type c)) eqn:Hs; cbn [assert bind]; [|discriminate].
  destruct (nth_error g_descriptors (Z.to_nat (type c - 1))) as [desc|] eqn:Hdesc;
    [|discriminate].
  assert (Hcall : forall t f,
             valid_type t = true -> conversion_at desc t = Some f ->
             (type c = t -> extra c <> ne) ->
             (c1 <- f c ne ;; assert (type c1 =? t)%Z A_reached ;; Ok c1)
             <> Err (AssertionFailed A_YUV_to_YUV_pre)).
  { intros t f Ht Hf Hpre.
    destruct (table_edges (type c) t desc f Hs Ht Hdesc Hf) as [_ Hsafe].
    apply bind_not_err; [apply Hsafe, Hpre|]. intros c1.
    apply bind_not_err; [apply assert_not_err; discriminate | discriminate]. }
  destruct (conversion_at desc nt) as [f|] eqn:Hf; cbn [bind].
  - apply (Hcall nt f Hnt Hf). apply loop_guard_differ, Hg.
  - destruct (valid_type (proxy_at desc nt)) eqn:Hp; cbn [assert bind]; [|discriminate].
    destruct (conversion_at desc (proxy_at desc nt)) as [f|] eqn:Hf';
      cbn [bind]; [|discriminate].
    apply (Hcall _ f Hp Hf'). intros Heq. exfalso.
    apply (proxy_not_self (type c) nt Hs Hnt).
    unfold proxy_of. rewrite Hdesc. symmetry. exact Heq.
Qed.

Lemma convert_loop_pre_safe (fuel : nat) :
  forall (c : color) (nt ne : Z),
    valid_type nt = true ->
    convert_loop fuel c nt ne <> Err (AssertionFailed A_YUV_to_YUV_pre).
Proof.
  induction fuel as [|fuel IH]; intros c nt ne Hnt; cbn [convert_loop];
    destruct (negb (type c =? nt)%Z || negb (extra c =? ne)%Z) eqn:Hg;
    try discriminate.
  apply bind_not_err; [apply convert_iteration_pre_safe; assumption|].
  intros c1. apply bind_not_err; [apply IH, Hnt|].
  intros [c2 n]. discriminate.
Qed.

(** A conversion between shapes with defined flags, from a value that is
    hue-safe or already has the requested type, ends within seven
    iterations, at the requested tag and flags. *)
Lemma convert_defined (c : color) (nt ne : Z) :
  well_tagged c ->
  valid_type (type c) = true -> flags_defined (type c) (extra c) = true ->
  valid_type nt = true -> flags_defined nt ne = true ->
  hue_safe c = true \/ type c = nt ->
  exists c' n,
    (n <= 7)%nat /\ well_tagged c' /\ type c' = nt /\ extra c' = ne /\
    forall fuel, (7 <= fuel)%nat -> color_convert_hops fuel c nt ne = Ok (c', n).
Proof.
  intros Hwf Hs Hx Hnt Hne Hc.
  pose proof all_routes_reach as Hall.
  rewrite forallb_forall in Hall.
  specialize (Hall _ (defined_in_shapes _ _ Hs Hx)).
  rewrite forallb_forall in Hall.
  specialize (Hall _ (defined_in_shapes _ _ Hnt Hne)).
  unfold route_reaches in Hall. cbn [fst snd] in Hall.
  destruct (route 7 (type c) (extra c) nt ne) as [[[t e] n]|] eqn:Hr;
    [|discriminate].
  rewrite !andb_true_iff in Hall. destruct Hall as [[Ht He] Hn].
  apply Z.eqb_eq in Ht. apply Z.eqb_eq in He. apply Nat.leb_le in Hn. subst t e.
  destruct (convert_loop_route 7 c nt ne nt ne n Hwf Hnt Hc Hr) as (c' & E & W & T & X).
  exists c', n. repeat split; try assumption.
  intros fuel Hfuel. unfold color_convert_hops. rewrite Hnt. cbn [assert bind].
  replace fuel with (7 + (fuel - 7))%nat by lia.
  rewrite (convert_loop_more_fuel 7 c nt ne (c', n) (fuel - 7) E).
  cbn [bind]. rewrite T, Hnt. reflexivity.
Qed.

(** From a value that is not hue-safe, a conversion to another space stops
    in its first iteration, on the index assertion of
    [finish_HSL_to_RGB]. *)
Lemma convert_unsafe_aborts (fuel : nat) (c : color) (nt ne : Z) :
  hue_safe c = false -> valid_type nt = true -> type c <> nt ->
  color_convert_hops (S fuel) c nt ne = Err (AssertionFailed A_idx).
Proof.
  intros Hsafe Hnt Hd. unfold color_convert_hops. rewrite Hnt.
  cbn [assert bind convert_loop].
  rewrite (convert_iteration_unsafe c nt ne Hsafe Hnt).
  apply Z.eqb_neq in Hd. rewrite Hd. reflexivity.
Qed.

(** The test [fabs(x) > 0.0] fails exactly on zero. *)
Lemma fabs_positive_false (x : double) : (fabs x >? 0.0) = false <-> x == 0.
Proof.
  rewrite dlt_false. unfold fabs. split; intros H.
  - apply Qabs_Qle_condition in H. lra.
  - rewrite H. cbn. lra.
Qed.

Lemma fabs_positive_true (x : double) : ~ x == 0 -> (fabs x >? 0.0) = true.
Proof.
  intros H. destruct (fabs x >? 0.0) eqn:E; [reflexivity|].
  apply fabs_positive_false in E. contradiction.
Qed.

(** An HSL or HSV value with a hue from -1 up to 6 that is clear of the
    rounding window is hue-safe: these are the hues the edges from RGB
    compute, the window apart. *)
Lemma hue_clear_safe (t e : Z) (H S_ V : double) :
  -1 <= H -> H < 6 -> hue_clear H ->
  hue_safe {| type := t; extra := e; data := Doubles H S_ V |} = true.
Proof.
  intros Hl Hu Hc. unfold hue_safe. cbn [type data].
  rewrite (hue_clear_indexable H Hl Hu Hc), orb_true_r.
  destruct (_ || _); reflexivity.
Qed.

(** An HSL or HSV value with nonzero saturation and a hue in the rounding
    window is not hue-safe. *)
Lemma hue_window_unsafe (t e : Z) (H S_ V : double) :
  t = COLOR_HSL \/ t = COLOR_HSV ->
  - (1 # 2251799813685248) <= H -> H < 0 -> ~ S_ == 0 ->
  hue_safe {| type := t; extra := e; data := Doubles H S_ V |} = false.
Proof.
  intros Ht Hl Hu HS. unfold hue_safe, hue_indexable. cbn [type data].
  rewrite (fabs_positive_true S_ HS), (hue_sector_six H Hl Hu).
  destruct Ht as [-> | ->]; reflexivity.
Qed.

End EdgeProperties.

(** * The routing engine *)

Section RoutingClaims.

Context {M : MathLib}.

(** Outside the defect of C1 the driver is total: for every well-tagged
    value of a valid space that is hue-safe or already has the requested
    type, and every valid target space, with source and target flags among
    the four matrices and two ranges for a video space and zero for any
    other space, [color_convert] terminates (seven iterations of fuel
    suffice) without a failed assertion, and the value it leaves has the
    requested type and the requested extra byte. *)
Lemma color_convert_total (c : color) (new_type new_extra : Z) :
  well_tagged c ->
  valid_type (type c) = true -> flags_defined (type c) (extra c) = true ->
  valid_type new_type = true -> flags_defined new_type new_extra = true ->
  hue_safe c = true \/ type c = new_type ->
  exists c',
    (forall fuel, (7 <= fuel)%nat -> color_convert fuel c new_type new_extra = Ok c') /\
    type c' = new_type /\ extra c' = new_extra.
Proof.
  intros Hwf Hs Hx Hnt Hne Hc.
  destruct (convert_defined c new_type new_extra Hwf Hs Hx Hnt Hne Hc)
    as (c' & n & _ & _ & T & X & Hrun).
  exists c'. repeat split; try assumption.
  intros fuel Hfuel. unfold color_convert. rewrite (Hrun fuel Hfuel). reflexivity.
Qed.

(** C1 (defect of the code).  [color_convert] does not return on every
    valid input: on an HSL or HSV value with nonzero saturation whose hue
    lies in [[-2^-51, 0)], converted to any other space, the sum [h + 6.0]
    of [finish_HSL_to_RGB] rounds to 6.0, the index is 6 and the assertion
    [idx >= 0 && idx <= 5] fails in the first iteration, whatever the
    fuel. *)
Theorem hue_rounding_aborts
  (fuel : nat) (t e new_type new_extra : Z) (H S_ V : double) :
  t = COLOR_HSL \/ t = COLOR_HSV ->
  - (1 # 2251799813685248) <= H -> H < 0 -> ~ S_ == 0 ->
  valid_type new_type = true -> t <> new_type ->
  color_convert (S fuel) {| type := t; extra := e; data := Doubles H S_ V |}
    new_type new_extra
  = Err (AssertionFailed A_idx).
Proof.
  intros Ht Hl Hu HS Hnt Hd.
  pose proof (hue_window_unsafe t e H S_ V Ht Hl Hu HS) as Hsafe.
  unfold color_convert.
  rewrite (convert_unsafe_aborts fuel _ new_type new_extra Hsafe Hnt Hd).
  reflexivity.
Qed.

(** C2 (amended).  For every well-tagged value of a valid space and every
    valid target space, with source and target flags among the four matrices
    and two ranges for a video space and zero for any other space, the loop
    of [color_convert] calls at most seven edge functions through the table:
    from a value that is hue-safe or already has the requested type it
    returns after at most seven iterations; from any other value it stops
    inside its first edge, on the index assertion of C1. *)
Theorem color_convert_hops_bound (c : color) (new_type new_extra : Z) :
  well_tagged c ->
  valid_type (type c) = true -> flags_defined (type c) (extra c) = true ->
  valid_type new_type = true -> flags_defined new_type new_extra = true ->
  (hue_safe c = true \/ type c = new_type ->
   exists c' n,
     (forall fuel, (7 <= fuel)%nat ->
                   color_convert_hops fuel c new_type new_extra = Ok (c', n)) /\
     (n <= 7)%nat) /\
  (hue_safe c = false -> type c <> new_type ->
   forall fuel, color_convert_hops (S fuel) c new_type new_extra
                = Err (AssertionFailed A_idx)).
Proof.
  intros Hwf Hs Hx Hnt Hne. split.
  - intros Hc.
    destruct (convert_defined c new_type new_extra Hwf Hs Hx Hnt Hne Hc)
      as (c' & n & Hn & _ & _ & _ & Hrun).
    exists c', n. split; assumption.
  - intros Hsafe Hd fuel. apply convert_unsafe_aborts; assumption.
Qed.

(** From YCbCr to LSHuv the loop makes seven hops, whatever [<math.h>] is. *)
Lemma ycbcr_to_lshuv_seven_hops :
  exists c', color_convert_hops 7 ycbcr_black COLOR_LSHUV 0 = Ok (c', 7%nat).
Proof.
  assert (Hr : route 7 (type ycbcr_black) (extra ycbcr_black) COLOR_LSHUV 0
               = Some (COLOR_LSHUV, 0%Z, 7%nat)) by (vm_compute; reflexivity).
  destruct (convert_loop_route 7 ycbcr_black COLOR_LSHUV 0 _ _ _
              eq_refl eq_refl (or_introl eq_refl) Hr)
    as (c' & E & _ & T & _).
  exists c'. unfold color_convert_hops. cbn [valid_type assert bind].
  change (valid_type COLOR_LSHUV) with true. cbn [assert bind].
  rewrite E. cbn [bind]. rewrite T. reflexivity.
Qed.

(** C4.  A value that already has the requested type and flags is returned
    unchanged after zero iterations of the loop, for any fuel: no function
    of the table, in particular no self-edge, is called. *)
Theorem color_convert_noop (fuel : nat) (c : color) (new_type new_extra : Z) :
  valid_type new_type = true ->
  type c = new_type -> extra c = new_extra ->
  color_convert_hops fuel c new_type new_extra = Ok (c, 0%nat) /\
  color_convert fuel c new_type new_extra = Ok c.
Proof.
  intros Hnt Ht Hx.
  assert (H : color_convert_hops fuel c new_type new_extra = Ok (c, 0%nat)).
  { unfold color_convert_hops. rewrite Hnt. cbn [assert bind].
    rewrite (convert_loop_done fuel c new_type new_extra Ht Hx). cbn [bind].
    rewrite Ht, Hnt. reflexivity. }
  split; [exact H|]. unfold color_convert. rewrite H. reflexivity.
Qed.

Lemma color_convert_pre_safe (fuel : nat) (c : color) (new_type new_extra : Z) :
  color_convert fuel c new_type new_extra <> Err (AssertionFailed A_YUV_to_YUV_pre).
Proof.
  unfold color_convert, color_convert_hops.
  destruct (valid_type new_type) eqn:Hnt; cbn [assert bind]; [|discriminate].
  apply bind_not_err; [|intros [c' n]; discriminate].
  apply bind_not_err; [apply convert_loop_pre_safe, Hnt|].
  intros [c' n]. apply bind_not_err; [apply assert_not_err; discriminate|discriminate].
Qed.

(** Outside the applicable flags the loop stops on an assertion: an RGB
    value whose flags byte is 1 reaches HSL with that byte unchanged, and the
    next iteration finds neither an edge nor a proxy from HSL to HSL. *)
Lemma stray_flags_abort :
  color_convert 7 (set_extra rgb_gray 1) COLOR_HSL 0 = Err (AssertionFailed A_tmp_type).
Proof. vm_compute. reflexivity. Qed.

End RoutingClaims.

(** * The edges *)

Section EdgeClaims.

Context {M : MathLib}.

Lemma self_edge_composition (c : color) (ex : Z) :
  type c = COLOR_YUV -> extra c <> ex ->
  color_YUV_to_YUV c ex = (c1 <- color_YUV_to_RGB c ex ;; color_RGB_to_YUV c1 ex).
Proof.
  intros Ht Hx. apply Z.eqb_neq in Hx.
  destruct c as [t x [a b d|a b d]]; cbn [type extra] in *; subst t;
    unfold color_YUV_to_YUV, color_YUV_to_RGB, assert_type; cbn [type extra];
    rewrite Hx; cbn; [|reflexivity].
  rewrite Z.eqb_refl. reflexivity.
Qed.

Lemma yuv_601_to_709 (fuel : nat) (Y U V : double) :
  exists c',
    color_convert (S fuel)
      {| type := COLOR_YUV; extra := COLOR_YUV_MAT_REC601; data := Doubles Y U V |}
      COLOR_YUV COLOR_YUV_MAT_REC709 = Ok c' /\
    color_eq c'
      (let '(Y', U', V') := rec709_rgb_to_yuv (rec601_yuv_to_rgb (Y, U, V)) in
       {| type := COLOR_YUV; extra := COLOR_YUV_MAT_REC709; data := Doubles Y' U' V' |}).
Proof.
  eexists. split.
  - unfold color_convert, color_convert_hops.
    change (valid_type COLOR_YUV) with true. cbn [assert bind convert_loop type extra].
    change (negb (COLOR_YUV =? COLOR_YUV)%Z
            || negb (COLOR_YUV_MAT_REC601 =? COLOR_YUV_MAT_REC709)%Z) with true.
    cbv beta iota.
    match goal with |- context [convert_iteration ?c ?t ?e] =>
      change (convert_iteration c t e)
        with (c1 <- color_YUV_to_YUV c e ;;
              assert (type c1 =? COLOR_YUV)%Z A_reached ;; Ok c1)
    end.
    unfold color_YUV_to_YUV, color_YUV_to_RGB, color_RGB_to_YUV, assert_type.
    cbn [type extra data get_doubles bind assert negb
         Z.eqb Pos.eqb COLOR_YUV COLOR_RGB COLOR_YUV_MAT_REC601 COLOR_YUV_MAT_REC709].
    rewrite convert_loop_done by reflexivity.
    cbn [bind type]. change (valid_type COLOR_YUV) with true. cbn [assert bind].
    reflexivity.
  - unfold color_eq, payload_eq, rec709_rgb_to_yuv, rec601_yuv_to_rgb.
    cbn [type extra data].
    change (row yuv_to_rgb (Z.land COLOR_YUV_MAT_REC601 COLOR_YUV_MAT_MASK))
      with (nth 0 yuv_to_rgb []).
    change (row rgb_to_yuv (Z.land COLOR_YUV_MAT_REC709 COLOR_YUV_MAT_MASK))
      with (nth 1 rgb_to_yuv []).
    cbn [nth at_ rgb_to_yuv yuv_to_rgb].
    repeat split; field.
Qed.

(** C5.  [color_YUV_to_YUV] on a YUV value whose flags differ from the
    requested ones is the composition of [color_YUV_to_RGB] (which reads the
    matrix of the value's current flags) and [color_RGB_to_YUV] (which reads
    the matrix of the requested flags); no run of [color_convert] fails on its
    entry assertion [c->extra != extra]; and converting a Rec.601 YUV value to
    Rec.709 takes the Rec.709 matrix of the RGB rebuilt from the Rec.601
    triple. *)
Theorem yuv_self_edge
  (c : color) (ex : Z) (fuel : nat) (c0 : color) (new_type new_extra : Z)
  (Y U V : double) :
  type c = COLOR_YUV -> extra c <> ex ->
  color_YUV_to_YUV c ex = (c1 <- color_YUV_to_RGB c ex ;; color_RGB_to_YUV c1 ex) /\
  color_convert fuel c0 new_type new_extra <> Err (AssertionFailed A_YUV_to_YUV_pre) /\
  exists c',
    color_convert (S fuel)
      {| type := COLOR_YUV; extra := COLOR_YUV_MAT_REC601; data := Doubles Y U V |}
      COLOR_YUV COLOR_YUV_MAT_REC709 = Ok c' /\
    color_eq c'
      (let '(Y', U', V') := rec709_rgb_to_yuv (rec601_yuv_to_rgb (Y, U, V)) in
       {| type := COLOR_YUV; extra := COLOR_YUV_MAT_REC709; data := Doubles Y' U' V' |}).
Proof.
  intros Ht Hx. split; [|split].
  - apply self_edge_composition; assumption.
  - apply color_convert_pre_safe.
  - apply yuv_601_to_709.
Qed.





Lemma dlt_irrefl (x : double) : (x <? x) = false.
Proof. apply dlt_false. apply Qle_refl. Qed.

(** C7.  An achromatic RGB value (x, x, x) converts to HSL with H = 0,
    S = 0 and L = x, and to HSV with H = 0, S = 0 and V = x; for
    (0.5, 0.5, 0.5) the HSL result is H = 0, S = 0 and L = 0.5. *)
Theorem achromatic_rgb (x : double) (e ex : Z) :
  (exists H S_ L,
      color_RGB_to_HSL {| type := COLOR_RGB; extra := e; data := Doubles x x x |} ex
      = Ok {| type := COLOR_HSL; extra := e; data := Doubles H S_ L |} /\
      H == 0 /\ S_ == 0 /\ L == x) /\
  (exists H S_ V,
      color_RGB_to_HSV {| type := COLOR_RGB; extra := e; data := Doubles x x x |} ex
      = Ok {| type := COLOR_HSV; extra := e; data := Doubles H S_ V |} /\
      H == 0 /\ S_ == 0 /\ V == x) /\
  (exists H S_ L,
      color_RGB_to_HSL rgb_gray ex
      = Ok {| type := COLOR_HSL; extra := 0; data := Doubles H S_ L |} /\
      H == 0 /\ S_ == 0 /\ L == 0.5).
Proof.
  assert (Hd : (fabs (x - x) >? 0.0) = false).
  { apply fabs_positive_false. ring. }
  split; [|split].
  - exists 0.0, 0.0, ((x + x) * 0.5). split; [|repeat split; lra].
    unfold color_RGB_to_HSL, assert_type.
    cbn [type extra data get_doubles bind assert Z.eqb Pos.eqb COLOR_RGB].
    rewrite !dlt_irrefl, Hd. reflexivity.
  - exists 0.0, 0.0, x. split; [|repeat split; reflexivity].
    unfold color_RGB_to_HSV, assert_type.
    cbn [type extra data get_doubles bind assert Z.eqb Pos.eqb COLOR_RGB].
    rewrite !dlt_irrefl, Hd. reflexivity.
  - exists 0.0, 0.0, ((0.5 + 0.5) * 0.5). split; [|repeat split; reflexivity].
    vm_compute. reflexivity.
Qed.

(** C8.  [rgb_to_linear] is the sRGB decoding ((c + 0.055) / 1.055)^2.4 above
    0.0031308 * 12.92 and c / 12.92 otherwise; [linear_to_rgb] is the
    encoding 1.055 * c^(1/2.4) - 0.055 above 0.0031308 and 12.92 * c
    otherwise; the two gamma edges apply them to each channel. *)
Theorem srgb_transfer (c r g b : double) (e ex : Z) :
  rgb_to_linear c == srgb_decode c /\
  linear_to_rgb c == srgb_encode c /\
  color_RGB_to_LinearRGB {| type := COLOR_RGB; extra := e; data := Doubles r g b |} ex
  = Ok {| type := COLOR_LINEAR_RGB; extra := e;
          data := Doubles (rgb_to_linear r) (rgb_to_linear g) (rgb_to_linear b) |} /\
  color_LinearRGB_to_RGB
    {| type := COLOR_LINEAR_RGB; extra := e; data := Doubles r g b |} ex
  = Ok {| type := COLOR_RGB; extra := e;
          data := Doubles (linear_to_rgb r) (linear_to_rgb g) (linear_to_rgb b) |}.
Proof.
  repeat split.
  - unfold rgb_to_linear, srgb_decode.
    destruct (c >? 0.0031308 * 12.92).
    + apply pow_proper; [field | reflexivity].
    + field.
  - unfold linear_to_rgb, srgb_encode.
    destruct (c >? 0.0031308); [|ring].
    assert (H : pow c (1.0 / 2.4) == pow c (1 / 2.4)).
    { apply pow_proper; reflexivity. }
    rewrite H. ring.
Qed.

(** C9.  [color_XYZ_to_xyY] stores X and Y themselves as x and y when
    X + Y + Z is zero, and X / (X + Y + Z) and Y / (X + Y + Z) otherwise; the
    third field is Y in both cases. *)
Theorem xyz_to_xyy_zero_sum (e ex : Z) (X Y Z : double) :
  color_XYZ_to_xyY {| type := COLOR_XYZ; extra := e; data := Doubles X Y Z |} ex
  = Ok {| type := COLOR_XYY; extra := e;
          data := if Qeq_bool (X + Y + Z) 0
                  then Doubles X Y Y
                  else Doubles (X / (X + Y + Z)) (Y / (X + Y + Z)) Y |}.
Proof.
  unfold color_XYZ_to_xyY, assert_type.
  cbn [type extra data get_doubles bind assert Z.eqb Pos.eqb COLOR_XYZ].
  destruct (fabs (X + Y + Z) >? 0.0) eqn:E;
    destruct (Qeq_bool (X + Y + Z) 0) eqn:E0; try reflexivity; exfalso.
  - apply Qeq_bool_iff in E0. apply fabs_positive_false in E0. congruence.
  - apply fabs_positive_false in E. apply Qeq_bool_iff in E. congruence.
Qed.


(** The piecewise transfer of [color_XYZ_to_Lab] on a channel divided by
    its white point is [xyz_to_lab] of the normalised channel. *)
Lemma xyz_to_lab_scaled (n v : double) (wr thr lin : double) :
  n == v * wr -> 0 < wr ->
  thr * wr == 216.0 / 24389.0 ->
  lin == wr * (841.0 / 108.0) ->
  xyz_to_lab n ==
  (if v >? thr then pow (v * wr) (1.0 / 3.0) else v * lin + (4.0 / 29.0)).
Proof.
  intros Hn Hw Hthr Hlin. unfold xyz_to_lab.
  destruct (n >? 216.0 / 24389.0) eqn:E1; destruct (v >? thr) eqn:E2.
  - apply pow_proper; [exact Hn | reflexivity].
  - exfalso. apply dlt_true in E1. apply dlt_false in E2.
    rewrite <- Hthr, Hn in E1.
    apply (Qmult_le_compat_r _ _ wr) in E2; [|apply Qlt_le_weak, Hw].
    apply (Qlt_not_le _ _ E1 E2).
  - exfalso. apply dlt_false in E1. apply dlt_true in E2.
    rewrite <- Hthr, Hn in E1.
    apply (Qmult_lt_compat_r _ _ wr Hw) in E2.
    apply (Qlt_not_le _ _ E2 E1).
  - rewrite Hn, Hlin. ring.
Qed.

(** C10.  On every LinearRGB value the direct edge to Lab and the two hops
    through XYZ both succeed and give the same type, the same flags and
    equal L, a and b. *)
Theorem linear_rgb_to_lab_shortcut (e ex : Z) (R G B : double) :
  exists c1 c2,
    color_LinearRGB_to_Lab
      {| type := COLOR_LINEAR_RGB; extra := e; data := Doubles R G B |} ex = Ok c1 /\
    LinearRGB_to_Lab_via_XYZ
      {| type := COLOR_LINEAR_RGB; extra := e; data := Doubles R G B |} ex = Ok c2 /\
    color_eq c1 c2.
Proof.
  do 2 eexists. split; [reflexivity|]. split; [reflexivity|].
  unfold color_eq, payload_eq. cbn [type extra data].
  split; [reflexivity|]. split; [reflexivity|].
  set (X := R * (5067776.0/12288897.0) + G * (4394405.0/12288897.0)
            + B * (4435075.0/24577794.0)).
  set (Y := R * (871024.0/4096299.0) + G * (8788810.0/12288897.0)
            + B * (887015.0/12288897.0)).
  set (Z := R * (79184.0/4096299.0) + G * (4394405.0/36866691.0)
            + B * (70074185.0/73733382.0)).
  assert (HX : xyz_to_lab (R * (10135552.0/23359437.0) + G * (8788810.0/23359437.0)
                           + B * (4435075.0/23359437.0))
               == (if X >? 3377268.0/401223439.0 then pow (X * COLOR_REF_Xr) (1.0/3.0)
                   else X * (13835291.0/1688634.0) + (4.0/29.0))).
  { apply xyz_to_lab_scaled.
    - unfold X, COLOR_REF_Xr. field.
    - reflexivity.
    - reflexivity.
    - reflexivity. }
  assert (HZ : xyz_to_lab (R * (158368.0/8920923.0) + G * (8788810.0/80288307.0)
                           + B * (70074185.0/80288307.0))
               == (if Z >? 3869316.0/401223439.0 then pow (Z * COLOR_REF_Zr) (1.0/3.0)
                   else Z * (13835291.0/1934658.0) + (4.0/29.0))).
  { apply xyz_to_lab_scaled.
    - unfold Z, COLOR_REF_Zr. field.
    - reflexivity.
    - reflexivity.
    - reflexivity. }
  fold (xyz_to_lab Y).
  rewrite HX, HZ. repeat split; reflexivity.
Qed.

(** ** The rescale of YUV to YCbCr *)

Lemma clamp_int_bounds (x : double) (lo hi : Z) :
  (0 <= lo <= hi)%Z -> (hi <= 255)%Z ->
  inject_Z lo <= x -> (x < inject_Z (hi + 1) \/ hi = 255%Z) ->
  (lo <= clamp_int x <= hi)%Z.
Proof.
  intros Hlo Hhi Hl Hu. unfold clamp_int.
  assert (H0 : 0 <= x).
  { apply Qle_trans with (inject_Z lo); [|exact Hl].
    change 0 with (inject_Z 0). rewrite <- Zle_Qle. lia. }
  destruct (x <? 0.0) eqn:E0.
  { apply dlt_true in E0. exfalso. apply (Qlt_not_le _ _ E0). 
    setoid_replace 0.0 with 0 by reflexivity. exact H0. }
  destruct (x >? 255.0) eqn:E1.
  { apply dlt_true in E1. destruct Hu as [Hu| ->]; [|lia].
    destruct (Z.eq_dec hi 255) as [->|Hne]; [lia|].
    exfalso. apply (Qlt_irrefl x). apply Qlt_trans with (inject_Z (hi + 1)); [exact Hu|].
    apply Qle_lt_trans with 255.0; [|exact E1].
    setoid_replace 255.0 with (inject_Z 255) by reflexivity.
    rewrite <- Zle_Qle. lia. }
  apply dlt_false in E1.
  assert (Ht : (lo <= trunc x <= hi)%Z).
  { destruct Hu as [Hu| ->].
    - apply trunc_range; [lia | exact Hl | exact Hu].
    - apply trunc_range; [lia | exact Hl |].
      apply Qle_lt_trans with 255.0; [exact E1|]. reflexivity. }
  unfold to_uint8. rewrite Z.mod_small; lia.
Qed.

(** What the rescale does on a YUV value within the documented ranges when
    no change of matrix is requested: in studio range luma lands in
    [16, 235] but chroma in [32, 255]; in full range all three land in
    [0, 255]. *)
Lemma yuv_to_ycbcr_ranges (x ex : Z) (Y U V : double) :
  Z.land x COLOR_YUV_MAT_MASK = Z.land ex COLOR_YUV_MAT_MASK ->
  0 <= Y <= 1 -> -0.436 <= U <= 0.436 -> -0.615 <= V <= 0.615 ->
  exists y cb cr,
    color_YUV_to_YCbCr {| type := COLOR_YUV; extra := x; data := Doubles Y U V |} ex
    = Ok {| type := COLOR_YCBCR; extra := ex; data := Bytes y cb cr |} /\
    if (Z.land ex COLOR_YCBCR_FULL_RANGE =? 0)%Z
    then (16 <= y <= 235 /\ 32 <= cb <= 255 /\ 32 <= cr <= 255)%Z
    else (0 <= y <= 255 /\ 0 <= cb <= 255 /\ 0 <= cr <= 255)%Z.
Proof.
  intros Hm HY HU HV. unfold color_YUV_to_YCbCr, assert_type.
  cbn [type extra data assert bind Z.eqb Pos.eqb COLOR_YUV].
  rewrite Hm, Z.eqb_refl. cbn [negb bind get_doubles data].
  destruct (Z.land ex COLOR_YCBCR_FULL_RANGE =? 0)%Z; cbn [negb];
    do 3 eexists; (split; [reflexivity|]);
    (split; [|split]);
    (apply clamp_int_bounds;
     [lia | lia
      | unfold inject_Z; qconst; lra
      | first [right; reflexivity
              | left; unfold inject_Z; cbn [Z.add Pos.add Pos.succ]; qconst; lra]]).
Qed.

(** C3, at chroma values inside the documented ranges of U and V: the
    studio rescale of U = 0.4 gives Cb = 246, above 240, and the neutral
    V = 0 gives Cr = 144, not 128. *)
Theorem studio_chroma_offset :
  color_YUV_to_YCbCr yuv_sample 0
  = Ok {| type := COLOR_YCBCR; extra := 0; data := Bytes 126 246 144 |}.
Proof. vm_compute. reflexivity. Qed.

End EdgeClaims.

(** * Further properties of the edges *)

(** ** Quantisation *)

Lemma clamp_uint8_int (x : double) : clamp_uint8 x = clamp_int x.
Proof. reflexivity. Qed.

(** A value half a unit above a code is stored as that code. *)
Lemma clamp_int_half (x : double) (r : Z) :
  (0 <= r <= 255)%Z -> x == inject_Z r + 0.5 -> clamp_int x = r.
Proof.
  intros Hr Hx.
  assert (H : (r <= clamp_int x <= r)%Z); [|lia].
  apply clamp_int_bounds; [lia | lia | |].
  - rewrite Hx. lra.
  - destruct (Z.eq_dec r 255) as [->|Hne]; [right; reflexivity|left].
    rewrite Hx, inject_Z_plus. change (inject_Z 1) with 1. lra.
Qed.

(** Between 0 and 255 the conversion to [uint8_t] is the floor. *)
Lemma uint8_of_mid (v : double) :
  0 <= v -> v <= 255 ->
  to_uint8 (trunc v) = Qfloor v /\ (0 <= Qfloor v <= 255)%Z.
Proof.
  intros H0 H1.
  assert (Ht : (0 <= trunc v <= 255)%Z).
  { apply trunc_range; [lia | exact H0 |].
    apply Qle_lt_trans with 255; [exact H1 | reflexivity]. }
  rewrite (trunc_nonneg v H0) in *. unfold to_uint8.
  rewrite Z.mod_small by lia. split; [reflexivity | lia].
Qed.

(** [clamp_uint8] after the scaling by 255 and the offset 0.5 saturates and
    rounds to the nearest code. *)
Lemma clamp_uint8_nearest (x : double) :
  nearest_code x (clamp_uint8 (x * 255.0 + 0.5)).
Proof.
  unfold nearest_code. rewrite clamp_uint8_int. unfold clamp_int.
  assert (Hv : x * 255.0 + 0.5 == x * 255 + (1#2)) by ring.
  set (v := x * 255.0 + 0.5) in *. clearbody v.
  pose proof (Qfloor_le v) as Hle.
  pose proof (Qlt_floor v) as Hlt.
  rewrite inject_Z_plus in Hlt. change (inject_Z 1) with 1 in Hlt.
  destruct (v <? 0.0) eqn:E0; [apply dlt_true in E0 | apply dlt_false in E0];
    (destruct (v >? 255.0) eqn:E1; [apply dlt_true in E1 | apply dlt_false in E1]).
  - exfalso. lra.
  - repeat split; intros; try reflexivity; try lia; exfalso; lra.
  - repeat split; intros; try reflexivity; try lia; try (exfalso; lra);
      unfold inject_Z; lra.
  - destruct (uint8_of_mid v ltac:(lra) ltac:(lra)) as [-> Hr].
    split; [|split].
    + intros Hx.
      assert (inject_Z (Qfloor v) < 1) by lra.
      change 1 with (inject_Z 1) in H. rewrite <- Zlt_Qlt in H. lia.
    + intros Hx.
      assert (inject_Z 254 < inject_Z (Qfloor v)) by (unfold inject_Z at 1; lra).
      rewrite <- Zlt_Qlt in H. lia.
    + intros _. split; [exact Hr | lra].
Qed.

Section MoreEdgeProperties.

Context {M : MathLib}.

(** X1.  An RGB8 value with bytes in 0..255 survives the trip to RGB and
    back unchanged. *)
Theorem rgb8_rgb_round_trip (e ex ex' r g b : Z) :
  (0 <= r <= 255)%Z -> (0 <= g <= 255)%Z -> (0 <= b <= 255)%Z ->
  (c1 <- color_RGB8_to_RGB {| type := COLOR_RGB8; extra := e; data := Bytes r g b |} ex ;;
   color_RGB_to_RGB8 c1 ex')
  = Ok {| type := COLOR_RGB8; extra := e; data := Bytes r g b |}.
Proof.
  intros Hr Hg Hb.
  unfold color_RGB8_to_RGB, color_RGB_to_RGB8, assert_type.
  cbn [type extra data get_bytes get_doubles bind assert Z.eqb Pos.eqb COLOR_RGB8 COLOR_RGB].
  rewrite !clamp_uint8_int.
  rewrite (clamp_int_half _ r Hr) by field.
  rewrite (clamp_int_half _ g Hg) by field.
  rewrite (clamp_int_half _ b Hb) by field.
  reflexivity.
Qed.

(** X2.  [color_RGB_to_RGB8] saturates each channel below 0 and above 1 and
    rounds it to the nearest code in between: the stored byte is 0 for a
    channel at most 0, 255 for a channel at least 1, and otherwise within
    half a code of 255 times the channel. *)
Theorem rgb_to_rgb8_rounds (e ex : Z) (R G B : double) :
  exists r g b,
    color_RGB_to_RGB8 {| type := COLOR_RGB; extra := e; data := Doubles R G B |} ex
    = Ok {| type := COLOR_RGB8; extra := e; data := Bytes r g b |} /\
    nearest_code R r /\ nearest_code G g /\ nearest_code B b.
Proof.
  unfold color_RGB_to_RGB8, assert_type.
  cbn [type extra data get_doubles bind assert Z.eqb Pos.eqb COLOR_RGB].
  eexists _, _, _. split; [reflexivity|].
  split; [|split]; apply clamp_uint8_nearest.
Qed.

(** ** Linear edges and their inverses *)

Lemma land_mask_cases (e : Z) :
  Z.land e COLOR_YUV_MAT_MASK = 0%Z \/ Z.land e COLOR_YUV_MAT_MASK = 1%Z \/
  Z.land e COLOR_YUV_MAT_MASK = 2%Z \/ Z.land e COLOR_YUV_MAT_MASK = 3%Z.
Proof.
  change COLOR_YUV_MAT_MASK with (Z.ones 2). rewrite Z.land_ones by lia.
  pose proof (Z.mod_pos_bound e (2 ^ 2) ltac:(lia)). lia.
Qed.

Ltac matrix_rows :=
  unfold row, at_;
  change (Z.to_nat 0) with 0%nat; change (Z.to_nat 1) with 1%nat;
  change (Z.to_nat 2) with 2%nat; change (Z.to_nat 3) with 3%nat;
  cbn [nth rgb_to_yuv yuv_to_rgb].

(** X3.  For each of the four matrices, [color_YUV_to_RGB] undoes
    [color_RGB_to_YUV]: the RGB triple comes back, with a zero flags
    byte. *)
Theorem rgb_yuv_round_trip (e ex ex' : Z) (R G B : double) :
  exists c',
    (c1 <- color_RGB_to_YUV {| type := COLOR_RGB; extra := e; data := Doubles R G B |} ex ;;
     color_YUV_to_RGB c1 ex') = Ok c' /\
    color_eq c' {| type := COLOR_RGB; extra := 0; data := Doubles R G B |}.
Proof.
  eexists. split; [reflexivity|].
  unfold color_eq, payload_eq. cbn [type extra data].
  split; [reflexivity|]. split; [reflexivity|].
  destruct (land_mask_cases ex) as [H|[H|[H|H]]]; rewrite H;
    matrix_rows; repeat split; field.
Qed.

(** X4.  [color_RGB_to_YUV] undoes [color_YUV_to_RGB] when it is called
    with the matrix selector of the value: the YUV triple comes back and the
    flags byte is the requested one. *)
Theorem yuv_rgb_round_trip (x ex ex' : Z) (Y U V : double) :
  Z.land x COLOR_YUV_MAT_MASK = Z.land ex COLOR_YUV_MAT_MASK ->
  exists c',
    (c1 <- color_YUV_to_RGB {| type := COLOR_YUV; extra := x; data := Doubles Y U V |} ex' ;;
     color_RGB_to_YUV c1 ex) = Ok c' /\
    color_eq c' {| type := COLOR_YUV; extra := ex; data := Doubles Y U V |}.
Proof.
  intros Hm. eexists. split; [reflexivity|].
  unfold color_eq, payload_eq. cbn [type extra data].
  split; [reflexivity|]. split; [reflexivity|]. rewrite Hm.
  destruct (land_mask_cases ex) as [H|[H|[H|H]]]; rewrite H;
    matrix_rows; repeat split; field.
Qed.

(** X5.  [color_RGB_to_YDbDr] and [color_YDbDr_to_RGB] are inverse of each
    other. *)
Theorem rgb_ydbdr_round_trip (e ex ex' : Z) (p q r : double) :
  (exists c',
      (c1 <- color_RGB_to_YDbDr {| type := COLOR_RGB; extra := e; data := Doubles p q r |} ex ;;
       color_YDbDr_to_RGB c1 ex') = Ok c' /\
      color_eq c' {| type := COLOR_RGB; extra := e; data := Doubles p q r |}) /\
  (exists c',
      (c1 <- color_YDbDr_to_RGB {| type := COLOR_YDBDR; extra := e; data := Doubles p q r |} ex ;;
       color_RGB_to_YDbDr c1 ex') = Ok c' /\
      color_eq c' {| type := COLOR_YDBDR; extra := e; data := Doubles p q r |}).
Proof.
  split; (eexists; split; [reflexivity|]);
    unfold color_eq, payload_eq; cbn [type extra data];
    repeat split; field.
Qed.

(** X6.  [color_LinearRGB_to_XYZ] and [color_XYZ_to_LinearRGB] are inverse
    of each other. *)
Theorem linear_rgb_xyz_round_trip (e ex ex' : Z) (p q r : double) :
  (exists c',
      (c1 <- color_LinearRGB_to_XYZ
               {| type := COLOR_LINEAR_RGB; extra := e; data := Doubles p q r |} ex ;;
       color_XYZ_to_LinearRGB c1 ex') = Ok c' /\
      color_eq c' {| type := COLOR_LINEAR_RGB; extra := e; data := Doubles p q r |}) /\
  (exists c',
      (c1 <- color_XYZ_to_LinearRGB
               {| type := COLOR_XYZ; extra := e; data := Doubles p q r |} ex ;;
       color_LinearRGB_to_XYZ c1 ex') = Ok c' /\
      color_eq c' {| type := COLOR_XYZ; extra := e; data := Doubles p q r |}).
Proof.
  split; (eexists; split; [reflexivity|]);
    unfold color_eq, payload_eq; cbn [type extra data];
    repeat split; field.
Qed.

(** X7.  A gray RGB value (x, x, x) has luma x and zero chroma in YUV under
    each of the four matrices, in YDbDr and in YIQ. *)
Theorem gray_has_no_chroma (e ex : Z) (x : double) :
  (exists Y U V,
      color_RGB_to_YUV {| type := COLOR_RGB; extra := e; data := Doubles x x x |} ex
      = Ok {| type := COLOR_YUV; extra := ex; data := Doubles Y U V |} /\
      Y == x /\ U == 0 /\ V == 0) /\
  (exists Y Db Dr,
      color_RGB_to_YDbDr {| type := COLOR_RGB; extra := e; data := Doubles x x x |} ex
      = Ok {| type := COLOR_YDBDR; extra := e; data := Doubles Y Db Dr |} /\
      Y == x /\ Db == 0 /\ Dr == 0) /\
  (exists Y I_ Q_,
      color_RGB_to_YIQ {| type := COLOR_RGB; extra := e; data := Doubles x x x |} ex
      = Ok {| type := COLOR_YIQ; extra := e; data := Doubles Y I_ Q_ |} /\
      Y == x /\ I_ == 0 /\ Q_ == 0).
Proof.
  split; [|split].
  - do 3 eexists. split; [reflexivity|].
    destruct (land_mask_cases ex) as [H|[H|[H|H]]]; rewrite H;
      matrix_rows; repeat split; field.
  - do 3 eexists. split; [reflexivity|]. repeat split; field.
  - do 3 eexists. split; [reflexivity|]. repeat split; field.
Qed.

(** ** Shortcut edges *)

(** X8.  The direct edge from Lab to LinearRGB gives the same result as the
    two hops through XYZ, on both branches of each channel. *)
Theorem lab_to_linear_rgb_shortcut (e ex ex' : Z) (L a b : double) :
  exists c1 c2,
    color_Lab_to_LinearRGB {| type := COLOR_LAB; extra := e; data := Doubles L a b |} ex
    = Ok c1 /\
    (c <- color_Lab_to_XYZ {| type := COLOR_LAB; extra := e; data := Doubles L a b |} ex ;;
     color_XYZ_to_LinearRGB c ex') = Ok c2 /\
    color_eq c1 c2.
Proof.
  do 2 eexists. split; [reflexivity|]. split; [reflexivity|].
  unfold color_eq, payload_eq. cbn [type extra data].
  split; [reflexivity|]. split; [reflexivity|].
  unfold COLOR_REF_X, COLOR_REF_Z.
  destruct (a * (1.0 / 500.0) + (L * (1.0 / 116.0) + 16.0 / 116.0) >? 6.0 / 29.0);
    destruct (L >? 8.0);
    destruct (b * (-1.0 / 200.0) + (L * (1.0 / 116.0) + 16.0 / 116.0) >? 6.0 / 29.0);
    repeat split; field.
Qed.

Lemma rgb8_to_linear_two_hops (c : Z) :
  rgb8_to_linear c == rgb_to_linear (inject_Z c * (1.0 / 255.0)).
Proof.
  unfold rgb8_to_linear, rgb_to_linear.
  destruct (c >=? 11)%Z eqn:E;
    destruct (inject_Z c * (1.0 / 255.0) >? 0.0031308 * 12.92) eqn:E'.
  - apply pow_proper; [field | reflexivity].
  - exfalso. apply Z.geb_le in E. apply dlt_false in E'.
    rewrite Zle_Qle in E. unfold inject_Z at 1 in E. qconst. lra.
  - exfalso. rewrite Z.geb_leb in E. apply Z.leb_gt in E. apply dlt_true in E'.
    assert (H : (c <= 10)%Z) by lia.
    rewrite Zle_Qle in H. unfold inject_Z at 2 in H. qconst. lra.
  - field.
Qed.

(** X9.  The direct edge from RGB8 to LinearRGB gives the same result as
    the two hops through RGB: the integer threshold 11 and the folded
    constants agree with the sRGB decoding of the byte divided by 255. *)
Theorem rgb8_to_linear_rgb_shortcut (e ex ex' r g b : Z) :
  exists c1 c2,
    color_RGB8_to_LinearRGB {| type := COLOR_RGB8; extra := e; data := Bytes r g b |} ex
    = Ok c1 /\
    (c <- color_RGB8_to_RGB {| type := COLOR_RGB8; extra := e; data := Bytes r g b |} ex ;;
     color_RGB_to_LinearRGB c ex') = Ok c2 /\
    color_eq c1 c2.
Proof.
  do 2 eexists. split; [reflexivity|]. split; [reflexivity|].
  unfold color_eq, payload_eq. cbn [type extra data].
  repeat split; apply rgb8_to_linear_two_hops.
Qed.

(** ** YCbCr *)

Lemma mask_after_range_clear (e : Z) :
  (0 <= e <= 7)%Z ->
  Z.land (to_uint8 (Z.land e (Z.lnot COLOR_YCBCR_FULL_RANGE))) COLOR_YUV_MAT_MASK
  = Z.land e COLOR_YUV_MAT_MASK.
Proof.
  intros He.
  assert (H : (e = 0 \/ e = 1 \/ e = 2 \/ e = 3 \/ e = 4 \/ e = 5 \/ e = 6 \/ e = 7)%Z)
    by lia.
  repeat (destruct H as [H|H]); subst e; reflexivity.
Qed.

(** X10.  A YCbCr value with bytes in 0..255 and flags in 0..7, converted to
    YUV and back with its own flags, comes back byte for byte, in studio
    and in full range. *)
Theorem ycbcr_yuv_round_trip (e y cb cr : Z) :
  (0 <= e <= 7)%Z ->
  (0 <= y <= 255)%Z -> (0 <= cb <= 255)%Z -> (0 <= cr <= 255)%Z ->
  (c1 <- color_YCbCr_to_YUV {| type := COLOR_YCBCR; extra := e; data := Bytes y cb cr |} e ;;
   color_YUV_to_YCbCr c1 e)
  = Ok {| type := COLOR_YCBCR; extra := e; data := Bytes y cb cr |}.
Proof.
  intros He Hy Hcb Hcr.
  unfold color_YCbCr_to_YUV, color_YUV_to_YCbCr, assert_type.
  cbn [type extra data get_bytes bind assert Z.eqb Pos.eqb COLOR_YCBCR].
  destruct (negb (Z.land e COLOR_YCBCR_FULL_RANGE =? 0)%Z);
    cbn [type extra data];
    rewrite (mask_after_range_clear e He), Z.eqb_refl;
    cbn [negb bind type extra data get_doubles assert Z.eqb Pos.eqb COLOR_YUV];
    rewrite (mask_after_range_clear e He), Z.eqb_refl;
    cbn [negb bind type extra data get_doubles];
    rewrite (clamp_int_half _ y Hy) by field;
    rewrite (clamp_int_half _ cb Hcb) by field;
    rewrite (clamp_int_half _ cr Hcr) by field;
    reflexivity.
Qed.

(** ** Chromaticity and saturation *)

Lemma quotient_nonzero (a b : Q) : ~ a == 0 -> ~ b == 0 -> ~ a / b == 0.
Proof.
  intros Ha Hb H. apply Ha.
  setoid_replace a with (a / b * b) by (field; exact Hb).
  rewrite H. ring.
Qed.

(** X11.  An XYZ value with nonzero Y and nonzero X + Y + Z survives the trip
    to xyY and back. *)
Theorem xyz_xyy_round_trip (e ex ex' : Z) (X Y Z : double) :
  ~ Y == 0 -> ~ X + Y + Z == 0 ->
  exists c',
    (c1 <- color_XYZ_to_xyY {| type := COLOR_XYZ; extra := e; data := Doubles X Y Z |} ex ;;
     color_xyY_to_XYZ c1 ex') = Ok c' /\
    color_eq c' {| type := COLOR_XYZ; extra := e; data := Doubles X Y Z |}.
Proof.
  intros HY Hs.
  unfold color_XYZ_to_xyY, color_xyY_to_XYZ, assert_type.
  cbn [type extra data get_doubles bind assert Z.eqb Pos.eqb COLOR_XYZ].
  rewrite (fabs_positive_true _ Hs).
  cbn [type extra data get_doubles bind assert Z.eqb Pos.eqb COLOR_XYY].
  rewrite (fabs_positive_true _ (quotient_nonzero _ _ HY Hs)).
  eexists. split; [reflexivity|].
  unfold color_eq, payload_eq. cbn [type extra data].
  repeat split; try reflexivity; field; auto.
Qed.

(** X12.  An XYZ value with zero Y comes back from xyY as (0, 0, 0): X and Z
    are lost. *)
Theorem xyz_xyy_zero_luminance (e ex ex' : Z) (X Y Z : double) :
  Y == 0 ->
  (c1 <- color_XYZ_to_xyY {| type := COLOR_XYZ; extra := e; data := Doubles X Y Z |} ex ;;
   color_xyY_to_XYZ c1 ex')
  = Ok {| type := COLOR_XYZ; extra := e; data := Doubles 0.0 0.0 0.0 |}.
Proof.
  intros HY.
  unfold color_XYZ_to_xyY, color_xyY_to_XYZ, assert_type.
  cbn [type extra data get_doubles bind assert Z.eqb Pos.eqb COLOR_XYZ].
  destruct (fabs (X + Y + Z) >? 0.0);
    cbn [type extra data get_doubles bind assert Z.eqb Pos.eqb COLOR_XYY].
  - assert (H : (fabs (Y / (X + Y + Z)) >? 0.0) = false).
    { apply fabs_positive_false. rewrite HY. unfold Qdiv. ring. }
    rewrite H. reflexivity.
  - assert (H : (fabs Y >? 0.0) = false) by (apply fabs_positive_false; exact HY).
    rewrite H. reflexivity.
Qed.

(** X13.  With a nonzero lightness, [color_LCHuv_to_LSHuv] and
    [color_LSHuv_to_LCHuv] are inverse of each other. *)
Theorem lchuv_lshuv_round_trip (e ex ex' : Z) (L q h : double) :
  ~ L == 0 ->
  (exists c',
      (c1 <- color_LCHuv_to_LSHuv
               {| type := COLOR_LCHUV; extra := e; data := Doubles L q h |} ex ;;
       color_LSHuv_to_LCHuv c1 ex') = Ok c' /\
      color_eq c' {| type := COLOR_LCHUV; extra := e; data := Doubles L q h |}) /\
  (exists c',
      (c1 <- color_LSHuv_to_LCHuv
               {| type := COLOR_LSHUV; extra := e; data := Doubles L q h |} ex ;;
       color_LCHuv_to_LSHuv c1 ex') = Ok c' /\
      color_eq c' {| type := COLOR_LSHUV; extra := e; data := Doubles L q h |}).
Proof.
  intros HL.
  split; (eexists; split; [reflexivity|]);
    unfold color_eq, payload_eq; cbn [type extra data];
    repeat split; try reflexivity; field; exact HL.
Qed.

(** ** Lab *)

(** X14.  On the linear segment (each of X, Y, Z at most its threshold, so
    that L is at most 8) an XYZ value survives the trip to Lab and back. *)
Theorem xyz_lab_round_trip_linear (e ex ex' : Z) (X Y Z : double) :
  X <= 3377268.0/401223439.0 -> Y <= 216.0/24389.0 -> Z <= 3869316.0/401223439.0 ->
  exists c',
    (c1 <- color_XYZ_to_Lab {| type := COLOR_XYZ; extra := e; data := Doubles X Y Z |} ex ;;
     color_Lab_to_XYZ c1 ex') = Ok c' /\
    color_eq c' {| type := COLOR_XYZ; extra := e; data := Doubles X Y Z |}.
Proof.
  intros HX HY HZ.
  unfold color_XYZ_to_Lab, color_Lab_to_XYZ, assert_type.
  cbn [type extra data get_doubles bind assert Z.eqb Pos.eqb COLOR_XYZ].
  apply dlt_false in HX. apply dlt_false in HY. apply dlt_false in HZ.
  rewrite HX, HY, HZ.
  cbn [type extra data get_doubles bind assert Z.eqb Pos.eqb COLOR_LAB].
  apply dlt_false in HX. apply dlt_false in HY. apply dlt_false in HZ.
  eexists. split; [reflexivity|].
  unfold color_eq, payload_eq. cbn [type extra data].
  split; [reflexivity|]. split; [reflexivity|].
  unfold COLOR_REF_X, COLOR_REF_Z.
  repeat match goal with
         | |- context [if ?b then _ else _] =>
             let E := fresh "E" in
             destruct b eqn:E;
             [exfalso; apply dlt_true in E; clear - E HX HY HZ; qconst; lra|]
         end.
  repeat split; field.
Qed.

Lemma xyz_to_lab_proper (a b : double) : a == b -> xyz_to_lab a == xyz_to_lab b.
Proof.
  intros H. unfold xyz_to_lab, dlt.
  rewrite (Qleb_comp _ _ H (216.0 / 24389.0) (216.0 / 24389.0) (Qeq_refl _)).
  destruct (negb _).
  - apply pow_proper; [exact H | reflexivity].
  - rewrite H. reflexivity.
Qed.

(** X15.  A gray LinearRGB value (x, x, x) goes to a Lab value on the
    neutral axis: a and b are zero and L is 116 f(x) - 16, f being the
    piecewise transfer [xyz_to_lab]. *)
Theorem gray_is_neutral_in_lab (e ex : Z) (x : double) :
  exists L a b,
    color_LinearRGB_to_Lab
      {| type := COLOR_LINEAR_RGB; extra := e; data := Doubles x x x |} ex
    = Ok {| type := COLOR_LAB; extra := e; data := Doubles L a b |} /\
    L == xyz_to_lab x * 116 - 16 /\ a == 0 /\ b == 0.
Proof.
  do 3 eexists. split; [reflexivity|].
  assert (HX : xyz_to_lab (x * (10135552.0/23359437.0) + x * (8788810.0/23359437.0)
                           + x * (4435075.0/23359437.0)) == xyz_to_lab x)
    by (apply xyz_to_lab_proper; field).
  assert (HY : xyz_to_lab (x * (871024.0/4096299.0) + x * (8788810.0/12288897.0)
                           + x * (887015.0/12288897.0)) == xyz_to_lab x)
    by (apply xyz_to_lab_proper; field).
  assert (HZ : xyz_to_lab (x * (158368.0/8920923.0) + x * (8788810.0/80288307.0)
                           + x * (70074185.0/80288307.0)) == xyz_to_lab x)
    by (apply xyz_to_lab_proper; field).
  rewrite HX, HY, HZ. repeat split; ring.
Qed.

(** ** Hue *)

Lemma hue_wave_low (h : double) :
  -1 <= h -> h < 2 ->
  hue_wave h == (if h <? 0 then - h else if h <? 1 then h else 2 - h).
Proof.
  intros Hl Hu. unfold hue_wave, fabs.
  assert (E2 : (Qabs h >=? 2.0) = false).
  { apply dle_false. apply Qabs_Qlt_condition. lra. }
  rewrite E2.
  destruct (h <? 0) eqn:E0.
  - apply dlt_true in E0.
    assert (E0' : (h <? 0.0) = true) by (apply dlt_true; lra).
    rewrite E0'. rewrite Qabs_pos by lra. ring.
  - apply dlt_false in E0.
    assert (E0' : (h <? 0.0) = false) by (apply dlt_false; lra).
    rewrite E0'.
    destruct (h <? 1) eqn:E1.
    + apply dlt_true in E1. rewrite Qabs_neg by lra. ring.
    + apply dlt_false in E1. rewrite Qabs_pos by lra. ring.
Qed.

Lemma hue_wave_high (h : double) (k : Z) :
  (1 <= k <= 2)%Z ->
  2 * inject_Z k <= h -> h < 2 * inject_Z k + 2 ->
  hue_wave h == (if h <? 2 * inject_Z k + 1
                 then h - 2 * inject_Z k else 2 * inject_Z k + 2 - h).
Proof.
  intros Hk Hl Hu. unfold hue_wave, fabs, floor.
  assert (Hk1 : 1 <= inject_Z k).
  { change 1 with (inject_Z 1). rewrite <- Zle_Qle. lia. }
  assert (E2 : (Qabs h >=? 2.0) = true).
  { apply dle_true. rewrite Qabs_pos by lra. lra. }
  rewrite E2.
  assert (Hf : Qfloor (h * 0.5) = k) by (apply Qfloor_eq; lra).
  rewrite Hf.
  destruct (h <? 2 * inject_Z k + 1) eqn:E1.
  - apply dlt_true in E1. rewrite Qabs_neg by lra. ring.
  - apply dlt_false in E1. rewrite Qabs_pos by lra. ring.
Qed.

Ltac decide_dlt :=
  repeat match goal with
         | |- context [dlt ?a ?b] =>
             first [ replace (dlt a b) with true
                       by (symmetry; apply dlt_true; unfold inject_Z; lra)
                   | replace (dlt a b) with false
                       by (symmetry; apply dlt_false; unfold inject_Z; lra) ]
         end.

Lemma finish_HSL_to_RGB_unfold (c : color) (h C m : double) :
  finish_HSL_to_RGB c h C m
  = (assert ((hue_sector h >=? 0)%Z && (hue_sector h <=? 5)%Z) A_idx ;;
     let vars := [C + m; m; C * hue_wave h + m] in
     let sel := nth (Z.to_nat (hue_sector h)) rgb_tbl [] in
     Ok (set_data c (Doubles (at_ vars (nth 0 sel 0%nat))
                             (at_ vars (nth 1 sel 0%nat))
                             (at_ vars (nth 2 sel 0%nat))))).
Proof. reflexivity. Qed.

(** For a hue from -1 up to 6, clear of the rounding window,
    [finish_HSL_to_RGB] computes the textbook sector formula. *)
Lemma finish_HSL_to_RGB_reference (c : color) (h C m : double) :
  -1 <= h -> h < 6 -> hue_clear h ->
  exists a b d,
    finish_HSL_to_RGB c h C m = Ok (set_data c (Doubles a b d)) /\
    (let '(r, g, b') := hue_rgb_reference h C m in a == r /\ b == g /\ d == b').
Proof.
  intros Hl Hu Hc.
  rewrite finish_HSL_to_RGB_unfold, (hue_assert_ok h (hue_clear_indexable h Hl Hu Hc)).
  cbn [bind]. unfold hue_rgb_reference.
  destruct (Qlt_le_dec h 0) as [H0|H0];
    [|destruct (Qlt_le_dec h 1) as [H1|H1];
      [|destruct (Qlt_le_dec h 2) as [H2|H2];
        [|destruct (Qlt_le_dec h 3) as [H3|H3];
          [|destruct (Qlt_le_dec h 4) as [H4|H4];
            [|destruct (Qlt_le_dec h 5) as [H5|H5]]]]]].
  - assert (Hn : h <= - (1 # 1125899906842624))
      by (destruct Hc as [Hc|Hc]; [exact Hc | exfalso; lra]).
    rewrite (hue_sector_negative h Hl Hn).
    do 3 eexists. split; [reflexivity|].
    change (Z.to_nat 5) with 5%nat. cbn [nth at_ rgb_tbl].
    decide_dlt. cbv beta iota zeta.
    rewrite (hue_wave_low h) by lra. decide_dlt. repeat split; ring.
  - rewrite (hue_sector_eq h 0) by (try lia; unfold inject_Z; lra).
    do 3 eexists. split; [reflexivity|].
    change (Z.to_nat 0) with 0%nat. cbn [nth at_ rgb_tbl].
    decide_dlt. cbv beta iota zeta.
    rewrite (hue_wave_low h) by lra. decide_dlt. repeat split; ring.
  - rewrite (hue_sector_eq h 1) by (try lia; unfold inject_Z; lra).
    do 3 eexists. split; [reflexivity|].
    change (Z.to_nat 1) with 1%nat. cbn [nth at_ rgb_tbl].
    decide_dlt. cbv beta iota zeta.
    rewrite (hue_wave_low h) by lra. decide_dlt. repeat split; ring.
  - rewrite (hue_sector_eq h 2) by (try lia; unfold inject_Z; lra).
    do 3 eexists. split; [reflexivity|].
    change (Z.to_nat 2) with 2%nat. cbn [nth at_ rgb_tbl].
    decide_dlt. cbv beta iota zeta.
    rewrite (hue_wave_high h 1) by (try lia; unfold inject_Z; lra).
    decide_dlt. unfold inject_Z. repeat split; ring.
  - rewrite (hue_sector_eq h 3) by (try lia; unfold inject_Z; lra).
    do 3 eexists. split; [reflexivity|].
    change (Z.to_nat 3) with 3%nat. cbn [nth at_ rgb_tbl].
    decide_dlt. cbv beta iota zeta.
    rewrite (hue_wave_high h 1) by (try lia; unfold inject_Z; lra).
    decide_dlt. unfold inject_Z. repeat split; ring.
  - rewrite (hue_sector_eq h 4) by (try lia; unfold inject_Z; lra).
    do 3 eexists. split; [reflexivity|].
    change (Z.to_nat 4) with 4%nat. cbn [nth at_ rgb_tbl].
    decide_dlt. cbv beta iota zeta.
    rewrite (hue_wave_high h 2) by (try lia; unfold inject_Z; lra).
    decide_dlt. unfold inject_Z. repeat split; ring.
  - rewrite (hue_sector_eq h 5) by (try lia; unfold inject_Z; lra).
    do 3 eexists. split; [reflexivity|].
    change (Z.to_nat 5) with 5%nat. cbn [nth at_ rgb_tbl].
    decide_dlt. cbv beta iota zeta.
    rewrite (hue_wave_high h 2) by (try lia; unfold inject_Z; lra).
    decide_dlt. unfold inject_Z. repeat split; ring.
Qed.

Lemma rgb_extrema (R G B : double) :
  (R <= rgb_max R G B /\ G <= rgb_max R G B /\ B <= rgb_max R G B) /\
  (rgb_min R G B <= R /\ rgb_min R G B <= G /\ rgb_min R G B <= B) /\
  (rgb_max R G B = R \/ rgb_max R G B = G \/ rgb_max R G B = B) /\
  (rgb_min R G B = R \/ rgb_min R G B = G \/ rgb_min R G B = B).
Proof.
  unfold rgb_max, rgb_min. cbv zeta.
  destruct (R >? G) eqn:E1; [apply dlt_true in E1 | apply dlt_false in E1];
    (destruct (R <? G) eqn:E2; [apply dlt_true in E2 | apply dlt_false in E2]);
    repeat match goal with
           | |- context [dlt ?a ?b] =>
               let E := fresh "E" in
               destruct (dlt a b) eqn:E; [apply dlt_true in E | apply dlt_false in E]
           end;
    repeat split; try lra; auto.
Qed.

Ltac split_dlt :=
  repeat match goal with
         | |- context [dlt ?a ?b] =>
             let E := fresh "E" in
             destruct (dlt a b) eqn:E; [apply dlt_true in E | apply dlt_false in E]
         end.

(** The hue of a chromatic RGB triple lies in [-1, 5], and the sector
    formula applied to it, with the chroma max - min and the offset min,
    gives the triple back. *)
Lemma rgb_hue_inverse (R G B : double) :
  rgb_min R G B < rgb_max R G B ->
  -1 <= rgb_hue R G B /\ rgb_hue R G B < 6 /\
  forall C m,
    C == rgb_max R G B - rgb_min R G B -> m == rgb_min R G B ->
    let '(r, g, b) := hue_rgb_reference (rgb_hue R G B) C m in
    r == R /\ g == G /\ b == B.
Proof.
  intros Hd.
  destruct (rgb_extrema R G B)
    as ((HR & HG & HB) & (HR' & HG' & HB') & Hmx & Hmn).
  unfold rgb_hue. cbv zeta.
  set (mx := rgb_max R G B) in *. set (mn := rgb_min R G B) in *.
  clearbody mx mn.
  assert (Hmx' : mx == R \/ mx == G \/ mx == B)
    by (destruct Hmx as [->|[->| ->]]; [left|right; left|right; right]; reflexivity).
  assert (Hmn' : mn == R \/ mn == G \/ mn == B)
    by (destruct Hmn as [->|[->| ->]]; [left|right; left|right; right]; reflexivity).
  clear Hmx Hmn.
  match goal with
  | |- context [hue_rgb_reference ?t _ _] => remember t as H eqn:EH
  end.
  assert (Hcases :
            (mx == R /\ H * (mx - mn) == G - B) \/
            (mx == G /\ (H - 2) * (mx - mn) == B - R) \/
            (mx == B /\ (H - 4) * (mx - mn) == R - G)).
  { rewrite EH. unfold deq.
    destruct (Qeq_bool mx R) eqn:ER.
    - apply Qeq_bool_iff in ER. left. split; [exact ER | field; lra].
    - apply Qeq_bool_neq in ER.
      destruct (Qeq_bool mx G) eqn:EG.
      + apply Qeq_bool_iff in EG. right. left. split; [exact EG | field; lra].
      + apply Qeq_bool_neq in EG. right. right.
        destruct Hmx' as [E|[E|E]]; try contradiction.
        split; [exact E | field; lra]. }
  clear EH.
  assert (Hlo : -1 <= H) by (destruct Hcases as [[E1 E2]|[[E1 E2]|[E1 E2]]]; nra).
  assert (Hhi : H <= 5) by (destruct Hcases as [[E1 E2]|[[E1 E2]|[E1 E2]]]; nra).
  split; [exact Hlo|]. split; [lra|].
  intros C m HC Hm. unfold hue_rgb_reference. cbv zeta.
  split_dlt; cbv beta iota;
    destruct Hcases as [[Ka Kb]|[[Ka Kb]|[Ka Kb]]];
    destruct Hmn' as [Kc|[Kc|Kc]];
    first [exfalso; nra | repeat split; nra].
Qed.

Lemma fabs_positive_nonzero (x : double) : (fabs x >? 0.0) = true -> ~ x == 0.
Proof.
  intros H E. apply fabs_positive_false in E. congruence.
Qed.

Lemma color_RGB_to_HSV_unfold (e ex : Z) (R G B : double) :
  color_RGB_to_HSV {| type := COLOR_RGB; extra := e; data := Doubles R G B |} ex
  = if fabs (rgb_max R G B - rgb_min R G B) >? 0.0
    then Ok {| type := COLOR_HSV; extra := e;
               data := Doubles (rgb_hue R G B)
                               ((rgb_max R G B - rgb_min R G B) / rgb_max R G B)
                               (rgb_max R G B) |}
    else Ok {| type := COLOR_HSV; extra := e;
               data := Doubles 0.0 0.0 (rgb_max R G B) |}.
Proof. reflexivity. Qed.

Lemma color_RGB_to_HSL_unfold (e ex : Z) (R G B : double) :
  color_RGB_to_HSL {| type := COLOR_RGB; extra := e; data := Doubles R G B |} ex
  = if fabs (rgb_max R G B - rgb_min R G B) >? 0.0
    then Ok {| type := COLOR_HSL; extra := e;
               data := Doubles
                         (rgb_hue R G B)
                         (if (rgb_max R G B + rgb_min R G B) * 0.5 <? 0.5
                          then (rgb_max R G B - rgb_min R G B)
                               / (rgb_max R G B + rgb_min R G B)
                          else (rgb_max R G B - rgb_min R G B)
                               / (2.0 - rgb_max R G B - rgb_min R G B))
                         ((rgb_max R G B + rgb_min R G B) * 0.5) |}
    else Ok {| type := COLOR_HSL; extra := e;
               data := Doubles 0.0 0.0 ((rgb_max R G B + rgb_min R G B) * 0.5) |}.
Proof. reflexivity. Qed.

(** X16.  For a hue from -1 up to 6 that is clear of the rounding window
    (at most [-2^-50], or nonnegative) and a nonzero saturation,
    [color_HSV_to_RGB] and [color_HSL_to_RGB] return and compute the
    textbook sector formula, with chroma V S and offset V - V S for HSV,
    chroma (1 - |2 L - 1|) S and offset L - chroma / 2 for HSL. *)
Theorem hsv_hsl_to_rgb_reference (e ex : Z) (H S_ V : double) :
  -1 <= H -> H < 6 -> hue_clear H -> ~ S_ == 0 ->
  (exists r g b,
      color_HSV_to_RGB {| type := COLOR_HSV; extra := e; data := Doubles H S_ V |} ex
      = Ok {| type := COLOR_RGB; extra := e; data := Doubles r g b |} /\
      let '(r', g', b') := hue_rgb_reference H (V * S_) (V - V * S_) in
      r == r' /\ g == g' /\ b == b') /\
  (exists r g b,
      color_HSL_to_RGB {| type := COLOR_HSL; extra := e; data := Doubles H S_ V |} ex
      = Ok {| type := COLOR_RGB; extra := e; data := Doubles r g b |} /\
      let C := (1 - Qabs (2 * V - 1)) * S_ in
      let '(r', g', b') := hue_rgb_reference H C (V - C / 2) in
      r == r' /\ g == g' /\ b == b').
Proof.
  intros Hl Hu Hc HS. split.
  - unfold color_HSV_to_RGB, assert_type.
    cbn [type extra data get_doubles bind assert Z.eqb Pos.eqb COLOR_HSV set_type].
    rewrite (fabs_positive_true S_ HS).
    match goal with |- context [finish_HSL_to_RGB ?c ?h ?C ?m] =>
      destruct (finish_HSL_to_RGB_reference c h C m Hl Hu Hc) as (r & g & b & E & Href)
    end.
    exists r, g, b. split; [exact E | exact Href].
  - unfold color_HSL_to_RGB, assert_type.
    cbn [type extra data get_doubles bind assert Z.eqb Pos.eqb COLOR_HSL set_type].
    rewrite (fabs_positive_true S_ HS).
    match goal with |- context [finish_HSL_to_RGB ?c ?h ?C ?m] =>
      destruct (finish_HSL_to_RGB_reference c h C m Hl Hu Hc) as (r & g & b & E & Href)
    end.
    exists r, g, b. split; [exact E|]. cbv zeta.
    unfold hue_rgb_reference, fabs in *. cbv zeta in *.
    assert (Ha : Qabs (V * 2.0 - 1.0) == Qabs (2 * V - 1))
      by (apply Qabs_wd; ring).
    revert Href. split_dlt; cbv beta iota; intros (E1' & E2' & E3');
      rewrite E1', E2', E3', Ha; repeat split; field.
Qed.

(** X17.  An RGB value with nonnegative channels whose hue, when it is not
    gray, is clear of the rounding window survives the trip to HSV and
    back. *)
Theorem rgb_hsv_round_trip (e ex ex' : Z) (R G B : double) :
  0 <= R -> 0 <= G -> 0 <= B ->
  (rgb_min R G B < rgb_max R G B -> hue_clear (rgb_hue R G B)) ->
  exists c',
    (c1 <- color_RGB_to_HSV {| type := COLOR_RGB; extra := e; data := Doubles R G B |} ex ;;
     color_HSV_to_RGB c1 ex') = Ok c' /\
    color_eq c' {| type := COLOR_RGB; extra := e; data := Doubles R G B |}.
Proof.
  intros HR0 HG0 HB0 Hclear. rewrite color_RGB_to_HSV_unfold.
  destruct (rgb_extrema R G B)
    as ((HR & HG & HB) & (HR' & HG' & HB') & Hmx & Hmn).
  assert (Hmn0 : 0 <= rgb_min R G B)
    by (destruct Hmn as [->|[->| ->]]; assumption).
  destruct (fabs (rgb_max R G B - rgb_min R G B) >? 0.0) eqn:Ed; cbn [bind].
  - apply fabs_positive_nonzero in Ed.
    assert (Hd : rgb_min R G B < rgb_max R G B) by lra.
    destruct (rgb_hue_inverse R G B Hd) as (Hlo & Hhi & Hinv).
    unfold color_HSV_to_RGB, assert_type.
    cbn [type extra data get_doubles bind assert Z.eqb Pos.eqb COLOR_HSV set_type].
    rewrite fabs_positive_true by (apply quotient_nonzero; lra).
    match goal with |- context [finish_HSL_to_RGB ?c ?h ?C ?m] =>
      destruct (finish_HSL_to_RGB_reference c h C m Hlo Hhi (Hclear Hd))
        as (r & g & b & E & Href);
      specialize (Hinv C m)
    end.
    rewrite E. eexists. split; [reflexivity|].
    unfold color_eq, payload_eq. cbn [type extra data set_data].
    split; [reflexivity|]. split; [reflexivity|].
    destruct (hue_rgb_reference _ _ _) as [[r' g'] b'].
    destruct Href as (E1 & E2 & E3).
    destruct Hinv as (I1 & I2 & I3); [field; lra | field; lra |].
    rewrite E1, E2, E3. auto.
  - apply fabs_positive_false in Ed.
    unfold color_HSV_to_RGB, assert_type.
    cbn [type extra data get_doubles bind assert Z.eqb Pos.eqb COLOR_HSV set_type].
    change (fabs 0.0 >? 0.0) with false. cbv iota.
    eexists. split; [reflexivity|].
    unfold color_eq, payload_eq. cbn [type extra data set_data].
    repeat split; lra.
Qed.

(** X18.  An RGB value with channels between 0 and 1 whose hue, when it is
    not gray, is clear of the rounding window survives the trip to HSL and
    back. *)
Theorem rgb_hsl_round_trip (e ex ex' : Z) (R G B : double) :
  0 <= R <= 1 -> 0 <= G <= 1 -> 0 <= B <= 1 ->
  (rgb_min R G B < rgb_max R G B -> hue_clear (rgb_hue R G B)) ->
  exists c',
    (c1 <- color_RGB_to_HSL {| type := COLOR_RGB; extra := e; data := Doubles R G B |} ex ;;
     color_HSL_to_RGB c1 ex') = Ok c' /\
    color_eq c' {| type := COLOR_RGB; extra := e; data := Doubles R G B |}.
Proof.
  intros [HR0 HR1] [HG0 HG1] [HB0 HB1] Hclear. rewrite color_RGB_to_HSL_unfold.
  destruct (rgb_extrema R G B)
    as ((HR & HG & HB) & (HR' & HG' & HB') & Hmx & Hmn).
  assert (Hmn0 : 0 <= rgb_min R G B)
    by (destruct Hmn as [->|[->| ->]]; assumption).
  assert (Hmx1 : rgb_max R G B <= 1)
    by (destruct Hmx as [->|[->| ->]]; assumption).
  set (mx := rgb_max R G B) in *. set (mn := rgb_min R G B) in *.
  destruct (fabs (mx - mn) >? 0.0) eqn:Ed; cbn [bind].
  - apply fabs_positive_nonzero in Ed.
    assert (Hd : mn < mx) by lra.
    destruct (rgb_hue_inverse R G B Hd) as (Hlo & Hhi & Hinv).
    fold mx mn in Hinv.
    unfold color_HSL_to_RGB, assert_type.
    cbn [type extra data get_doubles bind assert Z.eqb Pos.eqb COLOR_HSL set_type].
    match goal with
    | |- context [dlt 0.0 (fabs ?t)] => remember t as s eqn:Es
    end.
    assert (HS : (1.0 - fabs ((mx + mn) * 0.5 * 2.0 - 1.0)) * s == mx - mn /\
                 ~ s == 0).
    { rewrite Es. unfold fabs.
      destruct ((mx + mn) * 0.5 <? 0.5) eqn:EL;
        [apply dlt_true in EL | apply dlt_false in EL].
      - split; [|apply quotient_nonzero; lra].
        rewrite Qabs_neg by lra. field. lra.
      - split; [|apply quotient_nonzero; lra].
        rewrite Qabs_pos by lra. field. lra. }
    clear Es. destruct HS as (HC & Hs).
    rewrite (fabs_positive_true s Hs).
    match goal with |- context [finish_HSL_to_RGB ?c ?h ?C ?m] =>
      destruct (finish_HSL_to_RGB_reference c h C m Hlo Hhi (Hclear Hd))
        as (r & g & b & E & Href);
      specialize (Hinv C m)
    end.
    rewrite E. eexists. split; [reflexivity|].
    unfold color_eq, payload_eq. cbn [type extra data set_data].
    split; [reflexivity|]. split; [reflexivity|].
    destruct (hue_rgb_reference _ _ _) as [[r' g'] b'].
    destruct Href as (E1 & E2 & E3).
    destruct Hinv as (I1 & I2 & I3); [exact HC | rewrite HC; ring |].
    rewrite E1, E2, E3. auto.
  - apply fabs_positive_false in Ed.
    unfold color_HSL_to_RGB, assert_type.
    cbn [type extra data get_doubles bind assert Z.eqb Pos.eqb COLOR_HSL set_type].
    change (fabs 0.0 >? 0.0) with false. cbv iota.
    eexists. split; [reflexivity|].
    unfold color_eq, payload_eq. cbn [type extra data set_data].
    repeat split; lra.
Qed.

(** Between 0 and 256 [clamp_int] picks the code whose centre is within
    half a unit. *)
Lemma clamp_int_nearest (v : double) :
  0 <= v -> v <= 256 ->
  (0 <= clamp_int v <= 255)%Z /\
  - (1#2) <= inject_Z (clamp_int v) + (1#2) - v <= 1#2.
Proof.
  intros H0 H1. unfold clamp_int.
  destruct (v <? 0.0) eqn:E0; [apply dlt_true in E0; exfalso; lra|].
  destruct (v >? 255.0) eqn:E1; [apply dlt_true in E1 | apply dlt_false in E1].
  - split; [lia | unfold inject_Z; lra].
  - pose proof (Qfloor_le v) as Hle.
    pose proof (Qlt_floor v) as Hlt.
    rewrite inject_Z_plus in Hlt. change (inject_Z 1) with 1 in Hlt.
    destruct (uint8_of_mid v H0 ltac:(lra)) as [-> Hr].
    split; [exact Hr | lra].
Qed.

Lemma flags_after_range_clear (e : Z) :
  (0 <= e <= 7)%Z ->
  to_uint8 (Z.land e (Z.lnot COLOR_YCBCR_FULL_RANGE)) = Z.land e COLOR_YUV_MAT_MASK.
Proof.
  intros He.
  assert (H : (e = 0 \/ e = 1 \/ e = 2 \/ e = 3 \/ e = 4 \/ e = 5 \/ e = 6 \/ e = 7)%Z)
    by lia.
  repeat (destruct H as [H|H]); subst e; reflexivity.
Qed.

(** X25.  A YUV value inside the ranges documented in color.h, stored as
    YCbCr (same matrix, studio or full range) and read back, moves by at most
    half a quantisation step in each component: the decoding constants match
    the encoding constants in both ranges. *)
Theorem yuv_ycbcr_round_trip_error (x ex : Z) (Y U V : double) :
  (0 <= ex <= 7)%Z ->
  Z.land x COLOR_YUV_MAT_MASK = Z.land ex COLOR_YUV_MAT_MASK ->
  0 <= Y <= 1 -> -0.436 <= U <= 0.436 -> -0.615 <= V <= 0.615 ->
  exists Y' U' V',
    (c1 <- color_YUV_to_YCbCr {| type := COLOR_YUV; extra := x; data := Doubles Y U V |} ex ;;
     color_YCbCr_to_YUV c1 ex)
    = Ok {| type := COLOR_YUV; extra := Z.land ex COLOR_YUV_MAT_MASK;
            data := Doubles Y' U' V' |} /\
    if (Z.land ex COLOR_YCBCR_FULL_RANGE =? 0)%Z
    then - (1 # 438) <= Y' - Y <= 1 # 438 /\
         - (109 # 56000) <= U' - U <= 109 # 56000 /\
         - (123 # 44800) <= V' - V <= 123 # 44800
    else - (1 # 510) <= Y' - Y <= 1 # 510 /\
         - (109 # 63750) <= U' - U <= 109 # 63750 /\
         - (41 # 17000) <= V' - V <= 41 # 17000.
Proof.
  intros He Hm HY HU HV.
  unfold color_YUV_to_YCbCr, color_YCbCr_to_YUV, assert_type.
  cbn [type extra data assert bind Z.eqb Pos.eqb COLOR_YUV].
  rewrite Hm, Z.eqb_refl. cbn [negb bind get_doubles data].
  destruct (Z.land ex COLOR_YCBCR_FULL_RANGE =? 0)%Z eqn:Ef;
    cbn [negb bind type extra data get_bytes assert Z.eqb Pos.eqb COLOR_YCBCR];
    rewrite Ef, (mask_after_range_clear ex He), Z.eqb_refl;
    rewrite (flags_after_range_clear ex He); cbn [negb];
    (eexists _, _, _; split; [reflexivity|]).
  - destruct (clamp_int_nearest (Y * 219.0 + 16.5)) as [_ Hy]; [lra | lra |].
    destruct (clamp_int_nearest (U * (28000.0/109.0) + 144)) as [_ Hu];
      [qconst; lra | qconst; lra |].
    destruct (clamp_int_nearest (V * (22400.0/123.0) + 144)) as [_ Hv];
      [qconst; lra | qconst; lra |].
    revert Hy Hu Hv.
    generalize (inject_Z (clamp_int (Y * 219.0 + 16.5))).
    generalize (inject_Z (clamp_int (U * (28000.0/109.0) + 144))).
    generalize (inject_Z (clamp_int (V * (22400.0/123.0) + 144))).
    intros cv cu cy Hy Hu Hv. qconst. lra.
  - destruct (clamp_int_nearest (Y * 255.0 + 0.5)) as [_ Hy]; [lra | lra |].
    destruct (clamp_int_nearest (U * (31875.0/109.0) + 128)) as [_ Hu];
      [qconst; lra | qconst; lra |].
    destruct (clamp_int_nearest (V * (8500.0/41.0) + 128)) as [_ Hv];
      [qconst; lra | qconst; lra |].
    revert Hy Hu Hv.
    generalize (inject_Z (clamp_int (Y * 255.0 + 0.5))).
    generalize (inject_Z (clamp_int (U * (31875.0/109.0) + 128))).
    generalize (inject_Z (clamp_int (V * (8500.0/41.0) + 128))).
    intros cv cu cy Hy Hu Hv. qconst. lra.
Qed.

(** ** Luv *)

(** X27.  On the linear segment of the lightness (Y positive and at most
    216/24389), an XYZ value with nonzero X and nonzero X + 15 Y + 3 Z
    survives the trip to Luv and back. *)
Theorem xyz_luv_round_trip_linear (e ex ex' : Z) (X Y Z : Q) :
  0 < Y -> Y <= 216.0 / 24389.0 -> ~ X == 0 -> ~ X + Y * 15 + Z * 3 == 0 ->
  exists c',
    (c1 <- color_XYZ_to_Luv {| type := COLOR_XYZ; extra := e; data := Doubles X Y Z |} ex ;;
     color_Luv_to_XYZ c1 ex') = Ok c' /\
    color_eq c' {| type := COLOR_XYZ; extra := e; data := Doubles X Y Z |}.
Proof.
  intros HY0 HY1 HX Hd.
  unfold color_XYZ_to_Luv, color_Luv_to_XYZ, assert_type.
  cbn [type extra data get_doubles bind assert Z.eqb Pos.eqb COLOR_XYZ].
  assert (EY : (Y >? 216.0 / 24389.0) = false) by (apply dlt_false; exact HY1).
  rewrite EY.
  assert (Ed : (fabs (X + Y * 15.0 + Z * 3.0) >? 0.0) = true).
  { apply fabs_positive_true. intros E. apply Hd. rewrite <- E. ring. }
  rewrite Ed.
  cbn [type extra data get_doubles bind assert Z.eqb Pos.eqb COLOR_LUV].
  assert (EL : (Y * (24389.0 / 27.0) >? 8.0) = false).
  { apply dlt_false. revert HY1. qconst. lra. }
  rewrite EL.
  eexists. split; [reflexivity|].
  unfold color_eq, payload_eq. cbn [type extra data].
  split; [reflexivity|]. split; [reflexivity|].
  unfold COLOR_REF_U13, COLOR_REF_V13.
  assert (HYn : ~ Y == 0) by lra.
  assert (Hd' : ~ X + Y * 15.0 + Z * 3.0 == 0).
  { intros E. apply Hd. rewrite <- E. ring. }
  assert (HXY : ~ X * Y == 0).
  { intros E. apply Qmult_integral in E. tauto. }
  assert (HYY : ~ Y * Y == 0).
  { intros E. apply Qmult_integral in E. tauto. }
  assert (HYd : ~ Y * (X + Y * 15.0 + Z * 3.0) == 0).
  { intros E. apply Qmult_integral in E. tauto. }
  repeat split; try reflexivity;
    (field; repeat split; try assumption; intros E;
     first [ apply HXY; nra | apply HYY; nra | apply HYd; nra ]).
Qed.

End MoreEdgeProperties.

(** * Further properties of the routing engine *)

Section MoreRoutingProperties.

Context {M : MathLib}.

Lemma convert_loop_exit (fuel : nat) :
  forall (c c' : color) (nt ne : Z) (n : nat),
    convert_loop fuel c nt ne = Ok (c', n) -> type c' = nt /\ extra c' = ne.
Proof.
  induction fuel as [|fuel IH]; intros c c' nt ne n; cbn [convert_loop];
    destruct (negb (type c =? nt)%Z || negb (extra c =? ne)%Z) eqn:Hg;
    try discriminate.
  - intros [= <- <-]. apply orb_false_iff in Hg. destruct Hg as [H1 H2].
    apply negb_false_iff in H1. apply negb_false_iff in H2.
    apply Z.eqb_eq in H1. apply Z.eqb_eq in H2. auto.
  - destruct (convert_iteration c nt ne) as [c1|]; cbn [bind]; [|discriminate].
    destruct (convert_loop fuel c1 nt ne) as [[c2 n2]|] eqn:E; cbn [bind];
      [|discriminate].
    intros [= <- <-]. apply (IH c1 c2 nt ne n2 E).
  - intros [= <- <-]. apply orb_false_iff in Hg. destruct Hg as [H1 H2].
    apply negb_false_iff in H1. apply negb_false_iff in H2.
    apply Z.eqb_eq in H1. apply Z.eqb_eq in H2. auto.
Qed.

Lemma color_convert_inv (fuel : nat) (c c' : color) (nt ne : Z) :
  color_convert fuel c nt ne = Ok c' ->
  valid_type nt = true /\
  exists n, convert_loop fuel c nt ne = Ok (c', n).
Proof.
  unfold color_convert, color_convert_hops.
  destruct (valid_type nt) eqn:Hnt; cbn [assert bind]; [|discriminate].
  destruct (convert_loop fuel c nt ne) as [[c1 n]|] eqn:E; cbn [bind]; [|discriminate].
  destruct (valid_type (type c1)); cbn [assert bind]; [|discriminate].
  intros [= <-]. split; [reflexivity|]. exists n. reflexivity.
Qed.

(** X19.  Whatever the value and the target, when [color_convert] returns
    the value has the requested type and the requested flags, and a second
    conversion to the same target returns it unchanged. *)
Theorem color_convert_postcondition (fuel fuel' : nat) (c c' : color) (nt ne : Z) :
  color_convert fuel c nt ne = Ok c' ->
  type c' = nt /\ extra c' = ne /\ color_convert fuel' c' nt ne = Ok c'.
Proof.
  intros H. destruct (color_convert_inv fuel c c' nt ne H) as (Hnt & n & E).
  destruct (convert_loop_exit fuel c c' nt ne n E) as [Ht Hx].
  split; [exact Ht|]. split; [exact Hx|].
  unfold color_convert, color_convert_hops. rewrite Hnt. cbn [assert bind].
  rewrite (convert_loop_done fuel' c' nt ne Ht Hx). cbn [bind].
  rewrite Ht, Hnt. reflexivity.
Qed.

Lemma convert_iteration_well_tagged (c c' : color) (nt ne : Z) :
  well_tagged c -> valid_type nt = true ->
  negb (type c =? nt)%Z || negb (extra c =? ne)%Z = true ->
  convert_iteration c nt ne = Ok c' -> well_tagged c'.
Proof.
  intros Hwf Hnt Hg.
  destruct (hue_safe c) eqn:Hsafe.
  2:{ rewrite (convert_iteration_unsafe c nt ne Hsafe Hnt). discriminate. }
  unfold convert_iteration.
  destruct (valid_type (type c)) eqn:Hs; cbn [assert bind]; [|discriminate].
  destruct (nth_error g_descriptors (Z.to_nat (type c - 1))) as [desc|] eqn:Hdesc;
    [|discriminate].
  assert (Hcall : forall t f,
             valid_type t = true -> conversion_at desc t = Some f ->
             (type c = t -> extra c <> ne) ->
             (c1 <- f c ne ;; assert (type c1 =? t)%Z A_reached ;; Ok c1) = Ok c' ->
             well_tagged c').
  { intros t f Ht Hf Hpre.
    destruct (table_edges (type c) t desc f Hs Ht Hdesc Hf) as [Hok _].
    destruct (Hok c ne Hwf eq_refl Hpre Hsafe) as (c1 & E & W & T & _).
    rewrite E. cbn [bind]. rewrite T, Z.eqb_refl. cbn [assert bind].
    intros [= <-]. exact W. }
  destruct (conversion_at desc nt) as [f|] eqn:Hf; cbn [bind].
  - apply (Hcall nt f Hnt Hf). apply loop_guard_differ, Hg.
  - destruct (valid_type (proxy_at desc nt)) eqn:Hp; cbn [assert bind]; [|discriminate].
    destruct (conversion_at desc (proxy_at desc nt)) as [f|] eqn:Hf';
      cbn [bind]; [|discriminate].
    apply (Hcall _ f Hp Hf'). intros Heq. exfalso.
    apply (proxy_not_self (type c) nt Hs Hnt).
    unfold proxy_of. rewrite Hdesc. symmetry. exact Heq.
Qed.

Lemma convert_loop_well_tagged (fuel : nat) :
  forall (c c' : color) (nt ne : Z) (n : nat),
    well_tagged c -> valid_type nt = true ->
    convert_loop fuel c nt ne = Ok (c', n) -> well_tagged c'.
Proof.
  induction fuel as [|fuel IH]; intros c c' nt ne n Hwf Hnt; cbn [convert_loop];
    destruct (negb (type c =? nt)%Z || negb (extra c =? ne)%Z) eqn:Hg;
    try discriminate; try (intros [= <- <-]; exact Hwf).
  destruct (convert_iteration c nt ne) as [c1|] eqn:E1; cbn [bind]; [|discriminate].
  destruct (convert_loop fuel c1 nt ne) as [[c2 n2]|] eqn:E2; cbn [bind];
    [|discriminate].
  intros [= <- <-].
  apply (IH c1 c2 nt ne n2); [|exact Hnt|exact E2].
  apply (convert_iteration_well_tagged c c1 nt ne Hwf Hnt Hg E1).
Qed.

(** X20.  [color_convert] keeps the payload in step with the tag: from a
    value whose payload has the storage kind of its space (bytes for RGB8
    and YCbCr, doubles elsewhere), whatever the flags, every value it returns
    has the storage kind of the requested space. *)
Theorem color_convert_well_tagged (fuel : nat) (c c' : color) (nt ne : Z) :
  well_tagged c -> color_convert fuel c nt ne = Ok c' -> well_tagged c'.
Proof.
  intros Hwf H. destruct (color_convert_inv fuel c c' nt ne H) as (Hnt & n & E).
  apply (convert_loop_well_tagged fuel c c' nt ne n Hwf Hnt E).
Qed.

(** X21.  A request to change only the flags of a value of a space other
    than YUV and YCbCr fails on the assertion [tmp_type > COLOR_NONE]: these
    spaces have neither a self-edge nor a proxy to themselves. *)
Theorem flags_only_change_aborts (fuel : nat) (c : color) (ne : Z) :
  valid_type (type c) = true -> video_space (type c) = false -> extra c <> ne ->
  color_convert (S fuel) c (type c) ne = Err (AssertionFailed A_tmp_type).
Proof.
  intros Hs Hv Hx. apply Z.eqb_neq in Hx.
  unfold color_convert, color_convert_hops. rewrite Hs. cbn [assert bind convert_loop].
  rewrite Z.eqb_refl, Hx. cbn [negb orb].
  unfold convert_iteration. rewrite Hs. cbn [assert bind].
  destruct c as [t x p]. cbn [type extra] in *. clear Hx.
  each_type Hs; first [discriminate Hv | reflexivity].
Qed.



(** X23.  For every space, [color_extract_components] on a value whose
    payload has the storage kind of its space returns the three components
    in order: the doubles as they are, the bytes converted to [double]. *)
Theorem extract_components_payload (c : color) :
  well_tagged c -> valid_type (type c) = true ->
  color_extract_components c
  = Ok (match data c with
        | Doubles d0 d1 d2 => (d0, d1, d2)
        | Bytes b0 b1 b2 => (inject_Z b0, inject_Z b1, inject_Z b2)
        end).
Proof.
  intros Hwf Hs. unfold color_extract_components. rewrite Hs. cbn [assert bind].
  destruct c as [t x p]. unfold well_tagged in Hwf. cbn [type data] in *.
  each_type Hs; destruct p; try discriminate Hwf; reflexivity.
Qed.

(** X24.  [color_name] gives every space a name, and two different spaces
    never share one. *)
Theorem color_name_injective (s t : Z) :
  valid_type s = true -> valid_type t = true ->
  exists n m, color_name s = Ok n /\ color_name t = Ok m /\ (n = m -> s = t).
Proof.
  intros Hs Ht.
  each_type Hs; each_type Ht; eexists _, _;
    (split; [reflexivity|]; split; [reflexivity|]);
    intros H; first [reflexivity | discriminate H].
Qed.

End MoreRoutingProperties.

(** * Runs on the sample values *)

(** The failing input of C1: the HSV value of hue -1e-17, converted to
    RGB. *)
Lemma hue_rounding_aborts_witness :
  @color_convert sample_math 1 hsv_near_red COLOR_RGB 0 = Err (AssertionFailed A_idx).
Proof.
  apply (@hue_rounding_aborts sample_math 0 COLOR_HSV 0 COLOR_RGB 0 (-1e-17) 1 1);
    first [reflexivity | right; reflexivity | vm_compute; discriminate].
Defined.

(** The code computes that HSV value itself, from the RGB triple
    (1, 0, 1e-17), and the same run of the driver back to RGB fails. *)
Lemma rgb_near_red_round_trip_aborts :
  exists c1,
    @color_convert sample_math 1 rgb_near_red COLOR_HSV 0 = Ok c1 /\
    color_eq c1 hsv_near_red /\
    @color_convert sample_math 1 c1 COLOR_RGB 0 = Err (AssertionFailed A_idx).
Proof.
  eexists. split; [vm_compute; reflexivity|]. split.
  - unfold color_eq, payload_eq. cbn [type extra data hsv_near_red].
    repeat split; reflexivity.
  - vm_compute. reflexivity.
Qed.

Lemma color_convert_hops_bound_witness :
  (hue_safe ycbcr_black = true \/ type ycbcr_black = COLOR_LSHUV ->
   exists c' n,
     (forall fuel, (7 <= fuel)%nat ->
                   @color_convert_hops sample_math fuel ycbcr_black COLOR_LSHUV 0
                   = Ok (c', n)) /\
     (n <= 7)%nat) /\
  (hue_safe ycbcr_black = false -> type ycbcr_black <> COLOR_LSHUV ->
   forall fuel, @color_convert_hops sample_math (S fuel) ycbcr_black COLOR_LSHUV 0
                = Err (AssertionFailed A_idx)).
Proof.
  apply (@color_convert_hops_bound sample_math ycbcr_black COLOR_LSHUV 0); reflexivity.
Defined.

(** A studio-range YCbCr value with applicable flags, converted to LSHuv
    with applicable flags, goes through seven edges
    (YUV, RGB, LinearRGB, XYZ, Luv, LCHuv, LSHuv): more than three. *)
Lemma ycbcr_to_lshuv_exceeds_three :
  well_tagged ycbcr_black /\
  valid_type (type ycbcr_black) = true /\
  flags_applicable (type ycbcr_black) (extra ycbcr_black) = true /\
  valid_type COLOR_LSHUV = true /\ flags_applicable COLOR_LSHUV 0 = true /\
  hops_of (@color_convert_hops sample_math 7 ycbcr_black COLOR_LSHUV 0) = Some 7%nat /\
  ~ (7 <= 3)%nat.
Proof.
  repeat split; try (vm_compute; reflexivity). lia.
Qed.

Lemma color_convert_noop_witness :
  @color_convert_hops sample_math 0 rgb_gray COLOR_RGB 0 = Ok (rgb_gray, 0%nat) /\
  @color_convert sample_math 0 rgb_gray COLOR_RGB 0 = Ok rgb_gray.
Proof.
  apply (@color_convert_noop sample_math 0 rgb_gray COLOR_RGB 0); reflexivity.
Defined.

Lemma yuv_self_edge_witness :
  color_YUV_to_YUV yuv_sample COLOR_YUV_MAT_REC709
  = (c1 <- color_YUV_to_RGB yuv_sample COLOR_YUV_MAT_REC709 ;;
     color_RGB_to_YUV c1 COLOR_YUV_MAT_REC709) /\
  @color_convert sample_math 0 rgb8_red COLOR_LAB 0
  <> Err (AssertionFailed A_YUV_to_YUV_pre) /\
  exists c',
    @color_convert sample_math 1
      {| type := COLOR_YUV; extra := COLOR_YUV_MAT_REC601; data := Doubles 0.5 0.4 0 |}
      COLOR_YUV COLOR_YUV_MAT_REC709 = Ok c' /\
    color_eq c'
      (let '(Y', U', V') := rec709_rgb_to_yuv (rec601_yuv_to_rgb (0.5, 0.4, 0)) in
       {| type := COLOR_YUV; extra := COLOR_YUV_MAT_REC709; data := Doubles Y' U' V' |}).
Proof.
  apply (@yuv_self_edge sample_math yuv_sample COLOR_YUV_MAT_REC709 0%nat
           rgb8_red COLOR_LAB 0 0.5 0.4 0);
    [reflexivity | vm_compute; discriminate].
Defined.



(** ** Runs of the further properties *)

Lemma rgb8_rgb_round_trip_witness :
  (c1 <- color_RGB8_to_RGB rgb8_red 0 ;; color_RGB_to_RGB8 c1 0) = Ok rgb8_red.
Proof.
  apply (rgb8_rgb_round_trip 0 0 0 255 0 0); lia.
Defined.

Lemma yuv_rgb_round_trip_witness :
  exists c',
    (c1 <- color_YUV_to_RGB yuv_sample 0 ;;
     color_RGB_to_YUV c1 COLOR_YUV_MAT_REC601) = Ok c' /\
    color_eq c' yuv_sample.
Proof.
  apply (yuv_rgb_round_trip COLOR_YUV_MAT_REC601 COLOR_YUV_MAT_REC601 0 0.5 0.4 0).
  reflexivity.
Defined.

Lemma ycbcr_yuv_round_trip_witness :
  (c1 <- color_YCbCr_to_YUV ycbcr_black 0 ;; color_YUV_to_YCbCr c1 0) = Ok ycbcr_black.
Proof.
  apply (ycbcr_yuv_round_trip 0 16 128 128); lia.
Defined.

Lemma xyz_xyy_round_trip_witness :
  exists c',
    (c1 <- color_XYZ_to_xyY xyz_sample 0 ;; color_xyY_to_XYZ c1 0) = Ok c' /\
    color_eq c' xyz_sample.
Proof.
  apply (xyz_xyy_round_trip 0 0 0 (1 # 200) (1 # 200) (1 # 200));
    vm_compute; discriminate.
Defined.

Lemma xyz_xyy_zero_luminance_witness :
  (c1 <- color_XYZ_to_xyY
           {| type := COLOR_XYZ; extra := 0; data := Doubles 0.25 0 0.25 |} 0 ;;
   color_xyY_to_XYZ c1 0)
  = Ok {| type := COLOR_XYZ; extra := 0; data := Doubles 0.0 0.0 0.0 |}.
Proof.
  apply (xyz_xyy_zero_luminance 0 0 0 0.25 0 0.25). reflexivity.
Defined.

Lemma lchuv_lshuv_round_trip_witness :
  (exists c',
      (c1 <- color_LCHuv_to_LSHuv
               {| type := COLOR_LCHUV; extra := 0; data := Doubles 50 25 1 |} 0 ;;
       color_LSHuv_to_LCHuv c1 0) = Ok c' /\
      color_eq c' {| type := COLOR_LCHUV; extra := 0; data := Doubles 50 25 1 |}) /\
  (exists c',
      (c1 <- color_LSHuv_to_LCHuv
               {| type := COLOR_LSHUV; extra := 0; data := Doubles 50 25 1 |} 0 ;;
       color_LCHuv_to_LSHuv c1 0) = Ok c' /\
      color_eq c' {| type := COLOR_LSHUV; extra := 0; data := Doubles 50 25 1 |}).
Proof.
  apply (lchuv_lshuv_round_trip 0 0 0 50 25 1). vm_compute. discriminate.
Defined.

Lemma xyz_lab_round_trip_linear_witness :
  exists c',
    (c1 <- @color_XYZ_to_Lab sample_math xyz_sample 0 ;; color_Lab_to_XYZ c1 0) = Ok c' /\
    color_eq c' xyz_sample.
Proof.
  apply (@xyz_lab_round_trip_linear sample_math 0 0 0 (1 # 200) (1 # 200) (1 # 200));
    vm_compute; discriminate.
Defined.

Lemma hsv_hsl_to_rgb_reference_witness :
  (exists r g b,
      color_HSV_to_RGB {| type := COLOR_HSV; extra := 0; data := Doubles 2.5 0.5 0.5 |} 0
      = Ok {| type := COLOR_RGB; extra := 0; data := Doubles r g b |} /\
      let '(r', g', b') := hue_rgb_reference 2.5 (0.5 * 0.5) (0.5 - 0.5 * 0.5) in
      r == r' /\ g == g' /\ b == b') /\
  (exists r g b,
      color_HSL_to_RGB {| type := COLOR_HSL; extra := 0; data := Doubles 2.5 0.5 0.5 |} 0
      = Ok {| type := COLOR_RGB; extra := 0; data := Doubles r g b |} /\
      let C := (1 - Qabs (2 * 0.5 - 1)) * 0.5 in
      let '(r', g', b') := hue_rgb_reference 2.5 C (0.5 - C / 2) in
      r == r' /\ g == g' /\ b == b').
Proof.
  apply (hsv_hsl_to_rgb_reference 0 0 2.5 0.5 0.5);
    first [reflexivity | right; vm_compute; discriminate | vm_compute; discriminate].
Defined.

Lemma rgb_hsv_round_trip_witness :
  exists c',
    (c1 <- color_RGB_to_HSV rgb_sample 0 ;; color_HSV_to_RGB c1 0) = Ok c' /\
    color_eq c' rgb_sample.
Proof.
  apply (rgb_hsv_round_trip 0 0 0 0.75 0.5 0.25);
    first [intros _; right; vm_compute; discriminate | vm_compute; discriminate].
Defined.

Lemma rgb_hsl_round_trip_witness :
  exists c',
    (c1 <- color_RGB_to_HSL rgb_sample 0 ;; color_HSL_to_RGB c1 0) = Ok c' /\
    color_eq c' rgb_sample.
Proof.
  apply (rgb_hsl_round_trip 0 0 0 0.75 0.5 0.25);
    first [intros _; right; vm_compute; discriminate | split; vm_compute; discriminate].
Defined.

Lemma yuv_ycbcr_round_trip_error_witness :
  exists Y' U' V',
    (c1 <- color_YUV_to_YCbCr yuv_sample 0 ;; color_YCbCr_to_YUV c1 0)
    = Ok {| type := COLOR_YUV; extra := Z.land 0 COLOR_YUV_MAT_MASK;
            data := Doubles Y' U' V' |} /\
    if (Z.land 0 COLOR_YCBCR_FULL_RANGE =? 0)%Z
    then - (1 # 438) <= Y' - 0.5 <= 1 # 438 /\
         - (109 # 56000) <= U' - 0.4 <= 109 # 56000 /\
         - (123 # 44800) <= V' - 0 <= 123 # 44800
    else - (1 # 510) <= Y' - 0.5 <= 1 # 510 /\
         - (109 # 63750) <= U' - 0.4 <= 109 # 63750 /\
         - (41 # 17000) <= V' - 0 <= 41 # 17000.
Proof.
  apply (yuv_ycbcr_round_trip_error 0 0 0.5 0.4 0);
    [lia | reflexivity | | |]; split; vm_compute; discriminate.
Defined.

Lemma xyz_luv_round_trip_linear_witness :
  exists c',
    (c1 <- @color_XYZ_to_Luv sample_math xyz_sample 0 ;; color_Luv_to_XYZ c1 0) = Ok c' /\
    color_eq c' xyz_sample.
Proof.
  apply (@xyz_luv_round_trip_linear sample_math 0 0 0 (1 # 200) (1 # 200) (1 # 200));
    first [reflexivity | vm_compute; discriminate].
Defined.

Lemma color_convert_postcondition_witness :
  type rgb8_gray = COLOR_RGB8 /\ extra rgb8_gray = 0%Z /\
  @color_convert sample_math 0 rgb8_gray COLOR_RGB8 0 = Ok rgb8_gray.
Proof.
  apply (@color_convert_postcondition sample_math 1 0 rgb_gray rgb8_gray COLOR_RGB8 0).
  vm_compute. reflexivity.
Defined.

Lemma color_convert_well_tagged_witness : well_tagged rgb8_gray.
Proof.
  apply (@color_convert_well_tagged sample_math 1 rgb_gray rgb8_gray COLOR_RGB8 0);
    vm_compute; reflexivity.
Defined.

Lemma flags_only_change_aborts_witness :
  @color_convert sample_math 1 rgb_gray COLOR_RGB 1 = Err (AssertionFailed A_tmp_type).
Proof.
  apply (@flags_only_change_aborts sample_math 0 rgb_gray 1);
    first [reflexivity | vm_compute; discriminate].
Defined.


Lemma extract_components_payload_witness :
  @color_extract_components sample_math ycbcr_black
  = Ok (inject_Z 16, inject_Z 128, inject_Z 128).
Proof.
  apply (@extract_components_payload sample_math ycbcr_black); reflexivity.
Defined.

Lemma color_name_injective_witness :
  exists n m,
    @color_name sample_math COLOR_RGB = Ok n /\
    @color_name sample_math COLOR_HSL = Ok m /\
    (n = m -> COLOR_RGB = COLOR_HSL).
Proof.
  apply (@color_name_injective sample_math COLOR_RGB COLOR_HSL); reflexivity.
Defined.
